(** * ZetaStitcher: the fusion runner and the TIFF wrapper

  A shallow embedding of [stitcher/fuse_runner.py] and
  [stitcher/tiffwrapper.py].  Python integers are unbounded and are
  modelled by [Z]; numpy's default integer is the 64-bit C long and wraps.
  Exceptions are modelled by an explicit result type, the runner object by
  a record threaded through a small state-and-trace monad, and the file
  system by finite maps keyed by path. *)

From Stdlib Require Import ZArith QArith Qround Lia Lqa Ascii String.
From stdpp Require Import base list gmap strings sorting.

Local Open Scope Z_scope.

(** ** Python preliminaries *)

Module Py.

Inductive exn : Set :=
| IndexError
| ZeroDivisionError
| ValueError
| FileNotFoundError
| AxisError.

Inductive result (A : Type) : Type :=
| Ok (a : A)
| Raise (e : exn).
Arguments Ok {A} a.
Arguments Raise {A} e.

Definition is_ok {A} (r : result A) : bool :=
  match r with Ok _ => true | Raise _ => false end.

(** [l[i]] and [l[i] = v] accept a negative index counted from the end and
    raise [IndexError] out of range. *)
Definition norm_index {A} (l : list A) (i : Z) : option nat :=
  let n := Z.of_nat (length l) in
  if bool_decide (0 <= i < n) then Some (Z.to_nat i)
  else if bool_decide (- n <= i < 0) then Some (Z.to_nat (i + n))
  else None.

Definition getitem {A} (l : list A) (i : Z) : result A :=
  match norm_index l i with
  | Some k => match l !! k with Some x => Ok x | None => Raise IndexError end
  | None => Raise IndexError
  end.

Definition setitem {A} (l : list A) (i : Z) (v : A) : result (list A) :=
  match norm_index l i with
  | Some k => Ok (<[k := v]> l)
  | None => Raise IndexError
  end.

(** [l[a:b]]: both bounds are clamped into [0, len]; a negative bound is
    counted from the end. *)
Definition clamp_bound {A} (l : list A) (i : Z) : nat :=
  let n := Z.of_nat (length l) in
  Z.to_nat (if bool_decide (i < 0) then Z.max (i + n) 0 else Z.min i n).

Definition slice {A} (l : list A) (a b : Z) : list A :=
  let lo := clamp_bound l a in
  let hi := clamp_bound l b in
  take (hi - lo)%nat (drop lo l).

(** [a // b] and [a % b]: floor division, the remainder has the sign of
    the divisor, as [Z.div] and [Z.modulo]; a zero divisor raises. *)
Definition floordiv (a b : Z) : result Z :=
  if bool_decide (b = 0) then Raise ZeroDivisionError else Ok (a / b).

Definition modulo (a b : Z) : result Z :=
  if bool_decide (b = 0) then Raise ZeroDivisionError else Ok (a mod b).

(** [range(a, b)] *)
Definition range (a b : Z) : list Z :=
  (fun i : nat => a + Z.of_nat i) <$> seq 0 (Z.to_nat (b - a)).

(** [posixpath.join(a, b)] *)
Definition ends_with_slash (a : string) : bool :=
  match String.get (String.length a - 1) a with
  | Some c => bool_decide (c = "/"%char)
  | None => false
  end.

Definition os_path_join (a b : string) : string :=
  if String.prefix "/" b then b
  else if bool_decide (a = ""%string) || ends_with_slash a
       then (a ++ b)%string
       else (a ++ "/" ++ b)%string.

End Py.
Import Py.

(** ** The part of numpy the runner uses *)

Module Numpy.

(** The default integer of numpy is a 64-bit two's complement integer;
    products wrap around silently. *)
Definition wrap64 (z : Z) : Z := (z + 2 ^ 63) mod 2 ^ 64 - 2 ^ 63.

Definition prod (l : list Z) : Z :=
  foldl (fun acc x => wrap64 (acc * x)) 1 l.

Inductive kind : Set := SignedInteger | UnsignedInteger | Floating.

Record dtype : Set := Dtype { dkind : kind; itemsize : Z }.

(** [np.issubdtype(dtype, np.integer)] *)
Definition is_integer (d : dtype) : bool :=
  match dkind d with
  | SignedInteger | UnsignedInteger => true
  | Floating => false
  end.

Definition uint8 := Dtype UnsignedInteger 1.
Definition uint16 := Dtype UnsignedInteger 2.
Definition int16 := Dtype SignedInteger 2.
Definition float32 := Dtype Floating 4.

(** The values an integer type holds. *)
Definition int_min (d : dtype) : Z :=
  match dkind d with
  | SignedInteger => - 2 ^ (8 * itemsize d - 1)
  | _ => 0
  end.

Definition int_max (d : dtype) : Z :=
  match dkind d with
  | SignedInteger => 2 ^ (8 * itemsize d - 1) - 1
  | _ => 2 ^ (8 * itemsize d) - 1
  end.

(** [np.moveaxis(a, -3, -1)] on the shape of [a]. *)
Definition moveaxis_m3_last (shape : list Z) : result (list Z) :=
  match norm_index shape (-3) with
  | Some k =>
      match shape !! k with
      | Some c => Ok (take k shape ++ drop (S k) shape ++ [c])
      | None => Raise AxisError
      end
  | None => Raise AxisError
  end.

(** *** Conversion of the accumulation buffer

    A cell of a float32 buffer is modelled by the rational number it
    denotes (every finite float is one).  [np.rint] rounds to the nearest
    integer, ties to even; [astype] to an integer type is the C conversion:
    the fractional part is discarded, and the result is unspecified when the
    truncated value does not fit the type. *)

Definition round_half_even (x : Q) : Z :=
  let f := Qfloor x in
  match (x - inject_Z f ?= 1 # 2)%Q with
  | Lt => f
  | Gt => f + 1
  | Eq => if Z.even f then f else f + 1
  end.

Definition rint (x : Q) : Q := inject_Z (round_half_even x).

Definition Qtrunc (x : Q) : Z := Z.quot (Qnum x) (Z.pos (Qden x)).

Inductive cell : Set :=
| IntCell (z : Z)
| FloatCell (q : Q)
| Unspecified.

Section Conversion.

(** The value of a float32 after conversion to a floating type (the
    identity for float32 and float64). *)
Variable float_cast : dtype -> Q -> Q.

Definition astype (d : dtype) (x : Q) : cell :=
  if is_integer d then
    let t := Qtrunc x in
    if bool_decide (int_min d <= t <= int_max d) then IntCell t
    else Unspecified
  else FloatCell (float_cast d x).

End Conversion.

End Numpy.

(** ** tiffwrapper.py *)

Module TiffWrapper.

Section Volume.

(** The pixel data of one page, and what [astype] does to it. *)
Variable Frame : Type.
Variable dtype : Type.
Variable astype_frame : dtype -> Frame -> Frame.

(** An array is a page, or a stack along a new leading axis. *)
#[warning="-register-all"]
Inductive ndarray : Type :=
| Page (f : Frame)
| Stack (items : list ndarray).

Fixpoint frames (a : ndarray) : list Frame :=
  match a with
  | Page f => [f]
  | Stack items => concat (map frames items)
  end.

(** The length of the leading axis, when the array has one above the page
    axes. *)
Definition leading_axis (a : ndarray) : option nat :=
  match a with
  | Page _ => None
  | Stack items => Some (length items)
  end.

Fixpoint astype (d : dtype) (a : ndarray) : ndarray :=
  match a with
  | Page f => Page (astype_frame d f)
  | Stack items => Stack (map (astype d) items)
  end.

(** *** The file system and tifffile

    A TIFF file is the list of its pages.  [TiffFile.asarray] and
    [tiff.imread] belong to the tifffile library; they are modelled by
    their contract: the selected pages are stacked along a new leading axis,
    a single selected page comes back with the shape of the page alone, and
    an empty selection is refused. *)
Record FileSystem : Type := {
  isdir : string -> bool;
  glob : string -> list string;      (* matches of a pattern, any order *)
  files : gmap string (list Frame)
}.

Variable fs : FileSystem.

Definition stack_pages (ps : list Frame) : result ndarray :=
  match ps with
  | [] => Raise ValueError
  | [p] => Ok (Page p)
  | _ => Ok (Stack (Page <$> ps))
  end.

Fixpoint select_pages (pages : list Frame) (keys : list Z)
  : result (list Frame) :=
  match keys with
  | [] => Ok []
  | k :: keys' =>
      match getitem pages k with
      | Raise e => Raise e
      | Ok p =>
          match select_pages pages keys' with
          | Raise e => Raise e
          | Ok ps => Ok (p :: ps)
          end
      end
  end.

(** [tfile.asarray(keys)] *)
Definition asarray (pages : list Frame) (keys : list Z) : result ndarray :=
  match select_pages pages keys with
  | Raise e => Raise e
  | Ok ps => stack_pages ps
  end.

(** [tiff.TiffFile(fname)].  Every path of [files] is a TIFF file; the one
    failure modelled is that of a path that does not exist.  What the
    library raises for a path that exists and is not a TIFF file is not
    modelled, and no statement below depends on it. *)
Definition TiffFile (fname : string) : result (list Frame) :=
  match files fs !! fname with
  | Some pages => Ok pages
  | None => Raise FileNotFoundError
  end.

Definition read_whole (fname : string) : result ndarray :=
  match TiffFile fname with
  | Raise e => Raise e
  | Ok pages => stack_pages pages
  end.

(** The library allocates the result from the shape of the first file
    and assigns the array of each file to its place: a file of as many
    pages as the first fills its place, a file of a single page is
    broadcast over the pages of its place, and any other page count is
    refused by the assignment. *)
Fixpoint read_sequence (n0 : nat) (fnames : list string)
  : result (list ndarray) :=
  match fnames with
  | [] => Ok []
  | f :: fnames' =>
      match TiffFile f with
      | Raise e => Raise e
      | Ok pages =>
          let item :=
            if bool_decide (length pages = n0) then stack_pages pages
            else
              match pages with
              | [p] => Ok (Stack (replicate n0 (Page p)))
              | _ => Raise ValueError
              end in
          match item with
          | Raise e => Raise e
          | Ok a =>
              match read_sequence n0 fnames' with
              | Raise e => Raise e
              | Ok rest => Ok (a :: rest)
              end
          end
      end
  end.

(** [tiff.imread(fnames, pattern='')] *)
Definition imread (fnames : list string) : result ndarray :=
  match fnames with
  | [] => Raise ValueError
  | [f] => read_whole f
  | f :: _ =>
      match TiffFile f with
      | Raise e => Raise e
      | Ok pages =>
          match read_sequence (length pages) fnames with
          | Raise e => Raise e
          | Ok items => Ok (Stack items)
          end
      end
  end.

(** *** The wrapper object *)
Record t : Type := {
  file_name : string;
  tfile : list Frame;        (* the pages of the opened file *)
  flist : list string;
  glob_mode : bool
}.

Definition sorted (l : list string) : list string :=
  merge_sort (fun a b => Is_true (String.leb a b)) l.

(** Lines 45-62. *)
Definition open (file_name : string) : result t :=
  if isdir fs file_name then
    let flist := glob fs (os_path_join file_name "*.tif*")
                 ++ glob fs (os_path_join file_name "*.TIF*") in
    let flist := sorted flist in
    match getitem flist 0 with
    | Raise e => Raise e
    | Ok fname =>
        match TiffFile fname with
        | Raise e => Raise e
        | Ok pages =>
            Ok {| file_name := file_name; tfile := pages; flist := flist;
                  glob_mode := true |}
        end
    end
  else
    match TiffFile file_name with
    | Raise e => Raise e
    | Ok pages =>
        Ok {| file_name := file_name; tfile := pages; flist := [];
              glob_mode := false |}
    end.

(** Lines 19-24. *)
Definition nfrms (w : t) : Z :=
  let nfrms := Z.of_nat (length (tfile w)) in
  if glob_mode w then nfrms * Z.of_nat (length (flist w)) else nfrms.

(** Lines 64-84. *)
Definition slice (w : t) (start_frame : Z) (end_frame : option Z)
    (dt : option dtype) (copy : bool) : result ndarray :=
  let end_frame := default (start_frame + 1) end_frame in
  let a :=
    if negb (glob_mode w) then
      asarray (tfile w) (range start_frame end_frame)
    else
      match floordiv (nfrms w) (Z.of_nat (length (flist w))) with
      | Raise e => Raise e
      | Ok frames_per_file =>
          match floordiv start_frame frames_per_file with
          | Raise e => Raise e
          | Ok start_file =>
              match floordiv end_frame frames_per_file with
              | Raise e => Raise e
              | Ok end_file =>
                  imread (Py.slice (flist w) start_file end_file)
              end
          end
      end in
  match a with
  | Raise e => Raise e
  | Ok a =>
      let a := if bool_decide (end_frame - start_frame = 1) then Stack [a]
               else a in
      (* np.copy leaves the value as it is *)
      match dt with
      | None => Ok a
      | Some d => Ok (astype d a)
      end
  end.

(** The frames of the tile in logical order: the pages of the single
    container, or the pages of the files of [flist] one after the other. *)
Definition logical_frames (w : t) : list Frame :=
  if glob_mode w then
    concat (map (fun f => default [] (files fs !! f)) (flist w))
  else tfile w.

(** The frames [a, b) of a sequence, for [0 <= a <= b]. *)
Definition frame_range {A} (l : list A) (a b : Z) : list A :=
  take (Z.to_nat (b - a)) (drop (Z.to_nat a) l).

(** What the optional [dtype] argument does to a frame. *)
Definition converted (dt : option dtype) (f : Frame) : Frame :=
  match dt with
  | None => f
  | Some d => astype_frame d f
  end.

(** The files of a multi-file tile all hold as many pages as the first
    one (the assumption behind [nfrms]). *)
Definition equal_page_counts (w : t) : Prop :=
  Forall (fun f => exists pages,
              files fs !! f = Some pages /\ length pages = length (tfile w))
         (flist w).

End Volume.

End TiffWrapper.

(** ** fuse_runner.py *)

Module FuseRunner.

Section ToDtype.

Variable float_cast : Numpy.dtype -> Q -> Q.

(** [to_dtype(x, dtype)]: [np.rint(x, x)] rounds [x] in place, so the call
    returns the buffer as it is left behind together with the converted
    array. *)
Definition to_dtype (x : list Q) (dtype : Numpy.dtype)
  : list Q * list Numpy.cell :=
  let x := if Numpy.is_integer dtype then Numpy.rint <$> x else x in
  (x, Numpy.astype float_cast dtype <$> x).

End ToDtype.

(** *** Collaborators that are not part of this file

    [FileMatrix] supplies the tile table, the full extents and the overlap
    lookup; [InputFile] supplies shape, element type and channel count of a
    tile on disk.  They enter as data. *)

Record Row : Type := {
  name : string;   (* the index label of the row *)
  Xs : Z;
  Ys : Z;
  Zs : Z;
  nfrms : Z
}.

Record Overlap : Type := {
  other : string;
  Z_from : Z;
  Z_to : Z;
  rest : list Z    (* the remaining columns, which run() does not touch *)
}.

Record FileMatrix : Type := {
  data_frame : list Row;
  full_thickness : Z;
  full_height : Z;
  full_width : Z;
  overlaps : string -> list Overlap
}.

Record InputFile : Type := {
  shape : list Z;
  dtype : Numpy.dtype;
  nchannels : Z
}.

(** The machine the runner executes on. *)
Record Host : Type := {
  ram : Z;                          (* psutil.virtual_memory().total *)
  frames_in_ram : Z -> Z -> Z;      (* int(ram / xy_size / 1.5), in binary64 *)
  input_files : gmap string InputFile
}.

Record Runner : Type := {
  fm : FileMatrix;
  path : string;
  zmin : Z;
  zmax : option Z;
  debug : bool;
  output_filename : string
}.

Definition set_data_frame (df : list Row) (s : Runner) : Runner :=
  {| fm := {| data_frame := df;
              full_thickness := full_thickness (fm s);
              full_height := full_height (fm s);
              full_width := full_width (fm s);
              overlaps := overlaps (fm s) |};
     path := path s; zmin := zmin s; zmax := zmax s; debug := debug s;
     output_filename := output_filename s |}.

Definition set_zmin (z : Z) (s : Runner) : Runner :=
  {| fm := fm s; path := path s; zmin := z; zmax := zmax s;
     debug := debug s; output_filename := output_filename s |}.

Definition set_zmax (z : option Z) (s : Runner) : Runner :=
  {| fm := fm s; path := path s; zmin := zmin s; zmax := z;
     debug := debug s; output_filename := output_filename s |}.

(** What reaches the queue: the slice (named by the read that produced
    it), its position in the chunk buffer and the clipped overlaps. *)
Record Placement : Type := {
  pl_index : string;
  pl_from : Z;
  pl_to : Z;
  top_left : list Z;
  pl_overlaps : list Overlap
}.

(** The effects of [run], in program order. *)
Inductive event : Type :=
| Remove (fname : string)                (* os.remove; a missing file is fine *)
| Assign_zmax (z : Z)                    (* self.zmax = ... *)
| Zeros (shape : list Z)                 (* np.zeros(self.output_shape) *)
| ThreadStart                            (* t.start(); the arguments handed to
                                            fuse_queue (queue, buffer, debug
                                            flag) are not recorded *)
| ReadSlice (file : string) (z_from z_to : Z)
| OverlayDebug (index : string) (z_from : Z)
| Put (item : option Placement)          (* None is the closing item *)
| ThreadJoin
| Imsave (fname : string) (shape : list Z) (dt : Numpy.dtype) (bigtiff : bool)
| Assign_zmin (z : Z).                   (* self.zmin += thickness *)

(** *** The monad: runner state, trace of effects, exceptions *)

Definition M (A : Type) : Type :=
  Runner -> result A * Runner * list event.

Definition ret {A} (a : A) : M A := fun s => (Ok a, s, []).

Definition bind {A B} (m : M A) (f : A -> M B) : M B := fun s =>
  match m s with
  | (Ok a, s1, t1) => let '(r, s2, t2) := f a s1 in (r, s2, t1 ++ t2)
  | (Raise e, s1, t1) => (Raise e, s1, t1)
  end.

Definition get : M Runner := fun s => (Ok s, s, []).
Definition modify (f : Runner -> Runner) : M unit := fun s => (Ok tt, f s, []).
Definition emit (e : event) : M unit := fun s => (Ok tt, s, [e]).
Definition lift {A} (r : result A) : M A := fun s => (r, s, []).

Notation "'let*' x ':=' c 'in' k" := (bind c (fun x => k))
  (at level 10, x name, c at level 100, k at level 200, only parsing).
Notation "c >> k" := (bind c (fun _ => k))
  (at level 100, k at level 200, right associativity, only parsing).

Fixpoint for_each {A} (body : A -> M unit) (l : list A) : M unit :=
  match l with
  | [] => ret tt
  | x :: l' => body x >> for_each body l'
  end.

Section Run.

Variable host : Host.

(** [with InputFile(p) as f] *)
Definition open_input (p : string) : result InputFile :=
  match input_files host !! p with
  | Some f => Ok f
  | None => Raise FileNotFoundError
  end.

(** [self.fm.data_frame.iloc[0].name] *)
Definition first_name (s : Runner) : result string :=
  match data_frame (fm s) with
  | r :: _ => Ok (name r)
  | [] => Raise IndexError
  end.

Definition first_input (s : Runner) : result InputFile :=
  match first_name s with
  | Ok n => open_input n
  | Raise e => Raise e
  end.

Definition runner_dtype (s : Runner) : result Numpy.dtype :=
  match first_input s with Ok f => Ok (dtype f) | Raise e => Raise e end.

Definition is_multichannel (s : Runner) : result bool :=
  match first_input s with
  | Ok f => Ok (bool_decide (nchannels f > 1))
  | Raise e => Raise e
  end.

Definition output_shape (s : Runner) : result (list Z) :=
  let thickness := full_thickness (fm s) in
  let thickness :=
    match zmax s with
    | Some zm => thickness - (thickness - zm)
    | None => thickness
    end in
  let thickness := thickness - zmin s in
  match first_input s with
  | Raise e => Raise e
  | Ok f =>
      match setitem (shape f) 0 thickness with
      | Raise e => Raise e
      | Ok sh0 =>
          match setitem sh0 (-2) (full_height (fm s)) with
          | Raise e => Raise e
          | Ok sh1 => setitem sh1 (-1) (full_width (fm s))
          end
      end
  end.

(** Lines 87-89: [df[key] -= df[key].min()] for the three origin columns.
    [df] is the table object of the file matrix itself, so the table is
    updated in place. *)
Inductive key : Set := KXs | KYs | KZs.

Definition column (k : key) (r : Row) : Z :=
  match k with KXs => Xs r | KYs => Ys r | KZs => Zs r end.

Definition set_column (k : key) (v : Z) (r : Row) : Row :=
  match k with
  | KXs => {| name := name r; Xs := v; Ys := Ys r; Zs := Zs r;
              nfrms := nfrms r |}
  | KYs => {| name := name r; Xs := Xs r; Ys := v; Zs := Zs r;
              nfrms := nfrms r |}
  | KZs => {| name := name r; Xs := Xs r; Ys := Ys r; Zs := v;
              nfrms := nfrms r |}
  end.

Definition col_min (l : list Z) : option Z :=
  match l with
  | [] => None
  | x :: l' => Some (foldl Z.min x l')
  end.

Definition sub_min (k : key) (df : list Row) : list Row :=
  match col_min (column k <$> df) with
  | Some m => (fun r => set_column k (column k r - m) r) <$> df
  | None => df
  end.

Definition normalize : M unit :=
  for_each
    (fun k =>
       modify (fun s => set_data_frame (sub_min k (data_frame (fm s))) s))
    [KXs; KYs; KZs].

(** Lines 91-93.  [0.95 * 2**32] is the binary64 number
    8556839292003942 * 2^-21; Python compares an integer with a float by
    value. *)
Definition total_byte_size (s : Runner) : result Z :=
  match output_shape s with
  | Raise e => Raise e
  | Ok sh =>
      match runner_dtype s with
      | Raise e => Raise e
      | Ok dt => Ok (Numpy.wrap64 (Numpy.prod sh * Numpy.itemsize dt))
      end
  end.

Definition bigtiff_threshold : Q := 8556839292003942 # 2097152.

Definition gt_threshold (x : Q) : bool :=
  match (x ?= bigtiff_threshold)%Q with Gt => true | _ => false end.

Definition bigtiff_of (total : Z) : bool := gt_threshold (inject_Z total).

(** Lines 95-99. *)
Definition xy_size (s : Runner) : result Z :=
  match output_shape s with
  | Raise e => Raise e
  | Ok sh => Ok (Numpy.wrap64 (Numpy.prod (drop 1 sh) * 4))
  end.

Definition n_frames_in_ram (s : Runner) : result Z :=
  match xy_size s with
  | Raise e => Raise e
  | Ok xy =>
      if bool_decide (xy = 0) then Raise ZeroDivisionError
      else Ok (frames_in_ram host (ram host) xy)
  end.

(** Lines 101-106. *)
Definition partial_thickness (depth n : Z) : result (list Z) :=
  match floordiv depth n with
  | Raise e => Raise e
  | Ok n_loops =>
      let pt := (fun _ => n) <$> range 0 n_loops in
      match modulo depth n with
      | Raise e => Raise e
      | Ok remainder =>
          Ok (if bool_decide (remainder <> 0) then pt ++ [remainder] else pt)
      end
  end.

(** Lines 150-158. *)
Definition set_Z_from (v : Z) (o : Overlap) : Overlap :=
  {| other := other o; Z_from := v; Z_to := Z_to o; rest := rest o |}.

Definition set_Z_to (v : Z) (o : Overlap) : Overlap :=
  {| other := other o; Z_from := Z_from o; Z_to := v; rest := rest o |}.

Definition clip_overlaps (ovs : list Overlap) (z_from z_to : Z)
  : list Overlap :=
  let ovs := filter (fun o => Z_from o <= z_to /\ Z_to o >= z_from) ovs in
  let ovs := (fun o => set_Z_from (Z_from o - z_from) o) <$> ovs in
  let ovs := (fun o => set_Z_to (Z_to o - z_from) o) <$> ovs in
  (fun o => if bool_decide (Z_from o < 0) then set_Z_from 0 o else o) <$> ovs.

(** The bounds of an overlap after clipping to a slice that starts at
    [z_from]. *)
Definition shift_clamp (z_from : Z) (o : Overlap) : Overlap :=
  {| other := other o; Z_from := Z.max (Z_from o - z_from) 0;
     Z_to := Z_to o - z_from; rest := rest o |}.

(** The Z-range of [o], its end included, meets the half-open range
    [z_from, z_to). *)
Definition meets (o : Overlap) (z_from z_to : Z) : Prop :=
  exists z, Z_from o <= z <= Z_to o /\ z_from <= z < z_to.

(** Lines 122-160: the body of the loop over the rows of the table. *)
Definition tile_step (row : Row) : M unit :=
  let* s := get in
  let z_to :=
    match zmax s with
    | None => nfrms row
    | Some zm => zm - Zs row
    end in
  let z_to := if bool_decide (z_to > nfrms row) then nfrms row else z_to in
  if bool_decide (z_to <= 0) then ret tt else
  let z_from := zmin s - Zs row in
  let z_from := if bool_decide (z_from < 0) then 0 else z_from in
  if bool_decide (z_from >= z_to) then ret tt else
  let file := os_path_join (path s) (name row) in
  let* _ := lift (open_input file) in
  emit (ReadSlice file z_from z_to) >>
  (if debug s then emit (OverlayDebug (name row) z_from) else ret tt) >>
  let tl := [Zs row + z_from - zmin s; Ys row; Xs row] in
  let ovs := clip_overlaps (overlaps (fm s) (name row)) z_from z_to in
  emit (Put (Some (Build_Placement (name row) z_from z_to tl ovs))).

(** [np.zeros] refuses a negative dimension. *)
Definition np_zeros (sh : list Z) : M unit :=
  if forallb (fun d => bool_decide (0 <= d)) sh then emit (Zeros sh)
  else lift (Raise ValueError).

(** Lines 113-174: the body of the loop over the chunk thicknesses.  The
    values in the buffer are the business of the consumer thread; of
    [to_dtype] and [imsave] the trace keeps the shape, the element type and
    the large-file flag. *)
Definition chunk (bigtiff : bool) (thickness : Z) : M unit :=
  let* s := get in
  modify (set_zmax (Some (zmin s + thickness))) >>
  emit (Assign_zmax (zmin s + thickness)) >>
  let* s := get in
  let* sh := lift (output_shape s) in
  np_zeros sh >>
  emit ThreadStart >>
  for_each tile_step (data_frame (fm s)) >>
  emit (Put None) >>
  emit ThreadJoin >>
  let* mc := lift (is_multichannel s) in
  let* sh' := lift (if mc : bool then Numpy.moveaxis_m3_last sh
                    else Ok sh) in
  let* dt := lift (runner_dtype s) in
  emit (Imsave (output_filename s) sh' dt bigtiff) >>
  let* s := get in
  modify (set_zmin (zmin s + thickness)) >>
  emit (Assign_zmin (zmin s + thickness)).

(** Lines 86-174. *)
Definition run : M unit :=
  normalize >>
  let* s := get in
  let* total := lift (total_byte_size s) in
  let bigtiff := bigtiff_of total in
  let* n_frames := lift (n_frames_in_ram s) in
  let* sh := lift (output_shape s) in
  let* depth := lift (getitem sh 0) in
  let* pt := lift (partial_thickness depth n_frames) in
  emit (Remove (output_filename s)) >>
  for_each (chunk bigtiff) pt.

End Run.

(** Every origin moved by the same offsets. *)
Definition shift_rows (mx my mz : Z) (df : list Row) : list Row :=
  (fun r => {| name := name r; Xs := Xs r - mx; Ys := Ys r - my;
               Zs := Zs r - mz; nfrms := nfrms r |}) <$> df.

(** The state [normalize] leaves behind. *)
Definition normalized (s : Runner) : Runner :=
  set_data_frame
    (sub_min KZs (sub_min KYs (sub_min KXs (data_frame (fm s))))) s.

(** A configuration on which nothing fails: the first tile opens and has
    at least three axes, no extent is negative, and every tile of the table
    can be opened. *)
Definition well_formed (host : Host) (s : Runner) : Prop :=
  exists f,
    first_input host s = Ok f /\
    (3 <= length (shape f))%nat /\
    Forall (fun d => 0 <= d) (shape f) /\
    0 <= full_height (fm s) /\
    0 <= full_width (fm s) /\
    Forall (fun row =>
              is_Some (input_files host !! os_path_join (path s) (name row)))
           (data_frame (fm s)).

(** *** Reading a trace *)

(** The running totals [z + x1], [z + x1 + x2], ... *)
Fixpoint partial_sums (z : Z) (l : list Z) : list Z :=
  match l with
  | [] => []
  | x :: l' => (z + x) :: partial_sums (z + x) l'
  end.

Definition sum_list (l : list Z) : Z := foldr Z.add 0 l.

(** What the body of the loop over the rows may emit. *)
Definition tile_event (e : event) : Prop :=
  match e with
  | ReadSlice _ _ _ | OverlayDebug _ _ | Put (Some _) => True
  | _ => False
  end.

Definition zmin_writes (t : list event) : list Z :=
  omap (fun e => match e with Assign_zmin z => Some z | _ => None end) t.

Definition zmax_writes (t : list event) : list Z :=
  omap (fun e => match e with Assign_zmax z => Some z | _ => None end) t.

Definition placements (t : list event) : list Placement :=
  omap (fun e => match e with Put (Some p) => Some p | _ => None end) t.

Definition appends (t : list event) : list (list Z) :=
  omap (fun e => match e with Imsave _ sh _ _ => Some sh | _ => None end) t.

(** The output file after the trace, as the list of the shapes appended to
    it; [None] when the file does not exist. *)
Definition file_after (t : list event) (file : option (list (list Z)))
  : option (list (list Z)) :=
  foldl (fun f e =>
           match e with
           | Remove _ => None
           | Imsave _ sh _ _ => Some (default [] f ++ [sh])
           | _ => f
           end) file t.

(** *** Windows and coverage *)

(** The runner looking at the window [a, b). *)
Definition at_window (a b : Z) (s : Runner) : Runner :=
  set_zmax (Some b) (set_zmin a s).

(** The consecutive windows [(z, z + x1)], [(z + x1, z + x1 + x2)], ... *)
Fixpoint windows (z : Z) (l : list Z) : list (Z * Z) :=
  match l with
  | [] => []
  | x :: l' => (z, z + x) :: windows (z + x) l'
  end.

(** Frame [k] of the tile is part of the slice of the placement. *)
Definition covers (p : Placement) (k : Z) : Prop :=
  pl_from p <= k < pl_to p.

(** The product of a list of integers, without wrap-around. *)
Definition product (l : list Z) : Z := foldr Z.mul 1 l.

(** *** The debug overlay *)

(** The calls of [overlay_debug] in a trace, as (index, z_from). *)
Definition overlays (t : list event) : list (string * Z) :=
  omap (fun e => match e with
                 | OverlayDebug i z => Some (i, z)
                 | _ => None
                 end) t.

End FuseRunner.

(** ** Concrete configurations used to exercise the model *)

Module Examples.

Import FuseRunner.

Definition tile (n : string) (x y z f : Z) : Row :=
  {| name := n; Xs := x; Ys := y; Zs := z; nfrms := f |}.

Definition stack_file : InputFile :=
  {| shape := [10; 64; 64]; dtype := Numpy.uint16; nchannels := 1 |}.

(** A machine on which the memory budget evaluates to four planes. *)
Definition host4 : Host :=
  {| ram := 98304;
     frames_in_ram := fun _ _ => 4;
     input_files := {[ "a.tif"%string := stack_file ]} |}.

(** A machine whose memory holds no plane at all. *)
Definition host0 : Host :=
  {| ram := 1024;
     frames_in_ram := fun _ _ => 0;
     input_files := {[ "a.tif"%string := stack_file ]} |}.

Definition no_overlaps : string -> list Overlap := fun _ => [].

Definition matrix (rows : list Row) (thickness : Z) : FileMatrix :=
  {| data_frame := rows; full_thickness := thickness;
     full_height := 64; full_width := 64; overlaps := no_overlaps |}.

Definition runner (rows : list Row) (thickness lo : Z) (hi : option Z)
  : Runner :=
  {| fm := matrix rows thickness; path := ""; zmin := lo; zmax := hi;
     debug := false; output_filename := "fused.tif" |}.

(** One ten-plane tile, the whole depth requested. *)
Definition ten_planes : Runner := runner [tile "a.tif" 0 0 0 10] 10 0 None.

(** The same tile with an upper bound beyond the data. *)
Definition beyond : Runner := runner [tile "a.tif" 0 0 0 10] 10 0 (Some 15).

(** The same tile placed away from the origin. *)
Definition shifted : Runner := runner [tile "a.tif" 7 5 3 10] 10 0 None.

(** A four-plane window on a tile whose neighbour starts exactly where the
    window ends. *)
Definition touching : Runner :=
  {| fm := {| data_frame := [tile "a.tif" 0 0 0 10]; full_thickness := 10;
              full_height := 64; full_width := 64;
              overlaps := fun _ => [ {| other := "b.tif"; Z_from := 4;
                                        Z_to := 8; rest := [] |} ] |};
     path := ""; zmin := 0; zmax := Some 4; debug := false;
     output_filename := "fused.tif" |}.

(** A window that starts two planes after the end of the data. *)
Definition past_the_end : Runner := runner [tile "a.tif" 0 0 0 10] 10 12 None.

(** A machine of 98304 bytes on which [int(ram / xy_size / 1.5)] is the
    quotient of [2 * ram] by [3 * xy_size] cut towards zero. *)
Definition host_signed : Host :=
  {| ram := 98304;
     frames_in_ram := fun r xy => Z.quot (2 * r) (3 * xy);
     input_files := {[ "a.tif"%string := stack_file ]} |}.

(** An output plane of 1024 by 2^52 - 1 elements: its size in bytes,
    2^64 - 4096, is -4096 in 64 bits. *)
Definition wrapped_plane : Runner :=
  {| fm := {| data_frame := [tile "a.tif" 0 0 0 10]; full_thickness := 10;
              full_height := 1024; full_width := 4503599627370495;
              overlaps := no_overlaps |};
     path := ""; zmin := 0; zmax := None; debug := false;
     output_filename := "fused.tif" |}.

(** A window that starts where the data ends. *)
Definition exhausted : Runner := runner [tile "a.tif" 0 0 0 10] 10 10 None.

(** A tile stored as two files of two pages each; the pages are numbered
    in logical order. *)
Definition two_by_two : TiffWrapper.FileSystem nat :=
  {| TiffWrapper.isdir := fun p => bool_decide (p = "tile"%string);
     TiffWrapper.glob := fun pat =>
       if bool_decide (pat = "tile/*.tif*"%string)
       then ["tile/b.tif"%string; "tile/a.tif"%string] else [];
     TiffWrapper.files :=
       {[ "tile/a.tif"%string := [0%nat; 1%nat];
          "tile/b.tif"%string := [2%nat; 3%nat] ]} |}.

(** A tile of two files that do not hold equally many pages. *)
Definition two_and_one : TiffWrapper.FileSystem nat :=
  {| TiffWrapper.isdir := fun p => bool_decide (p = "tile"%string);
     TiffWrapper.glob := fun pat =>
       if bool_decide (pat = "tile/*.tif*"%string)
       then ["tile/a.tif"%string; "tile/b.tif"%string] else [];
     TiffWrapper.files :=
       {[ "tile/a.tif"%string := [0%nat; 1%nat];
          "tile/b.tif"%string := [2%nat] ]} |}.

Definition two_and_one_volume : TiffWrapper.t nat :=
  {| TiffWrapper.file_name := "tile"; TiffWrapper.tfile := [0%nat; 1%nat];
     TiffWrapper.flist := ["tile/a.tif"%string; "tile/b.tif"%string];
     TiffWrapper.glob_mode := true |}.

(** The same tile stored as four files of one page each. *)
Definition four_by_one : TiffWrapper.FileSystem nat :=
  {| TiffWrapper.isdir := fun p => bool_decide (p = "tile"%string);
     TiffWrapper.glob := fun pat =>
       if bool_decide (pat = "tile/*.tif*"%string)
       then ["tile/3.tif"%string; "tile/1.tif"%string;
             "tile/0.tif"%string; "tile/2.tif"%string] else [];
     TiffWrapper.files :=
       {[ "tile/0.tif"%string := [0%nat]; "tile/1.tif"%string := [1%nat];
          "tile/2.tif"%string := [2%nat]; "tile/3.tif"%string := [3%nat] ]} |}.

Definition two_by_two_volume : TiffWrapper.t nat :=
  {| TiffWrapper.file_name := "tile"; TiffWrapper.tfile := [0%nat; 1%nat];
     TiffWrapper.flist := ["tile/a.tif"%string; "tile/b.tif"%string];
     TiffWrapper.glob_mode := true |}.

Definition four_by_one_volume : TiffWrapper.t nat :=
  {| TiffWrapper.file_name := "tile"; TiffWrapper.tfile := [0%nat];
     TiffWrapper.flist := ["tile/0.tif"%string; "tile/1.tif"%string;
                           "tile/2.tif"%string; "tile/3.tif"%string];
     TiffWrapper.glob_mode := true |}.

(** No conversion of the element type. *)
Definition keep : unit -> nat -> nat := fun _ x => x.

(** A single container of four pages. *)
Definition one_stack : TiffWrapper.FileSystem nat :=
  {| TiffWrapper.isdir := fun _ => false;
     TiffWrapper.glob := fun _ => [];
     TiffWrapper.files :=
       {[ "tile.tif"%string := [0%nat; 1%nat; 2%nat; 3%nat] ]} |}.

Definition one_stack_volume : TiffWrapper.t nat :=
  {| TiffWrapper.file_name := "tile.tif";
     TiffWrapper.tfile := [0%nat; 1%nat; 2%nat; 3%nat];
     TiffWrapper.flist := []; TiffWrapper.glob_mode := false |}.

End Examples.


(** * Properties *)

Module FuseRunnerFacts.

Import FuseRunner.

(** ** [output_shape] *)

Lemma setitem_first {A} (l : list A) (x v : A) :
  setitem (x :: l) 0 v = Ok (v :: l).
Proof.
  unfold setitem, norm_index. cbn [length].
  case_bool_decide; [reflexivity | lia].
Qed.

Lemma setitem_from_end {A} (l : list A) (k : nat) (v : A) :
  (0 < k <= length l)%nat ->
  setitem l (- Z.of_nat k) v = Ok (<[(length l - k)%nat := v]> l).
Proof.
  intros Hk. unfold setitem, norm_index.
  repeat case_bool_decide; try lia.
  do 2 f_equal. lia.
Qed.

Lemma lookup_cons_S {A} (x : A) (l : list A) (n : nat) :
  (x :: l) !! S n = l !! n.
Proof. reflexivity. Qed.

Lemma split_last_two {A} (l : list A) :
  (2 <= length l)%nat ->
  exists mid a b, l = mid ++ [a; b] /\ take (length l - 2) l = mid.
Proof.
  intros Hlen.
  assert (Hd : length (drop (length l - 2) l) = 2%nat)
    by (rewrite length_drop; lia).
  pose proof (take_drop (length l - 2) l) as Hsplit.
  destruct (drop (length l - 2) l) as [|a [|b [|c r]]]; try discriminate.
  exists (take (length l - 2) l), a, b. split; [symmetry; exact Hsplit | reflexivity].
Qed.

Lemma output_shape_eval host s f :
  first_input host s = Ok f ->
  (3 <= length (shape f))%nat ->
  let thickness :=
    match zmax s with
    | Some zm => zm - zmin s
    | None => full_thickness (fm s) - zmin s
    end in
  output_shape host s =
    Ok (thickness :: take (length (shape f) - 3) (drop 1 (shape f))
          ++ [full_height (fm s); full_width (fm s)]).
Proof.
  intros Hf Hlen. unfold output_shape. rewrite Hf. clear Hf.
  revert Hlen. generalize (shape f). intros l Hlen.
  destruct l as [|d0 sh]; [simpl in Hlen; lia|].
  rewrite setitem_first.
  simpl in Hlen.
  destruct (split_last_two sh) as (mid & a & b & Hsh & Hmid); [lia|].
  cbn [length drop]. rewrite drop_0.
  replace (S (length sh) - 3)%nat with (length sh - 2)%nat by lia.
  rewrite Hmid. clear Hmid. subst sh.
  set (T := _ - zmin s).
  change (-2) with (- Z.of_nat 2).
  rewrite setitem_from_end by (cbn [length]; rewrite length_app; simpl; lia).
  change (-1) with (- Z.of_nat 1).
  rewrite setitem_from_end
    by (rewrite length_insert; cbn [length]; rewrite length_app; simpl; lia).
  rewrite length_insert.
  change (T :: mid ++ [a; b]) with ((T :: mid) ++ [a; b]).
  rewrite length_app. cbn [length].
  replace (S (length mid) + 2 - 2)%nat with (length (T :: mid) + 0)%nat
    by (cbn [length]; lia).
  replace (S (length mid) + 2 - 1)%nat with (length (T :: mid) + 1)%nat
    by (cbn [length]; lia).
  rewrite !insert_app_r. cbn.
  do 2 f_equal. subst T. destruct (zmax s); lia.
Qed.


(** C4 (as amended).  With [zmax] set and a first tile of at least three
    axes, [output_shape] returns a shape of the first tile's rank whose
    depth is [zmax - zmin] (it is not clamped to the full thickness), whose
    last two entries are the full height and the full width of the table,
    and whose other entries are those of the first tile; the depth agrees
    with [min(full_thickness, zmax) - zmin] as long as [zmax] does not
    exceed the full thickness. *)
Theorem output_shape_with_zmax host s zm f :
  zmax s = Some zm ->
  first_input host s = Ok f ->
  (3 <= length (shape f))%nat ->
  exists sh,
    output_shape host s = Ok sh /\
    length sh = length (shape f) /\
    sh !! 0%nat = Some (zm - zmin s) /\
    sh !! (length sh - 2)%nat = Some (full_height (fm s)) /\
    sh !! (length sh - 1)%nat = Some (full_width (fm s)) /\
    (forall i, (0 < i < length sh - 2)%nat -> sh !! i = shape f !! i) /\
    (zm <= full_thickness (fm s) ->
     sh !! 0%nat = Some (Z.min (full_thickness (fm s)) zm - zmin s)).
Proof.
  intros Hz Hf Hlen.
  pose proof (output_shape_eval host s f Hf Hlen) as Hev.
  rewrite Hz in Hev. cbn zeta in Hev.
  eexists. split; [exact Hev|].
  destruct (shape f) as [|d0 sh] eqn:Hsh; [simpl in Hlen; lia|].
  simpl in Hlen.
  destruct (split_last_two sh) as (mid & a & b & Hmid & Htake); [lia|].
  cbn [length drop]. rewrite drop_0.
  replace (S (length sh) - 3)%nat with (length sh - 2)%nat by lia.
  rewrite Htake. clear Htake. subst sh.
  cbn [length]. rewrite !length_app. cbn [length].
  repeat apply conj.
  - lia.
  - reflexivity.
  - replace (S (length mid + 2) - 2)%nat with (S (length mid + 0)) by lia.
    rewrite lookup_cons_S, lookup_app_r by lia.
    replace (length mid + 0 - length mid)%nat with 0%nat by lia. reflexivity.
  - replace (S (length mid + 2) - 1)%nat with (S (length mid + 1)) by lia.
    rewrite lookup_cons_S, lookup_app_r by lia.
    replace (length mid + 1 - length mid)%nat with 1%nat by lia. reflexivity.
  - intros i Hi. destruct i as [|i]; [lia|].
    rewrite !lookup_cons_S, !lookup_app_l by lia. reflexivity.
  - intros Hle. cbn. f_equal. lia.
Qed.

Lemma output_shape_with_zmax_witness :
  exists sh,
    output_shape Examples.host4 Examples.beyond = Ok sh /\
    sh !! 0%nat = Some (15 - 0).
Proof.
  destruct (output_shape_with_zmax Examples.host4 Examples.beyond 15
              Examples.stack_file)
    as (sh & Hsh & _ & Hd & _).
  - reflexivity.
  - reflexivity.
  - simpl. lia.
  - exists sh. split; [exact Hsh | exact Hd].
Defined.

(** C4, as stated, fails: with ten planes of data and [zmax = 15] the depth
    is 15, not [min(10, 15) - 0 = 10]. *)
Lemma output_shape_depth_not_clamped :
  output_shape Examples.host4 Examples.beyond = Ok [15; 64; 64] /\
  Z.min (full_thickness (fm Examples.beyond)) 15 - zmin Examples.beyond = 10.
Proof. split; reflexivity. Qed.

(** ** [to_dtype] *)

Lemma round_half_even_integer (x : Q) (k : Z) :
  (x == inject_Z k)%Q -> Numpy.round_half_even x = k.
Proof.
  intros Hx. unfold Numpy.round_half_even.
  assert (Hf : Qfloor x = k) by (rewrite Hx; apply Qfloor_Z).
  rewrite Hf.
  assert (Hlt : (x - inject_Z k < 1 # 2)%Q).
  { assert (H0 : (x - inject_Z k == 0)%Q) by (rewrite Hx; ring).
    rewrite H0. reflexivity. }
  pose proof (proj1 (Qlt_alt _ _) Hlt) as Hc. rewrite Hc. reflexivity.
Qed.

Lemma Qtrunc_inject_Z (k : Z) : Numpy.Qtrunc (inject_Z k) = k.
Proof. unfold Numpy.Qtrunc. simpl. apply Z.quot_1_r. Qed.

Lemma astype_rint_integer float_cast d (x : Q) (k : Z) :
  Numpy.is_integer d = true ->
  (x == inject_Z k)%Q ->
  Numpy.int_min d <= k <= Numpy.int_max d ->
  Numpy.astype float_cast d (Numpy.rint x) = Numpy.IntCell k.
Proof.
  intros Hd Hx Hk. unfold Numpy.astype, Numpy.rint.
  rewrite Hd, (round_half_even_integer x k Hx), Qtrunc_inject_Z.
  rewrite bool_decide_true by exact Hk. reflexivity.
Qed.

(** C9.  When every value of the accumulation buffer is an integer that the
    integer output type can hold, [to_dtype] returns exactly those integers
    (so reading them back gives the buffer values again); for a floating
    output type the buffer is not rounded, only cast. *)
Theorem to_dtype_exact_integers float_cast d (xs : list Q) :
  (Numpy.is_integer d = true ->
   forall ks : list Z,
     Forall2 (fun x k => (x == inject_Z k)%Q /\
                         Numpy.int_min d <= k <= Numpy.int_max d) xs ks ->
     (to_dtype float_cast xs d).2 = Numpy.IntCell <$> ks /\
     Forall2 Qeq (inject_Z <$> ks) xs) /\
  (Numpy.is_integer d = false ->
   to_dtype float_cast xs d =
     (xs, (fun x => Numpy.FloatCell (float_cast d x)) <$> xs)).
Proof.
  split.
  - intros Hd ks Hall. unfold to_dtype. rewrite Hd. cbn [snd].
    induction Hall as [|x k xs ks [Hx Hk] Hall IH]; [split; constructor|].
    destruct IH as [IH1 IH2]. cbn [fmap list_fmap] in *. split.
    + f_equal; [|exact IH1].
      apply astype_rint_integer; assumption.
    + constructor; [symmetry; exact Hx | exact IH2].
  - intros Hd. unfold to_dtype. rewrite Hd. f_equal.
    apply list_fmap_ext. intros _ x _. unfold Numpy.astype. rewrite Hd.
    reflexivity.
Qed.

Lemma to_dtype_exact_integers_witness :
  (to_dtype (fun _ x => x) [inject_Z 3; 131070 # 2] Numpy.uint16).2
  = [Numpy.IntCell 3; Numpy.IntCell 65535] /\
  to_dtype (fun _ x => x) [1 # 2] Numpy.float32
  = ([1 # 2], [Numpy.FloatCell (1 # 2)]).
Proof.
  split.
  - refine (proj1 (proj1 (to_dtype_exact_integers (fun _ x => x) Numpy.uint16
                            [inject_Z 3; 131070 # 2]) _ [3; 65535] _)).
    + reflexivity.
    + repeat constructor; vm_compute; congruence.
  - refine (proj2 (to_dtype_exact_integers (fun _ x => x) Numpy.float32
                     [1 # 2]) _).
    reflexivity.
Defined.


(** ** Evaluating the monadic code *)

Lemma normalize_eval s : normalize s = (Ok tt, normalized s, []).
Proof. reflexivity. Qed.

Lemma tile_step_eval host row s :
  let z_to :=
    Z.min (match zmax s with None => nfrms row | Some zm => zm - Zs row end)
          (nfrms row) in
  let z_from := Z.max (zmin s - Zs row) 0 in
  let file := os_path_join (path s) (name row) in
  tile_step host row s =
    if bool_decide (z_to <= 0 \/ z_from >= z_to) then (Ok tt, s, [])
    else
      match input_files host !! file with
      | None => (Raise FileNotFoundError, s, [])
      | Some _ =>
          (Ok tt, s,
           ReadSlice file z_from z_to
           :: (if debug s then [OverlayDebug (name row) z_from] else [])
           ++ [Put (Some {| pl_index := name row; pl_from := z_from;
                            pl_to := z_to;
                            top_left := [Zs row + z_from - zmin s;
                                         Ys row; Xs row];
                            pl_overlaps :=
                              clip_overlaps (overlaps (fm s) (name row))
                                            z_from z_to |})])
      end.
Proof.
  intros z_to z_from file. unfold tile_step, bind, get.
  set (zt0 := match zmax s with None => nfrms row | Some zm => zm - Zs row end).
  assert (Hz : z_to = Z.min zt0 (nfrms row)) by reflexivity.
  clearbody z_to zt0.
  assert (Hzt : (if bool_decide (zt0 > nfrms row) then nfrms row else zt0)
                = z_to).
  { case_bool_decide; lia. }
  rewrite Hzt. clear Hzt.
  assert (Hzf : (if bool_decide (zmin s - Zs row < 0) then 0
                 else zmin s - Zs row) = z_from).
  { subst z_from. case_bool_decide; lia. }
  rewrite Hzf.
  destruct (bool_decide (z_to <= 0)) eqn:H1.
  { apply bool_decide_eq_true in H1.
    rewrite bool_decide_true by (left; exact H1). reflexivity. }
  apply bool_decide_eq_false in H1.
  destruct (bool_decide (z_from >= z_to)) eqn:H2.
  { apply bool_decide_eq_true in H2.
    rewrite bool_decide_true by (right; exact H2). reflexivity. }
  apply bool_decide_eq_false in H2.
  rewrite bool_decide_false by tauto.
  unfold lift, open_input. fold file.
  destruct (input_files host !! file); [|reflexivity].
  unfold emit, ret. destruct (debug s); reflexivity.
Qed.


(** ** The body of the loop over the tiles *)

(** C2.  Inside a chunk window [zmin, zmax) a tile whose file can be opened
    is skipped exactly when [z_to <= 0] or [z_from >= z_to], where
    [z_to = min(zmax - Zs, nfrms)] and [z_from = max(zmin - Zs, 0)];
    otherwise it puts one placement on the queue, read from the frames
    [z_from, z_to) of the tile and placed at
    [(Zs + z_from - zmin, Ys, Xs)]. *)
Theorem tile_step_placement host s row zm :
  zmax s = Some zm ->
  is_Some (input_files host !! os_path_join (path s) (name row)) ->
  let z_to := Z.min (zm - Zs row) (nfrms row) in
  let z_from := Z.max (zmin s - Zs row) 0 in
  exists t,
    tile_step host row s = (Ok tt, s, t) /\
    (placements t = [] <-> z_to <= 0 \/ z_from >= z_to) /\
    (~ (z_to <= 0 \/ z_from >= z_to) ->
     exists p,
       placements t = [p] /\
       pl_index p = name row /\
       pl_from p = z_from /\
       pl_to p = z_to /\
       top_left p = [Zs row + z_from - zmin s; Ys row; Xs row] /\
       ReadSlice (os_path_join (path s) (name row)) z_from z_to ∈ t).
Proof.
  intros Hz [f Hf] z_to z_from.
  pose proof (tile_step_eval host row s) as Hev.
  cbn zeta in Hev. rewrite Hz, Hf in Hev. fold z_to z_from in Hev.
  rewrite Hev. clear Hev.
  case_bool_decide as Hskip.
  - eexists. split; [reflexivity|]. split; [tauto|]. tauto.
  - eexists. split; [reflexivity|]. split.
    + split; [|tauto]. destruct (debug s); discriminate.
    + intros _. eexists. split; [destruct (debug s); reflexivity|].
      repeat apply conj; try reflexivity. apply list_elem_of_here.
Qed.

Lemma tile_step_placement_witness :
  exists t,
    tile_step Examples.host4 (Examples.tile "a.tif" 0 0 0 10)
              Examples.touching
    = (Ok tt, Examples.touching, t) /\
    exists p, placements t = [p] /\ pl_from p = 0 /\ pl_to p = 4.
Proof.
  destruct (tile_step_placement Examples.host4 Examples.touching
              (Examples.tile "a.tif" 0 0 0 10) 4)
    as (t & Hrun & _ & Hone).
  - reflexivity.
  - vm_compute. eauto.
  - exists t. split; [exact Hrun|].
    destruct Hone as (p & Hp & _ & Hfrom & Hto & _).
    + cbn. lia.
    + exists p. repeat split; assumption.
Defined.

(** ** Clipping the overlaps *)

Lemma clip_overlaps_eq ovs z_from z_to :
  clip_overlaps ovs z_from z_to =
    shift_clamp z_from
      <$> filter (fun o => Z_from o <= z_to /\ Z_to o >= z_from) ovs.
Proof.
  unfold clip_overlaps. rewrite <- !list_fmap_compose.
  apply list_fmap_ext. intros _ o _. unfold compose, shift_clamp.
  cbn. case_bool_decide; unfold set_Z_from, set_Z_to; cbn; f_equal; lia.
Qed.

(** C3 (as amended).  The overlaps forwarded with a placement are, in table
    order, those overlaps of the tile with [Z_from <= z_to] and
    [Z_to >= z_from] (a closed-interval test: an overlap that only touches
    the slice at either end is kept as well), each with [Z_from] and [Z_to]
    shifted by [-z_from] and a negative [Z_from] replaced by 0.  Every
    overlap that meets the half-open range [z_from, z_to) is among them, and
    an overlap lying inside the range is forwarded with both bounds shifted
    by [-z_from] and nothing else changed. *)
Theorem placement_overlaps host s row r s' t p :
  tile_step host row s = (r, s', t) ->
  p ∈ placements t ->
  let ovs := overlaps (fm s) (name row) in
  let kept := filter (fun o => Z_from o <= pl_to p /\ Z_to o >= pl_from p) ovs in
  pl_overlaps p = shift_clamp (pl_from p) <$> kept /\
  (forall o, o ∈ ovs -> meets o (pl_from p) (pl_to p) -> o ∈ kept) /\
  (forall o, o ∈ ovs ->
     pl_from p <= Z_from o -> Z_from o <= Z_to o -> Z_to o <= pl_to p ->
     o ∈ kept /\
     shift_clamp (pl_from p) o =
       {| other := other o; Z_from := Z_from o - pl_from p;
          Z_to := Z_to o - pl_from p; rest := rest o |}).
Proof.
  intros Hrun Hp ovs kept.
  assert (Hov : pl_overlaps p = shift_clamp (pl_from p) <$> kept).
  { rewrite tile_step_eval in Hrun. cbn zeta in Hrun.
    case_bool_decide; [injection Hrun as _ _ <-; inversion Hp|].
    destruct (input_files host !! _);
      [|injection Hrun as _ _ <-; inversion Hp].
    injection Hrun as _ _ <-.
    assert (Hp' : p ∈ [ {| pl_index := name row;
                           pl_from := Z.max (zmin s - Zs row) 0;
                           pl_to := Z.min (match zmax s with
                                           | Some zm => zm - Zs row
                                           | None => nfrms row
                                           end) (nfrms row);
                           top_left := [Zs row + Z.max (zmin s - Zs row) 0
                                        - zmin s; Ys row; Xs row];
                           pl_overlaps :=
                             clip_overlaps (overlaps (fm s) (name row))
                               (Z.max (zmin s - Zs row) 0)
                               (Z.min (match zmax s with
                                       | Some zm => zm - Zs row
                                       | None => nfrms row
                                       end) (nfrms row)) |} ])
      by (destruct (debug s); exact Hp).
    apply list_elem_of_singleton in Hp'. subst p. cbn.
    apply clip_overlaps_eq. }
  split; [exact Hov|]. split.
  - intros o Ho (z & Hz1 & Hz2). apply list_elem_of_filter.
    split; [lia | exact Ho].
  - intros o Ho H1 H2 H3. split.
    + apply list_elem_of_filter. split; [lia | exact Ho].
    + unfold shift_clamp. f_equal. lia.
Qed.

Lemma placement_overlaps_witness :
  let o := {| other := "b.tif"%string; Z_from := 4; Z_to := 8; rest := [] |} in
  let p := {| pl_index := "a.tif"; pl_from := 0; pl_to := 4;
              top_left := [0; 0; 0]; pl_overlaps := [o] |} in
  p ∈ placements (tile_step Examples.host4 (Examples.tile "a.tif" 0 0 0 10)
                    Examples.touching).2 /\
  pl_overlaps p =
    shift_clamp (pl_from p)
      <$> filter (fun o => Z_from o <= pl_to p /\ Z_to o >= pl_from p)
            (overlaps (fm Examples.touching) "a.tif").
Proof.
  intros o p.
  assert (Hp : p ∈ placements
                 (tile_step Examples.host4 (Examples.tile "a.tif" 0 0 0 10)
                    Examples.touching).2)
    by (change (p ∈ [p]); apply list_elem_of_here).
  split; [exact Hp|].
  refine (proj1 (placement_overlaps Examples.host4 Examples.touching
                   (Examples.tile "a.tif" 0 0 0 10) (Ok tt)
                   Examples.touching _ p _ Hp)).
  reflexivity.
Defined.

(** C3, as stated, fails: for the slice [0, 4) the overlap with Z-range
    from 4 to 8 is forwarded although it does not meet the half-open range
    [0, 4). *)
Lemma touching_overlap_is_forwarded :
  let o := {| other := "b.tif"%string; Z_from := 4; Z_to := 8; rest := [] |} in
  (pl_overlaps <$>
     placements (tile_step Examples.host4 (Examples.tile "a.tif" 0 0 0 10)
                   Examples.touching).2) = [[o]] /\
  ~ meets o 0 4.
Proof.
  split; [reflexivity|].
  intros (z & Hz1 & Hz2). cbn in Hz1. lia.
Qed.


(** ** The loop over the tiles *)

Lemma tiles_loop host rows s :
  exists r t,
    for_each (tile_step host) rows s = (r, s, t) /\ Forall tile_event t.
Proof.
  induction rows as [|row rows IH].
  - exists (Ok tt), []. split; [reflexivity | constructor].
  - destruct IH as (r & t & Hrest & Ht).
    cbn [for_each]. unfold bind.
    pose proof (tile_step_eval host row s) as Hev. cbn zeta in Hev.
    rewrite Hev. clear Hev.
    case_bool_decide.
    + rewrite Hrest. exists r, t. split; [reflexivity | exact Ht].
    + destruct (input_files host !! _).
      * rewrite Hrest. eexists r, _. split; [reflexivity|].
        constructor; [exact I|].
        apply Forall_app. split; [|exact Ht].
        apply Forall_app. split; [destruct (debug s)|]; repeat constructor.
      * eexists _, _. split; [reflexivity | constructor].
Qed.

Lemma tile_event_no_writes t :
  Forall tile_event t ->
  zmin_writes t = [] /\ zmax_writes t = [] /\ appends t = [] /\
  (forall f, Remove f ∉ t) /\
  (forall f sh dt b, Imsave f sh dt b ∉ t) /\
  (forall sh, Zeros sh ∉ t) /\ ThreadStart ∉ t.
Proof.
  induction 1 as [|e t He _ IH].
  - repeat apply conj; try reflexivity; intros; apply not_elem_of_nil.
  - destruct IH as (H1 & H2 & H3 & H4 & H5 & H6 & H7).
    destruct e as [| | | | | | [p|] | | |]; try contradiction.
    all: repeat apply conj; try assumption; intros;
      rewrite elem_of_cons; intros [Heq | Hin]; try discriminate Heq.
    all: first [ eapply H4; eassumption | eapply H5; eassumption
               | eapply H6; eassumption | eapply H7; eassumption ].
Qed.

(** ** One chunk *)

(** What [chunk] leaves behind, whatever its outcome. *)
Lemma chunk_post host bt th s r s' t :
  chunk host bt th s = (r, s', t) ->
  fm s' = fm s /\ path s' = path s /\ debug s' = debug s /\
  output_filename s' = output_filename s /\
  zmax s' = Some (zmin s + th) /\
  zmax_writes t = [zmin s + th] /\
  (forall f, Remove f ∉ t) /\
  (forall f sh dt b, Imsave f sh dt b ∈ t -> b = bt /\ f = output_filename s) /\
  match r with
  | Ok _ =>
      zmin s' = zmin s + th /\
      zmin_writes t = [zmin s + th] /\
      (exists sh, output_shape host (set_zmax (Some (zmin s + th)) s) = Ok sh /\
                  Zeros sh ∈ t /\ length (appends t) = 1%nat) /\
      placements t =
        placements (for_each (tile_step host) (data_frame (fm s))
                      (set_zmax (Some (zmin s + th)) s)).2
  | Raise _ =>
      zmin s' = zmin s /\ zmin_writes t = [] /\ appends t = []
  end.
Proof.
  unfold chunk, np_zeros, bind, get, modify, emit, lift.
  set (s1 := set_zmax (Some (zmin s + th)) s).
  destruct (output_shape host s1) as [sh|e] eqn:Hsh.
  2: { intros [= <- <- <-]. cbn. repeat apply conj; try reflexivity.
       - intros f. rewrite elem_of_cons. intros [H|H]; [discriminate|].
         revert H. apply not_elem_of_nil.
       - intros f sh dt b. rewrite elem_of_cons. intros [H|H]; [discriminate|].
         exfalso. revert H. apply not_elem_of_nil. }
  destruct (forallb _ sh) eqn:Hpos.
  2: { intros [= <- <- <-]. cbn. repeat apply conj; try reflexivity.
       - intros f. rewrite elem_of_cons. intros [H|H]; [discriminate|].
         revert H. apply not_elem_of_nil.
       - intros f sh' dt b. rewrite elem_of_cons.
         intros [H|H]; [discriminate|].
         exfalso. revert H. apply not_elem_of_nil. }
  destruct (tiles_loop host (data_frame (fm s1)) s1) as (r1 & t1 & Hloop & Ht1).
  cbv beta iota zeta.
  rewrite Hloop.
  destruct (tile_event_no_writes t1 Ht1) as (W1 & W2 & W3 & W4 & W5 & W6 & W7).
  assert (Hrm : forall (tl : list event),
             (forall f, Remove f ∉ tl) ->
             forall f, Remove f ∉ Assign_zmax (zmin s + th) :: Zeros sh
                                   :: ThreadStart :: t1 ++ tl).
  { intros tl Htl f. rewrite !elem_of_cons, elem_of_app.
    intros [H|[H|[H|[H|H]]]]; try discriminate.
    - eapply W4; eassumption.
    - eapply Htl; eassumption. }
  assert (Him : forall (tl : list event),
             (forall f sh dt b, Imsave f sh dt b ∈ tl ->
                                b = bt /\ f = output_filename s) ->
             forall f sh' dt b,
               Imsave f sh' dt b ∈ Assign_zmax (zmin s + th) :: Zeros sh
                                   :: ThreadStart :: t1 ++ tl ->
               b = bt /\ f = output_filename s).
  { intros tl Htl f sh' dt b. rewrite !elem_of_cons, elem_of_app.
    intros [H|[H|[H|[H|H]]]]; try discriminate.
    - exfalso. eapply W5; eassumption.
    - eapply Htl; eassumption. }
  assert (Hzx : forall tl, zmax_writes tl = [] ->
             zmax_writes (Assign_zmax (zmin s + th) :: Zeros sh
                            :: ThreadStart :: t1 ++ tl) = [zmin s + th]).
  { intros tl Htl. cbn. unfold zmax_writes in *.
    rewrite omap_app, W2, Htl. reflexivity. }
  assert (Hzn : forall tl,
             zmin_writes (Assign_zmax (zmin s + th) :: Zeros sh
                            :: ThreadStart :: t1 ++ tl) = zmin_writes tl).
  { intros tl. cbn. unfold zmin_writes in *. rewrite omap_app, W1.
    reflexivity. }
  assert (Hap : forall tl,
             appends (Assign_zmax (zmin s + th) :: Zeros sh
                        :: ThreadStart :: t1 ++ tl) = appends tl).
  { intros tl. cbn. unfold appends in *. rewrite omap_app, W3.
    reflexivity. }
  destruct r1 as [[]|e].
  2: { intros [= <- <- <-]. rewrite <- (app_nil_r t1).
       rewrite Hzx, Hzn, Hap by reflexivity. cbn.
       repeat apply conj; try reflexivity.
       - apply Hrm. intros f. apply not_elem_of_nil.
       - apply Him. intros f sh' dt b H. exfalso. revert H.
         apply not_elem_of_nil. }
  assert (Hnone : forall f, Remove f ∉ [Put None; ThreadJoin]).
  { intros f. rewrite !elem_of_cons.
    intros [H|[H|H]]; try discriminate. revert H. apply not_elem_of_nil. }
  assert (Hnoim : forall f sh' dt b,
             Imsave f sh' dt b ∈ [Put None; ThreadJoin] ->
             b = bt /\ f = output_filename s).
  { intros f sh' dt b. rewrite !elem_of_cons.
    intros [H|[H|H]]; try discriminate. exfalso. revert H.
    apply not_elem_of_nil. }
  destruct (is_multichannel host s1) as [mc|e] eqn:Hmc.
  2: { intros [= <- <- <-]. cbn [app].
       rewrite Hzx, Hzn, Hap by reflexivity. cbn.
       repeat apply conj; try reflexivity; [apply Hrm | apply Him]; assumption. }
  destruct (if mc then Numpy.moveaxis_m3_last sh else Ok sh) as [sh'|e]
    eqn:Hmv.
  2: { intros [= <- <- <-]. cbn [app].
       rewrite Hzx, Hzn, Hap by reflexivity. cbn.
       repeat apply conj; try reflexivity; [apply Hrm | apply Him]; assumption. }
  destruct (runner_dtype host s1) as [dt|e] eqn:Hdt.
  2: { intros [= <- <- <-]. cbn [app].
       rewrite Hzx, Hzn, Hap by reflexivity. cbn.
       repeat apply conj; try reflexivity; [apply Hrm | apply Him]; assumption. }
  intros [= <- <- <-]. cbn [app].
  rewrite Hzx, Hzn, Hap by reflexivity. cbn.
  repeat apply conj; try reflexivity.
  - apply Hrm. intros f. rewrite !elem_of_cons.
    intros [H|[H|[H|[H|H]]]]; try discriminate. revert H.
    apply not_elem_of_nil.
  - apply Him. intros f sh2 dt2 b. rewrite !elem_of_cons.
    intros [H|[H|[H|[H|H]]]]; try discriminate.
    + injection H as -> _ _ ->. split; reflexivity.
    + exfalso. revert H. apply not_elem_of_nil.
  - exists sh. repeat apply conj; try reflexivity.
    apply list_elem_of_further, list_elem_of_here.
  - change (data_frame (fm s)) with (data_frame (fm s1)).
    rewrite Hloop. cbn. unfold placements. rewrite omap_app. cbn.
    apply app_nil_r.
Qed.


(** ** The loop over the chunks *)

Lemma chunks_post host bt pt : forall s r s' t,
  for_each (chunk host bt) pt s = (r, s', t) ->
  fm s' = fm s /\ path s' = path s /\ debug s' = debug s /\
  output_filename s' = output_filename s /\
  (forall f, Remove f ∉ t) /\
  (forall f sh dt b, Imsave f sh dt b ∈ t -> b = bt /\ f = output_filename s) /\
  (pt = [] -> r = Ok tt /\ s' = s /\ t = []) /\
  (r = Ok tt ->
   zmin s' = zmin s + sum_list pt /\
   zmin_writes t = partial_sums (zmin s) pt /\
   zmax_writes t = partial_sums (zmin s) pt /\
   length (appends t) = length pt /\
   (pt <> [] -> zmax s' = Some (zmin s'))).
Proof.
  induction pt as [|th pt IH]; intros s r s' t.
  - cbn. intros [= <- <- <-]. repeat apply conj; try reflexivity.
    + intros f. apply not_elem_of_nil.
    + intros f sh dt b H. exfalso. revert H. apply not_elem_of_nil.
    + intros _. repeat apply conj; reflexivity.
    + intros _. repeat apply conj; try reflexivity; try (cbn; lia).
      intros H. contradiction.
  - cbn [for_each]. unfold bind.
    destruct (chunk host bt th s) as [[r1 s1] t1] eqn:Hchunk.
    apply chunk_post in Hchunk.
    destruct Hchunk as (F1 & F2 & F3 & F4 & Hzx & Hzxw & Hrm & Him & Hr).
    destruct r1 as [[]|e].
    + destruct (for_each (chunk host bt) pt s1) as [[r2 s2] t2] eqn:Hrest.
      apply IH in Hrest.
      destruct Hrest as (G1 & G2 & G3 & G4 & Grm & Gim & Gnil & Gok).
      intros [= <- <- <-].
      destruct Hr as (Hzn & Hznw & (sh & _ & _ & Hone) & _).
      repeat apply conj; try congruence.
      * intros f. rewrite elem_of_app. intros [H|H].
        -- eapply Hrm; eassumption.
        -- eapply Grm; eassumption.
      * intros f sh' dt b. rewrite elem_of_app. intros [H|H].
        -- eapply Him; eassumption.
        -- rewrite <- F4. eapply Gim; eassumption.
      * intros Hr2. destruct (Gok Hr2) as (K1 & K2 & K3 & K4 & K5).
        unfold zmin_writes, zmax_writes, appends, sum_list in *.
        rewrite !omap_app, Hznw, Hzxw, K2, K3, Hzn.
        cbn [partial_sums foldr app length].
        rewrite length_app, K4, Hone.
        repeat apply conj; try reflexivity; try lia.
        intros _. destruct pt as [|th2 pt'].
        -- destruct (Gnil eq_refl) as (_ & -> & _).
           rewrite Hzx, Hzn. reflexivity.
        -- apply K5. discriminate.
    + intros [= <- <- <-].
      destruct Hr as (Hzn & Hznw & Hap).
      repeat apply conj; try congruence; try (intros; congruence).
      * exact Hrm.
      * exact Him.
Qed.


(** ** [run] as a whole *)

Lemma run_eval host s :
  run host s =
    let s0 := normalized s in
    match total_byte_size host s0 with
    | Raise e => (Raise e, s0, [])
    | Ok total =>
        match n_frames_in_ram host s0 with
        | Raise e => (Raise e, s0, [])
        | Ok n =>
            match output_shape host s0 with
            | Raise e => (Raise e, s0, [])
            | Ok sh =>
                match getitem sh 0 with
                | Raise e => (Raise e, s0, [])
                | Ok depth =>
                    match partial_thickness depth n with
                    | Raise e => (Raise e, s0, [])
                    | Ok pt =>
                        let '(r, s', t) :=
                          for_each (chunk host (bigtiff_of total)) pt s0 in
                        (r, s', Remove (output_filename s0) :: t)
                    end
                end
            end
        end
    end.
Proof.
  unfold run, bind. rewrite normalize_eval. unfold get, lift, emit.
  cbv zeta.
  destruct (total_byte_size host (normalized s)); [|reflexivity].
  destruct (n_frames_in_ram host (normalized s)); [|reflexivity].
  destruct (output_shape host (normalized s)) as [sh|]; [|reflexivity].
  destruct (getitem sh 0); [|reflexivity].
  destruct (partial_thickness _ _) as [pt|]; [|reflexivity].
  destruct (for_each _ pt (normalized s)) as [[r s'] t]. reflexivity.
Qed.

(** ** The partition of the depth *)

Lemma fmap_const_replicate {A B} (b : B) (l : list A) :
  (fun _ => b) <$> l = replicate (length l) b.
Proof. induction l as [|x l IH]; cbn; [reflexivity | f_equal; exact IH]. Qed.

Lemma sum_list_app l1 l2 : sum_list (l1 ++ l2) = sum_list l1 + sum_list l2.
Proof.
  unfold sum_list. induction l1 as [|x l1 IH]; cbn; [reflexivity | lia].
Qed.

Lemma sum_list_replicate k n : sum_list (replicate k n) = Z.of_nat k * n.
Proof.
  unfold sum_list. induction k as [|k IH]; cbn [replicate foldr]; lia.
Qed.

Lemma partial_thickness_eval depth n :
  n <> 0 ->
  partial_thickness depth n =
    Ok (replicate (Z.to_nat (depth / n)) n
          ++ (if bool_decide (depth mod n <> 0) then [depth mod n] else [])).
Proof.
  intros Hn. unfold partial_thickness, floordiv, modulo.
  rewrite bool_decide_false by exact Hn.
  rewrite fmap_const_replicate. unfold range.
  rewrite length_fmap, length_seq, Z.sub_0_r.
  case_bool_decide; [reflexivity | rewrite app_nil_r; reflexivity].
Qed.

Lemma partial_thickness_sum depth n pt :
  1 <= n -> 0 <= depth ->
  partial_thickness depth n = Ok pt ->
  sum_list pt = depth /\ Forall (fun th => 0 < th <= n) pt.
Proof.
  intros Hn Hd. rewrite partial_thickness_eval by lia. intros [= <-].
  pose proof (Z.div_mod depth n ltac:(lia)) as Hdm.
  pose proof (Z.mod_pos_bound depth n ltac:(lia)) as Hmod.
  pose proof (Z.div_pos depth n Hd ltac:(lia)) as Hdiv.
  split.
  - rewrite sum_list_app, sum_list_replicate, Z2Nat.id by exact Hdiv.
    case_bool_decide; unfold sum_list; cbn; lia.
  - apply Forall_app. split.
    + apply Forall_replicate. lia.
    + case_bool_decide; repeat constructor; lia.
Qed.

Lemma partial_sums_sorted z pt :
  Forall (fun th => 0 < th) pt ->
  Sorted Z.lt (z :: partial_sums z pt).
Proof.
  intros Hall. revert z.
  induction Hall as [|th pt Hth _ IH]; intros z; cbn [partial_sums].
  - repeat constructor.
  - constructor; [apply IH|]. constructor. lia.
Qed.

Lemma partial_sums_last z pt :
  last (z :: partial_sums z pt) = Some (z + sum_list pt).
Proof.
  revert z. induction pt as [|th pt IH]; intros z.
  - cbn. f_equal. lia.
  - cbn [partial_sums]. rewrite last_cons_cons, IH.
    unfold sum_list. cbn. f_equal. lia.
Qed.


(** ** Normalising the origins *)

Lemma column_set_other k k' v r :
  k <> k' -> column k' (set_column k v r) = column k' r.
Proof. destruct k, k'; intros H; try reflexivity; contradiction. Qed.

Lemma col_min_other k k' df :
  k <> k' ->
  col_min (column k' <$> sub_min k df) = col_min (column k' <$> df).
Proof.
  intros Hk. unfold sub_min. destruct (col_min (column k <$> df)); [|reflexivity].
  rewrite <- list_fmap_compose. f_equal. apply list_fmap_ext.
  intros _ r _. unfold compose. apply column_set_other, Hk.
Qed.

Lemma normalized_rows df :
  sub_min KZs (sub_min KYs (sub_min KXs df)) =
    shift_rows (default 0 (col_min (Xs <$> df)))
               (default 0 (col_min (Ys <$> df)))
               (default 0 (col_min (Zs <$> df))) df.
Proof.
  destruct df as [|r0 df]; [reflexivity|].
  unfold sub_min at 1.
  rewrite (col_min_other KYs KZs) by discriminate.
  rewrite (col_min_other KXs KZs) by discriminate.
  unfold sub_min at 1.
  rewrite (col_min_other KXs KYs) by discriminate.
  unfold sub_min.
  change (column KXs) with Xs. change (column KYs) with Ys.
  change (column KZs) with Zs.
  generalize (r0 :: df). intros l.
  destruct l as [|r l]; [reflexivity|].
  cbn [fmap list_fmap col_min default].
  unfold shift_rows. rewrite <- !list_fmap_compose.
  change (?a :: (?f <$> l)) with (f <$> (r :: l)) at 1.
  reflexivity.
Qed.

Lemma foldl_min_shift c l : forall x,
  foldl Z.min (x - c) ((fun y => y - c) <$> l) = foldl Z.min x l - c.
Proof.
  induction l as [|y l IH]; intros x; cbn; [reflexivity|].
  rewrite <- IH. f_equal. lia.
Qed.

Lemma col_min_shift c l :
  col_min ((fun y => y - c) <$> l) = (fun m => m - c) <$> col_min l.
Proof.
  destruct l as [|x l]; [reflexivity|]. cbn. f_equal. apply foldl_min_shift.
Qed.

Lemma shift_rows_zero df : shift_rows 0 0 0 df = df.
Proof.
  unfold shift_rows. rewrite <- (list_fmap_id df) at 2.
  apply list_fmap_ext. intros _ [n x y z f] _. cbn. f_equal; lia.
Qed.

Lemma col_min_shift_rows (proj : Row -> Z) m mx my mz df :
  (forall r, proj {| name := name r; Xs := Xs r - mx; Ys := Ys r - my;
                     Zs := Zs r - mz; nfrms := nfrms r |} = proj r - m) ->
  col_min (proj <$> shift_rows mx my mz df) = (fun v => v - m) <$> col_min (proj <$> df).
Proof.
  intros Hp. unfold shift_rows. rewrite <- col_min_shift.
  rewrite <- !list_fmap_compose. f_equal. apply list_fmap_ext.
  intros _ r _. apply Hp.
Qed.

Lemma normalized_idempotent s : normalized (normalized s) = normalized s.
Proof.
  unfold normalized. cbn [set_data_frame fm data_frame].
  rewrite !normalized_rows.
  set (df := data_frame (fm s)).
  set (mx := default 0 (col_min (Xs <$> df))).
  set (my := default 0 (col_min (Ys <$> df))).
  set (mz := default 0 (col_min (Zs <$> df))).
  rewrite (col_min_shift_rows Xs mx), (col_min_shift_rows Ys my),
    (col_min_shift_rows Zs mz) by reflexivity.
  subst mx my mz.
  destruct df as [|r df]; [reflexivity|].
  cbn [fmap list_fmap col_min option_fmap option_map default].
  rewrite !Z.sub_diag, shift_rows_zero. reflexivity.
Qed.

Lemma first_name_normalized s : first_name (normalized s) = first_name s.
Proof.
  unfold first_name, normalized. cbn [set_data_frame fm data_frame].
  rewrite normalized_rows. destruct (data_frame (fm s)); reflexivity.
Qed.

Lemma output_shape_normalized host s :
  output_shape host (normalized s) = output_shape host s.
Proof.
  unfold output_shape, first_input. rewrite first_name_normalized.
  reflexivity.
Qed.

Lemma n_frames_normalized host s :
  n_frames_in_ram host (normalized s) = n_frames_in_ram host s.
Proof.
  unfold n_frames_in_ram, xy_size. rewrite output_shape_normalized.
  reflexivity.
Qed.

Lemma total_byte_size_normalized host s :
  total_byte_size host (normalized s) = total_byte_size host s.
Proof.
  unfold total_byte_size, runner_dtype, first_input.
  rewrite output_shape_normalized, first_name_normalized. reflexivity.
Qed.

(** The table after [run], whatever the outcome. *)
Lemma run_final_table host s :
  fm (run host s).1.2 = fm (normalized s) /\
  path (run host s).1.2 = path s /\
  debug (run host s).1.2 = debug s /\
  output_filename (run host s).1.2 = output_filename s.
Proof.
  rewrite run_eval. cbv zeta.
  destruct (total_byte_size host (normalized s)); [|repeat split; reflexivity].
  destruct (n_frames_in_ram host (normalized s)); [|repeat split; reflexivity].
  destruct (output_shape host (normalized s)) as [sh|];
    [|repeat split; reflexivity].
  destruct (getitem sh 0); [|repeat split; reflexivity].
  destruct (partial_thickness _ _) as [pt|]; [|repeat split; reflexivity].
  destruct (for_each _ pt (normalized s)) as [[r s'] t] eqn:Hloop.
  apply chunks_post in Hloop. destruct Hloop as (F1 & F2 & F3 & F4 & _).
  cbn [fst snd]. repeat apply conj; assumption.
Qed.


(** C8 (as amended).  [run] never changes the names and the frame counts of
    the tile records, but it does rewrite their origins in the table it
    shares with the file matrix: whatever the outcome of [run], every tile's
    [Xs], [Ys] and [Zs] end up as the loaded values minus the minimum of
    that column over the table.  The records are left as loaded exactly
    when the three minima are already zero. *)
Theorem run_translates_origins host s :
  let df := data_frame (fm s) in
  let df' := data_frame (fm (run host s).1.2) in
  let mx := default 0 (col_min (Xs <$> df)) in
  let my := default 0 (col_min (Ys <$> df)) in
  let mz := default 0 (col_min (Zs <$> df)) in
  df' = shift_rows mx my mz df /\
  name <$> df' = name <$> df /\
  nfrms <$> df' = nfrms <$> df /\
  (mx = 0 /\ my = 0 /\ mz = 0 -> df' = df) /\
  (df <> [] -> df' = df -> mx = 0 /\ my = 0 /\ mz = 0).
Proof.
  intros df df' mx my mz.
  assert (Hdf : df' = shift_rows mx my mz df).
  { subst df'. destruct (run_final_table host s) as (-> & _).
    unfold normalized. cbn [set_data_frame fm data_frame].
    apply normalized_rows. }
  split; [exact Hdf|]. rewrite Hdf. unfold shift_rows.
  repeat apply conj.
  - rewrite <- list_fmap_compose. reflexivity.
  - rewrite <- list_fmap_compose. reflexivity.
  - intros (-> & -> & ->). apply shift_rows_zero.
  - intros Hne Heq. destruct df as [|r df0]; [contradiction|].
    injection Heq as Heq _. destruct r as [n x y z f].
    injection Heq as Hx Hy Hz. cbn in *. lia.
Qed.

(** C8, as stated, fails: a tile loaded at [Zs = 3] (with [Ys = 5] and
    [Xs = 7]) has [Zs = 0] after [run]. *)
Lemma run_moves_the_origin :
  Zs <$> data_frame (fm Examples.shifted) = [3] /\
  Zs <$> data_frame (fm (run Examples.host4 Examples.shifted).1.2) = [0] /\
  (run Examples.host4 Examples.shifted).1.1 = Ok tt.
Proof. vm_compute. repeat split. Qed.

(** ** Errors raised before the first chunk *)

Lemma setitem_length {A} (l l' : list A) i v :
  setitem l i v = Ok l' -> length l' = length l.
Proof.
  unfold setitem. destruct (norm_index l i); [|discriminate].
  intros [= <-]. apply length_insert.
Qed.

Lemma output_shape_length host s sh :
  output_shape host s = Ok sh ->
  exists f, first_input host s = Ok f /\ length sh = length (shape f) /\
            (2 <= length sh)%nat.
Proof.
  unfold output_shape. destruct (first_input host s) as [f|]; [|discriminate].
  destruct (setitem (shape f) 0 _) as [sh0|] eqn:H0; [|discriminate].
  destruct (setitem sh0 (-2) _) as [sh1|] eqn:H1; [|discriminate].
  intros H2. exists f. split; [reflexivity|].
  pose proof (setitem_length _ _ _ _ H0) as L0.
  pose proof (setitem_length _ _ _ _ H1) as L1.
  pose proof (setitem_length _ _ _ _ H2) as L2.
  split; [congruence|].
  unfold setitem, norm_index in H1.
  repeat case_bool_decide; try discriminate; lia.
Qed.

Lemma getitem_first {A} (l : list A) :
  (1 <= length l)%nat -> exists x, getitem l 0 = Ok x /\ l !! 0%nat = Some x.
Proof.
  destruct l as [|x l]; [cbn; lia|]. intros _. exists x.
  unfold getitem, norm_index. cbn [length].
  case_bool_decide; [split; reflexivity | lia].
Qed.

(** C5 (as amended).  When the memory budget amounts to no plane at all
    ([n_frames_in_ram] is not negative and below 1, that is 0), [run]
    raises [ZeroDivisionError] at the computation of the chunks, before
    the loop over them.  Nothing has happened by then: the trace of
    effects is empty, so the output file has not been removed, no buffer
    has been allocated, no consumer started and nothing appended; only the
    tile origins have been normalised. *)
Theorem run_rejects_empty_budget host s n :
  n_frames_in_ram host s = Ok n ->
  0 <= n ->
  n < 1 ->
  run host s = (Raise ZeroDivisionError, normalized s, []).
Proof.
  intros Hn H0 H1. assert (n = 0) by lia. subst n.
  rewrite run_eval. cbv zeta.
  rewrite total_byte_size_normalized, n_frames_normalized,
    output_shape_normalized, Hn.
  unfold n_frames_in_ram, xy_size in Hn.
  destruct (output_shape host s) as [sh|] eqn:Hsh; [|discriminate].
  destruct (output_shape_length host s sh Hsh) as (f & Hf & _ & Hlen).
  unfold total_byte_size, runner_dtype. rewrite Hsh, Hf.
  destruct (getitem_first sh ltac:(lia)) as (d & -> & _).
  reflexivity.
Qed.

Lemma run_rejects_empty_budget_witness :
  n_frames_in_ram Examples.host0 Examples.ten_planes = Ok 0 /\
  run Examples.host0 Examples.ten_planes
  = (Raise ZeroDivisionError, normalized Examples.ten_planes, []).
Proof.
  split; [reflexivity|].
  apply (run_rejects_empty_budget Examples.host0 Examples.ten_planes 0).
  - reflexivity.
  - lia.
  - lia.
Defined.

(** C5, as stated, fails when the budget is negative.  An output plane of
    1024 by 2^52 - 1 elements has the 64-bit size -4096; on a machine of
    98304 bytes the budget is -16 planes, below 1.  For the depth 10 the
    partition is the single thickness 10 % -16 = -6: [run] removes the
    output file and sets [zmax] before the allocation of the first buffer
    raises [ValueError]. *)
Lemma negative_budget_removes_output :
  xy_size Examples.host_signed Examples.wrapped_plane = Ok (-4096) /\
  n_frames_in_ram Examples.host_signed Examples.wrapped_plane = Ok (-16) /\
  -16 < 1 /\
  partial_thickness 10 (-16) = Ok [-6] /\
  (exists s',
     run Examples.host_signed Examples.wrapped_plane
     = (Raise ValueError, s', [Remove "fused.tif"; Assign_zmax (-6)]) /\
     zmax s' = Some (-6)).
Proof.
  repeat apply conj; try reflexivity.
  eexists. split; [vm_compute; reflexivity|]. reflexivity.
Qed.

(** ** The large-file decision *)

Lemma bigtiff_of_ge total : bigtiff_of total = true <-> 4080218932 <= total.
Proof.
  unfold bigtiff_of, gt_threshold, Qcompare, bigtiff_threshold.
  cbn [Qnum Qden inject_Z].
  destruct (Z.compare_spec (total * 2097152) (8556839292003942 * 1));
    split; intros; try discriminate; try reflexivity; try lia; exfalso; lia.
Qed.



(** ** The chunks of a run *)

Lemma getitem_lookup_first {A} (l : list A) (x : A) :
  l !! 0%nat = Some x -> getitem l 0 = Ok x.
Proof.
  destruct l as [|y l]; [discriminate|]. intros [= ->].
  unfold getitem, norm_index. cbn [length].
  case_bool_decide; [reflexivity | lia].
Qed.

Lemma total_byte_size_ok host s sh :
  output_shape host s = Ok sh -> exists total, total_byte_size host s = Ok total.
Proof.
  intros Hsh. unfold total_byte_size, runner_dtype. rewrite Hsh.
  destruct (output_shape_length host s sh Hsh) as (f & -> & _).
  eexists. reflexivity.
Qed.

(** With a usable budget, [run] is: normalise, remove the output file, then
    the loop over the thicknesses. *)
Lemma run_reaches_loop host s sh depth n pt :
  output_shape host s = Ok sh ->
  sh !! 0%nat = Some depth ->
  n_frames_in_ram host s = Ok n ->
  partial_thickness depth n = Ok pt ->
  exists total,
    total_byte_size host s = Ok total /\
    run host s =
      let '(r, s', t) := for_each (chunk host (bigtiff_of total)) pt
                           (normalized s) in
      (r, s', Remove (output_filename s) :: t).
Proof.
  intros Hsh Hd Hn Hpt.
  destruct (total_byte_size_ok host s sh Hsh) as (total & Htot).
  exists total. split; [exact Htot|].
  rewrite run_eval. cbv zeta.
  rewrite total_byte_size_normalized, n_frames_normalized,
    output_shape_normalized, Htot, Hn, Hsh, (getitem_lookup_first _ _ Hd), Hpt.
  reflexivity.
Qed.

Lemma first_input_same_table host s s1 :
  fm s1 = fm s -> first_input host s1 = first_input host s.
Proof. intros Hfm. unfold first_input, first_name. rewrite Hfm. reflexivity. Qed.

(** ** Runs that complete *)

Lemma tiles_loop_ok host rows s :
  Forall (fun row =>
            is_Some (input_files host !! os_path_join (path s) (name row)))
         rows ->
  exists t, for_each (tile_step host) rows s = (Ok tt, s, t).
Proof.
  induction 1 as [|row rows [f Hf] _ (t & IH)].
  - exists []. reflexivity.
  - cbn [for_each]. unfold bind.
    pose proof (tile_step_eval host row s) as Hev. cbn zeta in Hev.
    rewrite Hf in Hev. rewrite Hev. clear Hev.
    case_bool_decide; rewrite IH; eexists; reflexivity.
Qed.

Lemma forallb_nonneg (l : list Z) :
  Forall (fun d => 0 <= d) l ->
  forallb (fun d => bool_decide (0 <= d)) l = true.
Proof.
  induction 1 as [|d l Hd _ IH]; [reflexivity|].
  cbn [forallb]. rewrite bool_decide_true by exact Hd. exact IH.
Qed.

Lemma moveaxis_ok (sh : list Z) :
  (3 <= length sh)%nat -> exists sh', Numpy.moveaxis_m3_last sh = Ok sh'.
Proof.
  intros Hlen. unfold Numpy.moveaxis_m3_last, norm_index.
  rewrite bool_decide_false by lia. rewrite bool_decide_true by lia.
  destruct (lookup_lt_is_Some_2 sh (Z.to_nat (-3 + Z.of_nat (length sh)))
              ltac:(lia)) as [c Hc].
  rewrite Hc. eexists. reflexivity.
Qed.

Lemma chunk_ok host bt th s :
  well_formed host s -> 0 <= th ->
  exists s' t, chunk host bt th s = (Ok tt, s', t).
Proof.
  intros (f & Hf & Hlen & Hdims & Hfh & Hfw & Hread) Hth.
  unfold chunk, np_zeros, bind, get, modify, emit, lift.
  set (s1 := set_zmax (Some (zmin s + th)) s).
  assert (Hf1 : first_input host s1 = Ok f) by exact Hf.
  pose proof (output_shape_eval host s1 f Hf1 Hlen) as Hsh.
  cbv zeta in Hsh. rewrite Hsh.
  set (sh := _ :: _ ++ _) in *.
  assert (Hpos : forallb (fun d => bool_decide (0 <= d)) sh = true).
  { apply forallb_nonneg. subst sh. constructor.
    - cbn. lia.
    - apply Forall_app. split.
      + apply Forall_take, Forall_drop, Hdims.
      + repeat constructor; assumption. }
  rewrite Hpos. cbv beta iota zeta.
  destruct (tiles_loop_ok host (data_frame (fm s1)) s1 Hread) as (t1 & Hloop).
  rewrite Hloop.
  unfold is_multichannel, runner_dtype. rewrite Hf1.
  assert (Hsl : (3 <= length sh)%nat).
  { destruct (output_shape_length host s1 sh Hsh) as (f' & Hf' & Hl & _).
    rewrite Hf1 in Hf'. injection Hf' as <-. lia. }
  destruct (moveaxis_ok sh Hsl) as (sh' & Hmv).
  destruct (bool_decide (nchannels f > 1)); [rewrite Hmv|];
    eexists _, _; reflexivity.
Qed.

Lemma chunks_ok host bt pt : forall s,
  well_formed host s -> Forall (fun th => 0 <= th) pt ->
  exists s' t, for_each (chunk host bt) pt s = (Ok tt, s', t).
Proof.
  induction pt as [|th pt IH]; intros s Hwf Hall.
  - eexists _, _. reflexivity.
  - apply Forall_cons in Hall. destruct Hall as [Hth Hall].
    destruct (chunk_ok host bt th s Hwf Hth) as (s1 & t1 & Hchunk).
    cbn [for_each]. unfold bind. rewrite Hchunk.
    destruct (chunk_post host bt th s _ _ _ Hchunk) as (F1 & F2 & _).
    assert (Hwf1 : well_formed host s1).
    { destruct Hwf as (f & Hf & Hrest). exists f.
      rewrite (first_input_same_table host s s1 F1), F1, F2.
      split; [exact Hf | exact Hrest]. }
    destruct (IH s1 Hwf1 Hall) as (s2 & t2 & Hrest).
    rewrite Hrest. eexists _, _. reflexivity.
Qed.

Lemma well_formed_normalized host s :
  well_formed host s -> well_formed host (normalized s).
Proof.
  intros (f & Hf & Hlen & Hdims & Hfh & Hfw & Hread). exists f.
  repeat apply conj; try assumption.
  - unfold first_input. rewrite first_name_normalized. exact Hf.
  - unfold normalized. cbn [set_data_frame fm data_frame path].
    rewrite normalized_rows. unfold shift_rows.
    apply Forall_fmap. eapply Forall_impl; [exact Hread|].
    intros row Hrow. exact Hrow.
Qed.

Lemma run_completes host s sh depth n :
  well_formed host s ->
  output_shape host s = Ok sh ->
  sh !! 0%nat = Some depth ->
  n_frames_in_ram host s = Ok n ->
  1 <= n -> 0 <= depth ->
  exists s' t, run host s = (Ok tt, s', t).
Proof.
  intros Hwf Hsh Hd Hn Hn1 Hd0.
  pose proof (partial_thickness_eval depth n ltac:(lia)) as Hpt.
  destruct (partial_thickness_sum depth n _ Hn1 Hd0 Hpt) as (_ & Hall).
  set (pt := replicate _ _ ++ _) in *.
  destruct (run_reaches_loop host s sh depth n pt Hsh Hd Hn Hpt)
    as (total & _ & ->).
  destruct (chunks_ok host (bigtiff_of total) pt (normalized s)
              (well_formed_normalized host s Hwf))
    as (s' & t & ->).
  - eapply Forall_impl; [exact Hall|]. cbn. intros; lia.
  - eexists _, _. reflexivity.
Qed.

Lemma tiles_loop_placements host rows s t :
  for_each (tile_step host) rows s = (Ok tt, s, t) ->
  placements t
  = concat ((fun row => placements (tile_step host row s).2) <$> rows).
Proof.
  revert t. induction rows as [|row rows IH]; intros t.
  - intros [= <-]. reflexivity.
  - cbn [for_each]. unfold bind.
    destruct (tile_step host row s) as [[r1 s1] t1] eqn:Hstep.
    assert (Hs1 : s1 = s).
    { pose proof (tile_step_eval host row s) as Hev. cbn zeta in Hev.
      rewrite Hstep in Hev. case_bool_decide; [congruence|].
      destruct (input_files host !! _); congruence. }
    subst s1. destruct r1 as [[]|e]; [|discriminate].
    destruct (tiles_loop host rows s) as (r2 & t2 & Hrest & _).
    rewrite Hrest. intros [= -> <-].
    cbn [fmap list_fmap concat snd]. unfold placements at 1.
    rewrite omap_app. f_equal.
    + rewrite Hstep. reflexivity.
    + apply IH. exact Hrest.
Qed.

(** C1 (as amended).  For an output depth [D >= 0] and a chunk size
    [n >= 1] the
    thicknesses are [D // n] times [n], followed by [D % n] when that is
    not zero; they are positive and add up to [D].  [run] removes the
    output file and then loops over exactly these thicknesses; in a run
    that completes, the values assigned to [zmax] and to [zmin] are both
    the running totals [zmin + t1], [zmin + t1 + t2], ...: each chunk starts
    where the previous one ended, the boundaries increase strictly, there
    is one append per chunk, and [zmin] ends at its initial value plus
    [D].  On a well-formed configuration the run does complete. *)
Theorem run_partitions_depth host s sh depth n :
  output_shape host s = Ok sh ->
  sh !! 0%nat = Some depth ->
  n_frames_in_ram host s = Ok n ->
  1 <= n ->
  0 <= depth ->
  exists pt,
    partial_thickness depth n = Ok pt /\
    pt = replicate (Z.to_nat (depth / n)) n
           ++ (if bool_decide (depth mod n <> 0) then [depth mod n] else []) /\
    sum_list pt = depth /\
    Forall (fun th => 0 < th <= n) pt /\
    Sorted Z.lt (zmin s :: partial_sums (zmin s) pt) /\
    last (zmin s :: partial_sums (zmin s) pt) = Some (zmin s + depth) /\
    (exists bt,
       run host s =
         let '(r, s', t) := for_each (chunk host bt) pt (normalized s) in
         (r, s', Remove (output_filename s) :: t)) /\
    (well_formed host s -> exists s' t, run host s = (Ok tt, s', t)) /\
    (forall s' t,
       run host s = (Ok tt, s', t) ->
       zmax_writes t = partial_sums (zmin s) pt /\
       zmin_writes t = partial_sums (zmin s) pt /\
       length (appends t) = length pt /\
       zmin s' = zmin s + depth).
Proof.
  intros Hsh Hd Hn Hn1 Hd0.
  pose proof (partial_thickness_eval depth n ltac:(lia)) as Hpt.
  destruct (partial_thickness_sum depth n _ Hn1 Hd0 Hpt) as (Hsum & Hall).
  eexists. split; [exact Hpt|]. split; [reflexivity|].
  set (pt := replicate _ _ ++ _) in *.
  split; [exact Hsum|]. split; [exact Hall|].
  split. { apply partial_sums_sorted. eapply Forall_impl; [exact Hall|].
           cbn. intros; lia. }
  split. { rewrite partial_sums_last, Hsum. reflexivity. }
  destruct (run_reaches_loop host s sh depth n pt Hsh Hd Hn Hpt)
    as (total & _ & Hrun).
  split; [exists (bigtiff_of total); exact Hrun|].
  split. { intros Hwf. eapply run_completes; eassumption. }
  intros s' t. rewrite Hrun.
  destruct (for_each _ pt (normalized s)) as [[r1 s1] t1] eqn:Hloop.
  intros [= -> -> <-].
  apply chunks_post in Hloop.
  destruct Hloop as (_ & _ & _ & _ & _ & _ & _ & Hok).
  destruct (Hok eq_refl) as (K1 & K2 & K3 & K4 & _).
  change (zmin (normalized s)) with (zmin s) in *.
  repeat apply conj.
  - exact K3.
  - exact K2.
  - exact K4.
  - rewrite K1, Hsum. reflexivity.
Qed.

Lemma run_partitions_depth_witness :
  partial_thickness 10 4 = Ok [4; 4; 2] /\
  zmax_writes (run Examples.host4 Examples.ten_planes).2 = [4; 8; 10] /\
  zmin_writes (run Examples.host4 Examples.ten_planes).2 = [4; 8; 10] /\
  length (appends (run Examples.host4 Examples.ten_planes).2) = 3%nat /\
  zmin (run Examples.host4 Examples.ten_planes).1.2 = 10.
Proof.
  destruct (run_partitions_depth Examples.host4 Examples.ten_planes
              [10; 64; 64] 10 4)
    as (pt & Hpt & Heq & _ & _ & _ & _ & _ & _ & Hrun).
  - reflexivity.
  - reflexivity.
  - reflexivity.
  - lia.
  - lia.
  - assert (Hpt3 : pt = [4; 4; 2]) by (rewrite Heq; reflexivity).
    rewrite Hpt3 in *. split; [exact Hpt|].
    destruct (run Examples.host4 Examples.ten_planes) as [[r s'] t] eqn:Hr.
    assert (Hok : r = Ok tt).
    { change r with (r, s', t).1.1. rewrite <- Hr. vm_compute. reflexivity. }
    subst r. destruct (Hrun s' t eq_refl) as (H1 & H2 & H3 & H4).
    cbn [fst snd]. repeat apply conj; assumption.
Defined.

(** C1, as stated, fails for a negative output depth.  With [zmin = 12] on
    ten planes the depth is -2 and the chunk size is 4: the partition is
    the single thickness 2 = -2 % 4, which does not add up to the depth;
    the run appends two planes and [zmin] ends at 14, not at 12 + (-2). *)
Lemma negative_depth_is_not_partitioned :
  output_shape Examples.host4 Examples.past_the_end = Ok [-2; 64; 64] /\
  n_frames_in_ram Examples.host4 Examples.past_the_end = Ok 4 /\
  partial_thickness (-2) 4 = Ok [2] /\
  sum_list [2] <> -2 /\
  (exists s' t,
     run Examples.host4 Examples.past_the_end = (Ok tt, s', t) /\
     appends t = [[2; 64; 64]] /\
     zmin_writes t = [14] /\
     zmin s' = 14 /\
     zmin s' <> zmin Examples.past_the_end + -2).
Proof.
  repeat apply conj; try reflexivity.
  - discriminate.
  - eexists. eexists. split; [vm_compute; reflexivity|].
    repeat apply conj; try reflexivity. discriminate.
Qed.


(** ** Running twice *)

Lemma set_data_frame_same s : set_data_frame (data_frame (fm s)) s = s.
Proof. destruct s as [[df ft fh fw ov] p lo hi d o]. reflexivity. Qed.

Lemma normalized_fixed s s1 :
  fm s1 = fm (normalized s) -> normalized s1 = s1.
Proof.
  intros Hfm. unfold normalized at 1. rewrite Hfm.
  pose proof (normalized_idempotent s) as Hid.
  apply (f_equal (fun x => data_frame (fm x))) in Hid.
  unfold normalized at 1 in Hid. cbn [set_data_frame fm data_frame] in Hid.
  rewrite Hid, <- Hfm. apply set_data_frame_same.
Qed.


Lemma file_after_no_remove t : forall file,
  (forall f, Remove f ∉ t) ->
  file_after t file =
    match file, appends t with
    | None, [] => None
    | _, _ => Some (default [] file ++ appends t)
    end.
Proof.
  unfold file_after, appends.
  induction t as [|e t IH]; intros file Hrm.
  - cbn. destruct file; [rewrite app_nil_r|]; reflexivity.
  - assert (Hrm' : forall f, Remove f ∉ t).
    { intros f H. apply (Hrm f). apply list_elem_of_further, H. }
    cbn [foldl]. rewrite (IH _ Hrm').
    destruct e; cbn [omap option_bind mbind list_omap]; try reflexivity.
    + exfalso. apply (Hrm fname), list_elem_of_here.
    + destruct file; cbn; rewrite <- ?app_assoc; reflexivity.
Qed.

(** C10 (as amended).  [run] leaves the window where the last chunk ended.
    After a successful run over a depth [D >= 1] (first tile of at least
    three axes, chunk size [n >= 1]), [zmin] is its earlier value plus [D]
    and [zmax] equals that [zmin], so the window is empty and the runner
    differs from what it was.  At the end of that run the output file holds
    one append per chunk.  A second [run] on the same runner computes the
    output depth 0; all it does is remove the output file, so that the file
    is gone afterwards, and it leaves the runner as it found it. *)
Theorem run_consumes_window host s s1 t1 f sh depth n :
  first_input host s = Ok f ->
  (3 <= length (shape f))%nat ->
  output_shape host s = Ok sh ->
  sh !! 0%nat = Some depth ->
  n_frames_in_ram host s = Ok n ->
  1 <= n ->
  1 <= depth ->
  run host s = (Ok tt, s1, t1) ->
  zmin s1 = zmin s + depth /\
  zmax s1 = Some (zmin s1) /\
  s1 <> s /\
  (forall file, exists written,
     file_after t1 file = Some written /\ written <> []) /\
  (exists sh2, output_shape host s1 = Ok sh2 /\ sh2 !! 0%nat = Some 0) /\
  run host s1 = (Ok tt, s1, [Remove (output_filename s)]) /\
  (forall file, file_after (t1 ++ (run host s1).2) file = None).
Proof.
  intros Hf Hlen Hsh Hd Hn Hn1 Hd1 Hrun.
  pose proof (partial_thickness_eval depth n ltac:(lia)) as Hpt.
  destruct (partial_thickness_sum depth n _ Hn1 ltac:(lia) Hpt)
    as (Hsum & Hall).
  set (pt := replicate _ _ ++ _) in *.
  assert (Hne : pt <> []).
  { intros Hnil. rewrite Hnil in Hsum. cbn in Hsum. lia. }
  destruct (run_reaches_loop host s sh depth n pt Hsh Hd Hn Hpt)
    as (total & Htot & Hev).
  rewrite Hev in Hrun.
  destruct (for_each _ pt (normalized s)) as [[r0 s0] t0] eqn:Hloop.
  injection Hrun as -> -> <-.
  apply chunks_post in Hloop.
  destruct Hloop as (F1 & F2 & F3 & F4 & Hrm & _ & _ & Hok).
  destruct (Hok eq_refl) as (K1 & _ & _ & K4 & K5).
  change (zmin (normalized s)) with (zmin s) in *.
  change (output_filename (normalized s)) with (output_filename s) in *.
  specialize (K5 Hne). rewrite Hsum in K1.
  (* the state of the second run *)
  assert (Hnorm : normalized s1 = s1) by (apply (normalized_fixed s), F1).
  assert (Hf1 : first_input host s1 = Ok f).
  { rewrite (first_input_same_table host (normalized s) s1 F1).
    unfold first_input. rewrite first_name_normalized. exact Hf. }
  pose proof (output_shape_eval host s1 f Hf1 Hlen) as Hsh1.
  rewrite K5 in Hsh1. cbv zeta in Hsh1. rewrite Z.sub_diag in Hsh1.
  pose proof (output_shape_eval host s f Hf Hlen) as Hsh0.
  cbv zeta in Hsh0.
  assert (Hext : full_height (fm s1) = full_height (fm s) /\
                 full_width (fm s1) = full_width (fm s))
    by (rewrite F1; split; reflexivity).
  destruct Hext as [Hfh Hfw]. rewrite Hfh, Hfw in Hsh1.
  assert (Hn2 : n_frames_in_ram host s1 = Ok n).
  { rewrite <- Hn. unfold n_frames_in_ram, xy_size.
    rewrite Hsh1, Hsh0. reflexivity. }
  assert (Hpt0 : partial_thickness 0 n = Ok []).
  { rewrite partial_thickness_eval by lia.
    rewrite Z.div_0_l, Z.mod_0_l by lia. reflexivity. }
  destruct (run_reaches_loop host s1 _ 0 n [] Hsh1 eq_refl Hn2 Hpt0)
    as (total2 & _ & Hev2).
  change (run host s1
          = (Ok tt, normalized s1, [Remove (output_filename s1)])) in Hev2.
  rewrite Hnorm, F4 in Hev2.
  repeat apply conj.
  - exact K1.
  - exact K5.
  - intros Heq. rewrite Heq in K1. lia.
  - intros file. cbn [file_after foldl].
    change (foldl _ None t0) with (file_after t0 None).
    rewrite (file_after_no_remove t0 None Hrm).
    destruct (appends t0) as [|a l] eqn:Hap.
    + cbn in K4. destruct pt; [contradiction | discriminate].
    + eexists. split; [reflexivity | discriminate].
  - eexists. split; [exact Hsh1 | reflexivity].
  - exact Hev2.
  - intros file. rewrite Hev2. cbn [snd].
    unfold file_after. rewrite foldl_app. reflexivity.
Qed.

Lemma run_consumes_window_witness :
  let s1 := (run Examples.host4 Examples.ten_planes).1.2 in
  zmin s1 = 0 + 10 /\
  zmax s1 = Some (zmin s1) /\
  run Examples.host4 s1 = (Ok tt, s1, [Remove "fused.tif"]).
Proof.
  intros s1.
  destruct (run Examples.host4 Examples.ten_planes) as [[r s'] t] eqn:Hr.
  assert (Hok : r = Ok tt).
  { change r with (r, s', t).1.1. rewrite <- Hr. vm_compute. reflexivity. }
  subst r. cbn [fst snd] in s1. subst s1.
  destruct (run_consumes_window Examples.host4 Examples.ten_planes s' t
              Examples.stack_file [10; 64; 64] 10 4)
    as (H1 & H2 & _ & _ & _ & H3 & _).
  - reflexivity.
  - cbn. lia.
  - reflexivity.
  - reflexivity.
  - reflexivity.
  - lia.
  - lia.
  - exact Hr.
  - repeat apply conj; assumption.
Defined.

(** C10, as stated, fails for a window that is empty from the start with
    no upper bound set: the run over depth 0 succeeds, [zmax] stays unset
    instead of being equal to [zmin], and running again does the same. *)
Lemma run_on_exhausted_window :
  output_shape Examples.host4 Examples.exhausted = Ok [0; 64; 64] /\
  run Examples.host4 Examples.exhausted
  = (Ok tt, Examples.exhausted, [Remove "fused.tif"]) /\
  zmax Examples.exhausted = None /\
  zmin Examples.exhausted = 10.
Proof. vm_compute. repeat split. Qed.


(** * Further properties of the runner *)

(** ** The chunk, case by case *)

Lemma chunk_eval host bt th s :
  chunk host bt th s =
    let b := zmin s + th in
    let s1 := set_zmax (Some b) s in
    match output_shape host s1 with
    | Raise e => (Raise e, s1, [Assign_zmax b])
    | Ok sh =>
        if forallb (fun d => bool_decide (0 <= d)) sh then
          let '(r, _, t1) :=
            for_each (tile_step host) (data_frame (fm s)) s1 in
          let pre := Assign_zmax b :: Zeros sh :: ThreadStart :: t1 in
          match r with
          | Raise e => (Raise e, s1, pre)
          | Ok _ =>
              match is_multichannel host s1 with
              | Raise e => (Raise e, s1, pre ++ [Put None; ThreadJoin])
              | Ok mc =>
                  match (if mc : bool then Numpy.moveaxis_m3_last sh
                         else Ok sh) with
                  | Raise e => (Raise e, s1, pre ++ [Put None; ThreadJoin])
                  | Ok sh' =>
                      match runner_dtype host s1 with
                      | Raise e =>
                          (Raise e, s1, pre ++ [Put None; ThreadJoin])
                      | Ok dt =>
                          (Ok tt, set_zmin b s1,
                           pre ++ [Put None; ThreadJoin;
                                   Imsave (output_filename s) sh' dt bt;
                                   Assign_zmin b])
                      end
                  end
              end
          end
        else (Raise ValueError, s1, [Assign_zmax b])
    end.
Proof.
  unfold chunk, np_zeros, bind, get, modify, emit, lift. cbv zeta.
  set (s1 := set_zmax (Some (zmin s + th)) s).
  destruct (output_shape host s1) as [sh|e]; [|reflexivity].
  destruct (forallb _ sh); [|reflexivity].
  cbv beta iota zeta.
  destruct (tiles_loop host (data_frame (fm s1)) s1) as (r1 & t1 & Hloop & _).
  change (data_frame (fm s)) with (data_frame (fm s1)).
  rewrite Hloop.
  destruct r1 as [[]|e]; [|reflexivity].
  destruct (is_multichannel host s1) as [mc|e];
    [|cbn [app]; try reflexivity].
  destruct (if mc then Numpy.moveaxis_m3_last sh else Ok sh) as [sh'|e];
    [|cbn [app]; try reflexivity].
  destruct (runner_dtype host s1) as [dt|e];
    [|cbn [app]; try reflexivity].
  reflexivity.
Qed.


(** ** Which frames a tile contributes *)

Lemma tile_placements_eval host row s zm :
  zmax s = Some zm ->
  let z_to := Z.min (zm - Zs row) (nfrms row) in
  let z_from := Z.max (zmin s - Zs row) 0 in
  forall p,
    p ∈ placements (tile_step host row s).2 ->
    ~ (z_to <= 0 \/ z_from >= z_to) /\
    is_Some (input_files host !! os_path_join (path s) (name row)) /\
    p = {| pl_index := name row; pl_from := z_from; pl_to := z_to;
           top_left := [Zs row + z_from - zmin s; Ys row; Xs row];
           pl_overlaps :=
             clip_overlaps (overlaps (fm s) (name row)) z_from z_to |}.
Proof.
  intros Hz z_to z_from p.
  pose proof (tile_step_eval host row s) as Hev. cbn zeta in Hev.
  rewrite Hz in Hev. fold z_to z_from in Hev. rewrite Hev. clear Hev.
  case_bool_decide as Hskip; [intros H; inversion H|].
  destruct (input_files host !! _) as [f|]; [|intros H; inversion H].
  cbn [snd]. intros Hp.
  assert (Hp' : p ∈ [ {| pl_index := name row; pl_from := z_from;
                         pl_to := z_to;
                         top_left := [Zs row + z_from - zmin s;
                                      Ys row; Xs row];
                         pl_overlaps :=
                           clip_overlaps (overlaps (fm s) (name row))
                             z_from z_to |} ])
    by (destruct (debug s); exact Hp).
  apply list_elem_of_singleton in Hp'.
  split; [exact Hskip|]. split; [eauto | exact Hp'].
Qed.

Lemma tile_placements_some host row s zm :
  zmax s = Some zm ->
  is_Some (input_files host !! os_path_join (path s) (name row)) ->
  let z_to := Z.min (zm - Zs row) (nfrms row) in
  let z_from := Z.max (zmin s - Zs row) 0 in
  ~ (z_to <= 0 \/ z_from >= z_to) ->
  exists p, p ∈ placements (tile_step host row s).2 /\
            pl_from p = z_from /\ pl_to p = z_to.
Proof.
  intros Hz [f Hf] z_to z_from Hskip.
  pose proof (tile_step_eval host row s) as Hev. cbn zeta in Hev.
  rewrite Hz, Hf in Hev. fold z_to z_from in Hev. rewrite Hev. clear Hev.
  rewrite bool_decide_false by exact Hskip. cbn [snd].
  eexists. split.
  - destruct (debug s); cbn [app placements omap list_omap option_bind mbind];
      apply list_elem_of_here.
  - split; reflexivity.
Qed.

(** X1.  Inside a window [zmin, zmax) a tile whose file can be opened
    contributes its frame [k] exactly when [k] is a frame of the tile and
    its global plane [Zs + k] lies in the window; the frame then lands on
    the plane [Zs + k - zmin] of the chunk buffer. *)
Theorem tile_step_reads_frame host s row zm k :
  zmax s = Some zm ->
  is_Some (input_files host !! os_path_join (path s) (name row)) ->
  ((exists p, p ∈ placements (tile_step host row s).2 /\ covers p k) <->
   0 <= k < nfrms row /\ zmin s <= Zs row + k < zm) /\
  (forall p z,
     p ∈ placements (tile_step host row s).2 -> covers p k ->
     top_left p !! 0%nat = Some z ->
     z + (k - pl_from p) = Zs row + k - zmin s).
Proof.
  intros Hz Hread. split; [split|].
  - intros (p & Hp & Hk).
    destruct (tile_placements_eval host row s zm Hz p Hp) as (_ & _ & ->).
    unfold covers in Hk. cbn in Hk. lia.
  - intros Hk.
    destruct (tile_placements_some host row s zm Hz Hread ltac:(lia))
      as (p & Hp & Hfrom & Hto).
    exists p. split; [exact Hp|]. unfold covers. lia.
  - intros p z Hp Hk.
    destruct (tile_placements_eval host row s zm Hz p Hp) as (_ & _ & ->).
    cbn. intros [= <-]. lia.
Qed.

Lemma tile_step_reads_frame_witness :
  exists p,
    p ∈ placements (tile_step Examples.host4 (Examples.tile "a.tif" 0 0 0 10)
                      Examples.touching).2 /\
    covers p 2.
Proof.
  apply (proj1 (tile_step_reads_frame Examples.host4 Examples.touching
                  (Examples.tile "a.tif" 0 0 0 10) 4 2 eq_refl
                  ltac:(vm_compute; eauto))).
  cbn. lia.
Defined.

(** X2.  A placement never leaves its tile nor the chunk buffer along Z:
    the frames read are a non-empty range inside [0, nfrms), and the slice
    is placed on planes inside [0, zmax - zmin). *)
Theorem placement_inside_buffer host s row zm p :
  zmax s = Some zm ->
  p ∈ placements (tile_step host row s).2 ->
  0 <= pl_from p < pl_to p /\ pl_to p <= nfrms row /\
  exists z,
    top_left p = [z; Ys row; Xs row] /\
    0 <= z /\ z + (pl_to p - pl_from p) <= zm - zmin s.
Proof.
  intros Hz Hp.
  destruct (tile_placements_eval host row s zm Hz p Hp) as (Hskip & _ & ->).
  cbn. split; [lia|]. split; [lia|].
  eexists. split; [reflexivity|]. lia.
Qed.

Lemma placement_inside_buffer_witness :
  let p := {| pl_index := "a.tif"; pl_from := 0; pl_to := 4;
              top_left := [0; 0; 0];
              pl_overlaps := [ {| other := "b.tif"%string; Z_from := 4;
                                  Z_to := 8; rest := [] |} ] |} in
  0 <= pl_from p < pl_to p /\ pl_to p <= 10.
Proof.
  intros p.
  destruct (placement_inside_buffer Examples.host4 Examples.touching
              (Examples.tile "a.tif" 0 0 0 10) 4 p eq_refl) as (H1 & H2 & _).
  - change (p ∈ [p]). apply list_elem_of_here.
  - split; [exact H1 | exact H2].
Defined.


(** ** The trace of a chunk *)

Lemma chunk_trace_cases host bt th s r s' t :
  chunk host bt th s = (r, s', t) ->
  let b := zmin s + th in
  let s1 := set_zmax (Some b) s in
  (t = [Assign_zmax b] /\ s' = s1 /\ exists e, r = Raise e) \/
  exists sh r1 t1,
    output_shape host s1 = Ok sh /\
    Forall (fun d => 0 <= d) sh /\
    for_each (tile_step host) (data_frame (fm s)) s1 = (r1, s1, t1) /\
    Forall tile_event t1 /\
    let pre := Assign_zmax b :: Zeros sh :: ThreadStart :: t1 in
    ((t = pre /\ s' = s1 /\ exists e, r1 = Raise e /\ r = Raise e) \/
     (t = pre ++ [Put None; ThreadJoin] /\ s' = s1 /\ r1 = Ok tt /\
      exists e, r = Raise e) \/
     (exists sh' dt,
        t = pre ++ [Put None; ThreadJoin;
                    Imsave (output_filename s) sh' dt bt; Assign_zmin b] /\
        s' = set_zmin b s1 /\ r1 = Ok tt /\ r = Ok tt /\
        runner_dtype host s1 = Ok dt)).
Proof.
  rewrite chunk_eval. cbv zeta.
  set (b := zmin s + th). set (s1 := set_zmax (Some b) s).
  destruct (output_shape host s1) as [sh|e] eqn:Hsh.
  2: { intros [= <- <- <-]. left. eauto. }
  destruct (forallb _ sh) eqn:Hpos.
  2: { intros [= <- <- <-]. left. eauto. }
  assert (Hnn : Forall (fun d => 0 <= d) sh).
  { apply Forall_forall. intros d Hd.
    rewrite forallb_forall in Hpos.
    apply list_elem_of_In in Hd. specialize (Hpos d Hd).
    apply bool_decide_eq_true in Hpos. exact Hpos. }
  destruct (tiles_loop host (data_frame (fm s1)) s1) as (r1 & t1 & Hloop & Ht1).
  change (data_frame (fm s)) with (data_frame (fm s1)).
  rewrite Hloop.
  intros Hres. right. exists sh, r1, t1.
  split; [reflexivity|]. split; [exact Hnn|]. split; [reflexivity|].
  split; [exact Ht1|]. cbv zeta.
  destruct r1 as [[]|e].
  2: { injection Hres as <- <- <-. left. eauto. }
  destruct (is_multichannel host s1) as [mc|e].
  2: { injection Hres as <- <- <-. right. left. eauto. }
  destruct (if mc then Numpy.moveaxis_m3_last sh else Ok sh) as [sh'|e].
  2: { injection Hres as <- <- <-. right. left. eauto. }
  destruct (runner_dtype host s1) as [dt|e] eqn:Hdt.
  2: { injection Hres as <- <- <-. right. left. eauto. }
  injection Hres as <- <- <-. right. right. exists sh', dt.
  repeat apply conj; reflexivity.
Qed.

Lemma at_window_same_fields a b s s' :
  fm s' = fm s -> path s' = path s -> debug s' = debug s ->
  output_filename s' = output_filename s ->
  at_window a b s' = at_window a b s.
Proof.
  intros H1 H2 H3 H4. unfold at_window, set_zmax, set_zmin. cbn.
  rewrite H1, H2, H3, H4. reflexivity.
Qed.

(** The placements of the whole loop over the chunks, window by window and
    row by row. *)
Lemma chunks_placements host bt pt : forall s s' t,
  for_each (chunk host bt) pt s = (Ok tt, s', t) ->
  placements t =
    concat ((fun w : Z * Z =>
               concat ((fun row =>
                          placements
                            (tile_step host row (at_window w.1 w.2 s)).2)
                         <$> data_frame (fm s)))
              <$> windows (zmin s) pt).
Proof.
  induction pt as [|th pt IH]; intros s s' t.
  - intros [= <- <-]. reflexivity.
  - cbn [for_each]. unfold bind.
    destruct (chunk host bt th s) as [[r1 s1] t1] eqn:Hchunk.
    pose proof (chunk_post host bt th s _ _ _ Hchunk)
      as (F1 & F2 & F3 & F4 & _ & _ & _ & _ & Hr).
    apply chunk_trace_cases in Hchunk. cbv zeta in Hchunk.
    destruct r1 as [[]|e]; [|discriminate].
    destruct Hchunk as [(_ & _ & e & He) | Hchunk]; [discriminate|].
    destruct Hchunk as (sh & r0 & t0 & _ & _ & Hloop & _ & Hcases).
    destruct Hcases as [(_ & _ & e & _ & He) | [(_ & _ & _ & e & He) | Hok]];
      try discriminate.
    destruct Hok as (sh' & dt & -> & _ & -> & _ & _).
    destruct (for_each (chunk host bt) pt s1) as [[r2 s2] t2] eqn:Hrest.
    intros [= -> -> <-].
    apply IH in Hrest. destruct Hr as (Hzn & _).
    match goal with
    | |- placements ?l = _ =>
        change l with
          (([Assign_zmax (zmin s + th); Zeros sh; ThreadStart] ++ t0
            ++ [Put None; ThreadJoin; Imsave (output_filename s) sh' dt bt;
                Assign_zmin (zmin s + th)]) ++ t2)
    end.
    unfold placements at 1. rewrite !omap_app.
    change (omap _ t0) with (placements t0).
    change (omap _ t2) with (placements t2).
    cbn [omap list_omap option_bind mbind app].
    cbn [windows fmap list_fmap concat fst snd].
    rewrite app_nil_r.
    f_equal.
    + apply (tiles_loop_placements host _ _ _ Hloop).
    + rewrite Hrest, Hzn, F1.
      f_equal. apply list_fmap_ext. intros _ w _. f_equal.
      apply list_fmap_ext. intros _ row _.
      rewrite (at_window_same_fields _ _ s s1 F1 F2 F3 F4). reflexivity.
Qed.

Lemma windows_inside z pt j a b :
  Forall (fun th => 0 < th) pt ->
  windows z pt !! j = Some (a, b) ->
  z <= a /\ a < b /\ b <= z + sum_list pt.
Proof.
  intros Hall. revert z j.
  induction Hall as [|th pt Hth Hall IH]; intros z j; [discriminate|].
  assert (Hs : 0 <= sum_list pt).
  { clear -Hall. unfold sum_list.
    induction Hall as [|x l Hx _ IHl]; cbn; lia. }
  unfold sum_list in *. cbn [windows foldr].
  destruct j as [|j].
  - intros [= <- <-]. lia.
  - rewrite lookup_cons_S. intros Hj. specialize (IH _ _ Hj). lia.
Qed.

Lemma windows_partition z pt g :
  Forall (fun th => 0 < th) pt ->
  z <= g < z + sum_list pt ->
  exists j a b,
    windows z pt !! j = Some (a, b) /\ a <= g < b /\
    forall j' a' b',
      windows z pt !! j' = Some (a', b') -> a' <= g < b' -> j' = j.
Proof.
  intros Hall. revert z.
  induction Hall as [|th pt Hth Hall IH]; intros z Hg.
  - unfold sum_list in Hg. cbn in Hg. lia.
  - unfold sum_list in Hg. cbn [foldr] in Hg. fold (sum_list pt) in Hg.
    cbn [windows].
    destruct (decide (g < z + th)) as [Hlt|Hge].
    + exists 0%nat, z, (z + th). split; [reflexivity|]. split; [lia|].
      intros [|j'] a' b'; [reflexivity|].
      rewrite lookup_cons_S. intros Hj Hin.
      pose proof (windows_inside _ _ _ _ _ Hall Hj). lia.
    + destruct (IH (z + th) ltac:(lia)) as (j & a & b & Hj & Hin & Huniq).
      exists (S j), a, b. split; [exact Hj|]. split; [exact Hin|].
      intros [|j'] a' b'.
      * intros [= <- <-] Hin'. lia.
      * rewrite lookup_cons_S. intros Hj' Hin'. f_equal. eauto.
Qed.


Lemma getitem_first_inv {A} (l : list A) (x : A) :
  getitem l 0 = Ok x -> l !! 0%nat = Some x.
Proof.
  unfold getitem, norm_index.
  repeat case_bool_decide; try discriminate; try lia.
  change (Z.to_nat 0) with 0%nat.
  destruct (l !! 0%nat); [intros [= ->]; reflexivity | discriminate].
Qed.

(** X3.  In a run that completes, the queue receives exactly the placements
    of the tile loop executed once per chunk window, chunk after chunk and
    inside a chunk in the order of the table; the windows are the
    consecutive windows of the thickness partition, starting at [zmin]. *)
Theorem run_queue_contents host s s' t :
  run host s = (Ok tt, s', t) ->
  exists sh depth n pt,
    output_shape host s = Ok sh /\
    sh !! 0%nat = Some depth /\
    n_frames_in_ram host s = Ok n /\
    partial_thickness depth n = Ok pt /\
    placements t =
      concat ((fun w : Z * Z =>
                 concat ((fun row =>
                            placements
                              (tile_step host row
                                 (at_window w.1 w.2 (normalized s))).2)
                           <$> data_frame (fm (normalized s))))
                <$> windows (zmin s) pt).
Proof.
  rewrite run_eval. cbv zeta.
  rewrite total_byte_size_normalized, n_frames_normalized,
    output_shape_normalized.
  destruct (total_byte_size host s) as [total|]; [|discriminate].
  destruct (n_frames_in_ram host s) as [n|] eqn:Hn; [|discriminate].
  destruct (output_shape host s) as [sh|] eqn:Hsh; [|discriminate].
  destruct (getitem sh 0) as [depth|] eqn:Hd; [|discriminate].
  destruct (partial_thickness depth n) as [pt|] eqn:Hpt; [|discriminate].
  destruct (for_each _ pt (normalized s)) as [[r1 s1] t1] eqn:Hloop.
  intros [= -> -> <-].
  exists sh, depth, n, pt.
  split; [reflexivity|]. split; [apply getitem_first_inv, Hd|].
  split; [reflexivity|]. split; [exact Hpt|].
  apply (chunks_placements host _ pt _ _ _ Hloop).
Qed.

Lemma run_queue_contents_witness :
  length (placements (run Examples.host4 Examples.ten_planes).2) = 3%nat.
Proof.
  destruct (run Examples.host4 Examples.ten_planes) as [[r s'] t] eqn:Hr.
  assert (Hok : r = Ok tt).
  { change r with (r, s', t).1.1. rewrite <- Hr. vm_compute. reflexivity. }
  subst r.
  destruct (run_queue_contents Examples.host4 Examples.ten_planes s' t Hr)
    as (sh & depth & n & pt & Hsh & Hd & Hn & Hpt & Hq).
  cbn [snd]. rewrite Hq.
  assert (Hsh' : sh = [10; 64; 64]) by (vm_compute in Hsh; congruence).
  subst sh. injection Hd as <-.
  assert (Hn' : n = 4) by (vm_compute in Hn; congruence).
  subst n. injection Hpt as <-. vm_compute. reflexivity.
Defined.

Lemma window_reads_iff host s row a b k :
  is_Some (input_files host !! os_path_join (path s) (name row)) ->
  (exists p, p ∈ placements (tile_step host row (at_window a b s)).2 /\
             covers p k) <->
  0 <= k < nfrms row /\ a <= Zs row + k < b.
Proof.
  intros Hread. split.
  - intros (p & Hp & Hk).
    destruct (tile_placements_eval host row (at_window a b s) b eq_refl p Hp)
      as (_ & _ & ->).
    unfold covers in Hk. cbn in Hk. lia.
  - intros Hk.
    destruct (tile_placements_some host row (at_window a b s) b eq_refl Hread)
      as (p & Hp & Hfrom & Hto); [cbn; lia|].
    exists p. split; [exact Hp|]. unfold covers. cbn in Hfrom, Hto. lia.
Qed.

(** X4.  Over the chunk windows of a partition, a tile whose file can be
    opened has each frame whose global plane lies in [zmin, zmin + D) read
    in exactly one chunk, and no other frame is read in any chunk. *)
Theorem every_frame_read_once host s row depth n pt k :
  partial_thickness depth n = Ok pt ->
  1 <= n ->
  0 <= depth ->
  is_Some (input_files host !! os_path_join (path s) (name row)) ->
  let reads := fun w : Z * Z =>
    exists p, p ∈ placements (tile_step host row (at_window w.1 w.2 s)).2 /\
              covers p k in
  (0 <= k < nfrms row /\ zmin s <= Zs row + k < zmin s + depth ->
   exists j w,
     windows (zmin s) pt !! j = Some w /\ reads w /\
     forall j' w',
       windows (zmin s) pt !! j' = Some w' -> reads w' -> j' = j) /\
  (forall j w,
     windows (zmin s) pt !! j = Some w -> reads w ->
     0 <= k < nfrms row /\ zmin s <= Zs row + k < zmin s + depth).
Proof.
  intros Hpt Hn Hd Hread reads.
  destruct (partial_thickness_sum depth n pt Hn Hd Hpt) as (Hsum & Hall).
  assert (Hpos : Forall (fun th => 0 < th) pt).
  { eapply Forall_impl; [exact Hall|]. cbn. intros; lia. }
  split.
  - intros (Hk & Hg).
    destruct (windows_partition (zmin s) pt (Zs row + k) Hpos ltac:(lia))
      as (j & a & b & Hj & Hin & Huniq).
    exists j, (a, b). split; [exact Hj|]. split.
    + apply window_reads_iff; [exact Hread|]. cbn. lia.
    + intros j' [a' b'] Hj' Hr'.
      apply window_reads_iff in Hr'; [|exact Hread]. cbn in Hr'.
      apply (Huniq j' a' b' Hj'). lia.
  - intros j [a b] Hj Hr.
    apply window_reads_iff in Hr; [|exact Hread]. cbn in Hr.
    pose proof (windows_inside _ _ _ _ _ Hpos Hj). lia.
Qed.

Lemma every_frame_read_once_witness :
  exists j w,
    windows 0 [4; 4; 2] !! j = Some w /\
    exists p,
      p ∈ placements (tile_step Examples.host4
                        (Examples.tile "a.tif" 0 0 0 10)
                        (at_window w.1 w.2 Examples.ten_planes)).2 /\
      covers p 5.
Proof.
  destruct (every_frame_read_once Examples.host4 Examples.ten_planes
              (Examples.tile "a.tif" 0 0 0 10) 10 4 [4; 4; 2] 5)
    as [Hex _].
  - reflexivity.
  - lia.
  - lia.
  - vm_compute. eauto.
  - destruct Hex as (j & w & Hj & Hr & _); [cbn; lia|].
    exists j, w. split; [exact Hj | exact Hr].
Defined.


(** ** What a run does to the output file *)

(** X5.  Whatever its outcome, [run] either raises before it has done
    anything, or removes the output file first and never again: the removal
    happens once, before any buffer is allocated, and every append goes to
    the file that was removed. *)
Theorem run_removes_output_once host s :
  let r := (run host s).1.1 in
  let t := (run host s).2 in
  (t = [] /\ is_ok r = false /\ (run host s).1.2 = normalized s) \/
  (exists t',
     t = Remove (output_filename s) :: t' /\
     (forall f, Remove f ∉ t') /\
     (forall f sh dt b, Imsave f sh dt b ∈ t' -> f = output_filename s)).
Proof.
  rewrite run_eval. cbv zeta.
  destruct (total_byte_size host (normalized s)); [|left; repeat split].
  destruct (n_frames_in_ram host (normalized s)); [|left; repeat split].
  destruct (output_shape host (normalized s)) as [sh|];
    [|left; repeat split].
  destruct (getitem sh 0); [|left; repeat split].
  destruct (partial_thickness _ _) as [pt|]; [|left; repeat split].
  destruct (for_each _ pt (normalized s)) as [[r1 s1] t1] eqn:Hloop.
  apply chunks_post in Hloop.
  destruct Hloop as (_ & _ & _ & _ & Hrm & Him & _).
  right. exists t1. split; [reflexivity|]. split; [exact Hrm|].
  intros f sh' dt b Hin. apply (Him f sh' dt b Hin).
Qed.

(** ** A tile that cannot be read *)

Lemma tiles_loop_fail host rows s zm :
  zmax s = Some zm ->
  (exists row,
     row ∈ rows /\
     ~ (Z.min (zm - Zs row) (nfrms row) <= 0 \/
        Z.max (zmin s - Zs row) 0 >= Z.min (zm - Zs row) (nfrms row)) /\
     input_files host !! os_path_join (path s) (name row) = None) ->
  exists t,
    for_each (tile_step host) rows s = (Raise FileNotFoundError, s, t) /\
    Forall tile_event t.
Proof.
  intros Hz. induction rows as [|row rows IH].
  - intros (bad & Hin & _). inversion Hin.
  - intros (bad & Hin & Hbad & Hnone).
    cbn [for_each]. unfold bind.
    pose proof (tile_step_eval host row s) as Hev. cbn zeta in Hev.
    rewrite Hz in Hev. rewrite Hev. clear Hev.
    apply elem_of_cons in Hin.
    case_bool_decide as Hskip.
    + destruct Hin as [-> | Hin]; [contradiction|].
      destruct (IH (ex_intro _ bad (conj Hin (conj Hbad Hnone))))
        as (t & -> & Ht).
      exists t. split; [reflexivity | exact Ht].
    + destruct (input_files host !! os_path_join (path s) (name row))
        as [f|] eqn:Hf.
      * destruct Hin as [-> | Hin]; [congruence|].
        destruct (IH (ex_intro _ bad (conj Hin (conj Hbad Hnone))))
          as (t & -> & Ht).
        eexists. split; [reflexivity|].
        constructor; [exact I|].
        apply Forall_app. split; [|exact Ht].
        apply Forall_app. split; [destruct (debug s)|]; repeat constructor.
      * exists []. split; [reflexivity | constructor].
Qed.

(** X6.  When the buffer of a chunk can be allocated but a tile that
    intersects the chunk cannot be opened, the chunk raises
    [FileNotFoundError] after the consumer thread was started: no closing
    item is queued, the thread is not joined, nothing is appended, [zmin]
    is not advanced, and [zmax] keeps the upper bound of the failed
    chunk. *)
Theorem unreadable_tile_aborts_chunk host bt th s sh :
  output_shape host (set_zmax (Some (zmin s + th)) s) = Ok sh ->
  Forall (fun d => 0 <= d) sh ->
  (exists row,
     row ∈ data_frame (fm s) /\
     ~ (Z.min (zmin s + th - Zs row) (nfrms row) <= 0 \/
        Z.max (zmin s - Zs row) 0
        >= Z.min (zmin s + th - Zs row) (nfrms row)) /\
     input_files host !! os_path_join (path s) (name row) = None) ->
  exists t,
    chunk host bt th s
    = (Raise FileNotFoundError, set_zmax (Some (zmin s + th)) s, t) /\
    ThreadStart ∈ t /\
    (Put None ∉ t) /\
    (ThreadJoin ∉ t) /\
    appends t = [] /\
    zmin_writes t = [].
Proof.
  intros Hsh Hdims Hbad.
  destruct (tiles_loop_fail host (data_frame (fm s))
              (set_zmax (Some (zmin s + th)) s) (zmin s + th) eq_refl Hbad)
    as (t1 & Hloop & Ht1).
  rewrite chunk_eval. cbv zeta. rewrite Hsh.
  rewrite (forallb_nonneg sh Hdims), Hloop.
  eexists. split; [reflexivity|].
  destruct (tile_event_no_writes t1 Ht1) as (W1 & _ & W3 & _).
  assert (Hnot : forall e, ~ tile_event e -> e ∉ t1).
  { intros e He Hin. rewrite Forall_forall in Ht1. apply He, Ht1, Hin. }
  repeat apply conj.
  - do 2 apply list_elem_of_further. apply list_elem_of_here.
  - rewrite !elem_of_cons. intros [H|[H|[H|H]]]; try discriminate.
    revert H. apply Hnot. intros [].
  - rewrite !elem_of_cons. intros [H|[H|[H|H]]]; try discriminate.
    revert H. apply Hnot. intros [].
  - exact W3.
  - exact W1.
Qed.

Lemma unreadable_tile_aborts_chunk_witness :
  exists t,
    chunk Examples.host4 false 4
      (Examples.runner [Examples.tile "a.tif" 0 0 0 10;
                        Examples.tile "missing.tif" 0 0 0 10] 10 0 None)
    = (Raise FileNotFoundError,
       Examples.runner [Examples.tile "a.tif" 0 0 0 10;
                        Examples.tile "missing.tif" 0 0 0 10] 10 0 (Some 4),
       t) /\
    Put None ∉ t.
Proof.
  destruct (unreadable_tile_aborts_chunk Examples.host4 false 4
              (Examples.runner [Examples.tile "a.tif" 0 0 0 10;
                                Examples.tile "missing.tif" 0 0 0 10]
                 10 0 None) [4; 64; 64])
    as (t & Hrun & _ & Hput & _).
  - reflexivity.
  - repeat constructor; lia.
  - exists (Examples.tile "missing.tif" 0 0 0 10). split.
    + apply list_elem_of_further, list_elem_of_here.
    + split; [cbn; lia | reflexivity].
  - exists t. split; [exact Hrun | exact Hput].
Defined.


(** ** The protocol of a chunk *)

(** X7.  A chunk that completes has done, in this order: set [zmax],
    allocated one buffer of the output shape of the window, started the
    consumer, queued and read only tile slices, queued the closing item,
    joined the consumer, appended once to the output file, advanced
    [zmin].  The appended shape is the buffer shape, with the channel axis
    moved last for multichannel data. *)
Theorem completed_chunk_protocol host bt th s s' t :
  chunk host bt th s = (Ok tt, s', t) ->
  let b := zmin s + th in
  exists sh sh' dt tiles mc,
    output_shape host (at_window (zmin s) b s) = Ok sh /\
    Forall (fun d => 0 <= d) sh /\
    Forall tile_event tiles /\
    is_multichannel host s = Ok mc /\
    (if mc : bool then Numpy.moveaxis_m3_last sh else Ok sh) = Ok sh' /\
    runner_dtype host s = Ok dt /\
    t = [Assign_zmax b; Zeros sh; ThreadStart] ++ tiles
        ++ [Put None; ThreadJoin; Imsave (output_filename s) sh' dt bt;
            Assign_zmin b] /\
    s' = at_window b b s.
Proof.
  rewrite chunk_eval. cbv zeta.
  change (set_zmax (Some (zmin s + th)) s)
    with (at_window (zmin s) (zmin s + th) s).
  set (s1 := at_window (zmin s) (zmin s + th) s).
  destruct (output_shape host s1) as [sh|e] eqn:Hsh; [|discriminate].
  destruct (forallb _ sh) eqn:Hpos; [|discriminate].
  assert (Hnn : Forall (fun d => 0 <= d) sh).
  { apply Forall_forall. intros d Hd.
    rewrite forallb_forall in Hpos.
    apply list_elem_of_In in Hd. specialize (Hpos d Hd).
    apply bool_decide_eq_true in Hpos. exact Hpos. }
  destruct (tiles_loop host (data_frame (fm s1)) s1) as (r1 & t1 & Hloop & Ht1).
  change (data_frame (fm s)) with (data_frame (fm s1)). rewrite Hloop.
  destruct r1 as [[]|e]; [|discriminate].
  change (is_multichannel host s1) with (is_multichannel host s).
  change (runner_dtype host s1) with (runner_dtype host s).
  destruct (is_multichannel host s) as [mc|e]; [|discriminate].
  destruct (if mc then Numpy.moveaxis_m3_last sh else Ok sh) as [sh'|e]
    eqn:Hmv; [|discriminate].
  destruct (runner_dtype host s) as [dt|e]; [|discriminate].
  intros [= <- <-].
  exists sh, sh', dt, t1, mc. repeat apply conj; try reflexivity; assumption.
Qed.

Lemma completed_chunk_protocol_witness :
  (chunk Examples.host4 false 4 Examples.ten_planes).2
  = [Assign_zmax 4; Zeros [4; 64; 64]; ThreadStart;
     ReadSlice "a.tif" 0 4;
     Put (Some {| pl_index := "a.tif"; pl_from := 0; pl_to := 4;
                  top_left := [0; 0; 0]; pl_overlaps := [] |});
     Put None; ThreadJoin;
     Imsave "fused.tif" [4; 64; 64] Numpy.uint16 false; Assign_zmin 4].
Proof.
  destruct (chunk Examples.host4 false 4 Examples.ten_planes)
    as [[r s'] t] eqn:Hc.
  assert (Hok : r = Ok tt).
  { change r with (r, s', t).1.1. rewrite <- Hc. vm_compute. reflexivity. }
  subst r.
  destruct (completed_chunk_protocol _ _ _ _ _ _ Hc)
    as (sh & sh' & dt & tiles & mc & _ & _ & _ & _ & _ & _ & Ht & _).
  cbn [snd]. change t with (Ok tt, s', t).2. rewrite <- Hc.
  vm_compute. reflexivity.
Defined.

(** ** The memory budget *)

Lemma zeros_in_chunk_trace sh sh0 b t0 tl :
  Zeros sh ∉ t0 -> Zeros sh ∉ tl ->
  Zeros sh ∈ (Assign_zmax b :: Zeros sh0 :: ThreadStart :: t0) ++ tl ->
  sh = sh0.
Proof.
  intros H0 Hl. rewrite elem_of_app, !elem_of_cons.
  intros [[H|[H|[H|H]]]|H]; try discriminate; try contradiction.
  injection H as ->. reflexivity.
Qed.

Lemma chunks_zeros host bt pt : forall s r s' t sh,
  for_each (chunk host bt) pt s = (r, s', t) ->
  Zeros sh ∈ t ->
  exists th a,
    th ∈ pt /\ output_shape host (at_window a (a + th) s) = Ok sh.
Proof.
  induction pt as [|th pt IH]; intros s r s' t sh.
  - intros [= <- <- <-] H. inversion H.
  - cbn [for_each]. unfold bind.
    destruct (chunk host bt th s) as [[r1 s1] t1] eqn:Hchunk.
    pose proof (chunk_post host bt th s _ _ _ Hchunk)
      as (F1 & F2 & F3 & F4 & _).
    assert (Hz1 : Zeros sh ∈ t1 ->
                  output_shape host (at_window (zmin s) (zmin s + th) s)
                  = Ok sh).
    { apply chunk_trace_cases in Hchunk. cbv zeta in Hchunk.
      destruct Hchunk as [(-> & _) | Hchunk].
      { rewrite list_elem_of_singleton. discriminate. }
      destruct Hchunk as (sh0 & r0 & t0 & Hsh0 & _ & _ & Ht0 & Hcases).
      assert (Hno : Zeros sh ∉ t0)
        by (apply (tile_event_no_writes t0 Ht0)).
      intros Hin.
      assert (Heq : sh = sh0).
      { destruct Hcases as [(-> & _) | [(-> & _) | (sh' & dt & -> & _)]].
        - rewrite <- (app_nil_r (_ :: _)) in Hin.
          apply (zeros_in_chunk_trace _ _ _ _ _ Hno) in Hin;
            [exact Hin | apply not_elem_of_nil].
        - apply (zeros_in_chunk_trace _ _ _ _ _ Hno) in Hin; [exact Hin|].
          intros H.
          repeat (apply elem_of_cons in H; destruct H as [H|H];
                  [discriminate|]).
          inversion H.
        - apply (zeros_in_chunk_trace _ _ _ _ _ Hno) in Hin; [exact Hin|].
          intros H.
          repeat (apply elem_of_cons in H; destruct H as [H|H];
                  [discriminate|]).
          inversion H. }
      subst sh0. exact Hsh0. }
    destruct r1 as [[]|e].
    + destruct (for_each (chunk host bt) pt s1) as [[r2 s2] t2] eqn:Hrest.
      intros [= <- <- <-]. rewrite elem_of_app. intros [Hin | Hin].
      * exists th, (zmin s). split; [apply list_elem_of_here | auto].
      * destruct (IH _ _ _ _ _ Hrest Hin) as (th' & a & Hth & Hsh).
        exists th', a. split; [apply list_elem_of_further, Hth|].
        rewrite <- (at_window_same_fields _ _ s s1 F1 F2 F3 F4). exact Hsh.
    + intros [= <- <- <-] Hin.
      exists th, (zmin s). split; [apply list_elem_of_here | auto].
Qed.

(** X8.  With a first tile of at least three axes, a usable budget
    [n >= 1] and a depth [D >= 0], every buffer that [run] allocates,
    whatever the outcome of the run, is at least one and at most [n] planes
    deep and has the extents of the full output in every other axis. *)
Theorem buffers_fit_the_budget host s f shape0 depth n sh :
  first_input host s = Ok f ->
  (3 <= length (shape f))%nat ->
  output_shape host s = Ok shape0 ->
  shape0 !! 0%nat = Some depth ->
  n_frames_in_ram host s = Ok n ->
  1 <= n ->
  0 <= depth ->
  Zeros sh ∈ (run host s).2 ->
  exists th,
    sh !! 0%nat = Some th /\ 1 <= th <= n /\ drop 1 sh = drop 1 shape0.
Proof.
  intros Hf Hlen Hsh0 Hd Hn Hn1 Hd0.
  pose proof (partial_thickness_eval depth n ltac:(lia)) as Hpt.
  destruct (partial_thickness_sum depth n _ Hn1 Hd0 Hpt) as (_ & Hall).
  set (pt := replicate _ _ ++ _) in *.
  destruct (run_reaches_loop host s shape0 depth n pt Hsh0 Hd Hn Hpt)
    as (total & _ & ->).
  destruct (for_each _ pt (normalized s)) as [[r1 s1] t1] eqn:Hloop.
  cbn [snd]. rewrite elem_of_cons. intros [Hin | Hin]; [discriminate|].
  destruct (chunks_zeros host _ pt _ _ _ _ sh Hloop Hin)
    as (th & a & Hth & Hsh).
  rewrite Forall_forall in Hall. specialize (Hall th Hth).
  assert (Hfa : first_input host (at_window a (a + th) (normalized s)) = Ok f).
  { change (first_input host (at_window a (a + th) (normalized s)))
      with (first_input host (normalized s)).
    unfold first_input. rewrite first_name_normalized. exact Hf. }
  pose proof (output_shape_eval host _ f Hfa Hlen) as Hev.
  cbv zeta in Hev. rewrite Hsh in Hev. injection Hev as ->.
  pose proof (output_shape_eval host s f Hf Hlen) as Hev0.
  cbv zeta in Hev0. rewrite Hsh0 in Hev0. injection Hev0 as ->.
  exists th. split; [cbn; f_equal; lia|]. split; [lia | reflexivity].
Qed.

Lemma buffers_fit_the_budget_witness :
  exists th, [2; 64; 64] !! 0%nat = Some th /\ 1 <= th <= 4.
Proof.
  destruct (buffers_fit_the_budget Examples.host4 Examples.ten_planes
              Examples.stack_file [10; 64; 64] 10 4 [2; 64; 64])
    as (th & Hth & Hle & _).
  - reflexivity.
  - cbn. lia.
  - reflexivity.
  - reflexivity.
  - reflexivity.
  - lia.
  - lia.
  - vm_compute. do 20 (try (apply list_elem_of_here));
      repeat (first [apply list_elem_of_here | apply list_elem_of_further]).
  - exists th. split; [exact Hth | exact Hle].
Defined.


(** ** Edge cases of the table and of the first tile *)

(** X9.  On an empty tile table [run] raises [IndexError], and when the
    file of the first tile cannot be opened it raises [FileNotFoundError];
    in both cases nothing has happened to the output file and the window
    is as it was. *)
Theorem run_needs_first_tile host s :
  (data_frame (fm s) = [] -> run host s = (Raise IndexError, s, [])) /\
  (forall row rows,
     data_frame (fm s) = row :: rows ->
     input_files host !! name row = None ->
     run host s = (Raise FileNotFoundError, normalized s, []) /\
     zmin (normalized s) = zmin s /\ zmax (normalized s) = zmax s).
Proof.
  split.
  - intros Hdf. rewrite run_eval. cbv zeta.
    rewrite total_byte_size_normalized.
    unfold total_byte_size, output_shape, first_input, first_name.
    rewrite Hdf. f_equal. f_equal.
    unfold normalized. rewrite Hdf. cbn [sub_min fmap list_fmap col_min].
    rewrite <- Hdf. apply set_data_frame_same.
  - intros row rows Hdf Hnone. split; [|split; reflexivity].
    rewrite run_eval. cbv zeta. rewrite total_byte_size_normalized.
    unfold total_byte_size, output_shape, first_input, first_name, open_input.
    rewrite Hdf, Hnone. reflexivity.
Qed.

Lemma run_needs_first_tile_witness :
  run Examples.host4 (Examples.runner [] 10 0 None)
  = (Raise IndexError, Examples.runner [] 10 0 None, []) /\
  run Examples.host4
    (Examples.runner [Examples.tile "missing.tif" 0 0 0 10] 10 0 None)
  = (Raise FileNotFoundError,
     Examples.runner [Examples.tile "missing.tif" 0 0 0 10] 10 0 None, []).
Proof.
  split.
  - apply (proj1 (run_needs_first_tile Examples.host4
                    (Examples.runner [] 10 0 None))).
    reflexivity.
  - apply (proj2 (run_needs_first_tile Examples.host4
                    (Examples.runner [Examples.tile "missing.tif" 0 0 0 10]
                       10 0 None))
             (Examples.tile "missing.tif" 0 0 0 10) []).
    + reflexivity.
    + reflexivity.
Defined.

Lemma setitem_out_of_range {A} (l : list A) (i : Z) (v : A) :
  ~ (- Z.of_nat (length l) <= i < Z.of_nat (length l)) ->
  setitem l i v = Raise IndexError.
Proof.
  intros Hi. unfold setitem, norm_index.
  repeat case_bool_decide; try lia. reflexivity.
Qed.

(** X10.  [output_shape] needs a first tile with at least two axes and
    raises [IndexError] otherwise.  For exactly two axes the depth written
    first is overwritten by the full height, so the result is
    [full_height, full_width] whatever the window; from three axes on and
    without an upper bound the depth is [full_thickness - zmin].  The tile
    origins play no part. *)
Theorem output_shape_edges host s f :
  first_input host s = Ok f ->
  ((length (shape f) < 2)%nat -> output_shape host s = Raise IndexError) /\
  (length (shape f) = 2%nat ->
   output_shape host s = Ok [full_height (fm s); full_width (fm s)]) /\
  ((3 <= length (shape f))%nat -> zmax s = None ->
   exists rest,
     output_shape host s = Ok ((full_thickness (fm s) - zmin s) :: rest) /\
     length rest = (length (shape f) - 1)%nat) /\
  output_shape host (normalized s) = output_shape host s.
Proof.
  intros Hf. repeat apply conj.
  - intros Hlen. unfold output_shape. rewrite Hf.
    destruct (shape f) as [|d0 [|d1 l]]; [reflexivity| |cbn in Hlen; lia].
    rewrite setitem_first.
    rewrite setitem_out_of_range by (cbn; lia). reflexivity.
  - intros Hlen. unfold output_shape. rewrite Hf.
    destruct (shape f) as [|d0 [|d1 [|d2 l]]]; try discriminate.
    reflexivity.
  - intros Hlen Hz.
    pose proof (output_shape_eval host s f Hf Hlen) as Hev.
    rewrite Hz in Hev. cbv zeta in Hev. rewrite Hev.
    eexists. split; [reflexivity|].
    rewrite length_app, length_take, length_drop. cbn. lia.
  - apply output_shape_normalized.
Qed.

Lemma output_shape_edges_witness :
  output_shape Examples.host4 Examples.ten_planes = Ok [10; 64; 64].
Proof.
  destruct (output_shape_edges Examples.host4 Examples.ten_planes
              Examples.stack_file eq_refl)
    as (_ & _ & H3 & _).
  destruct H3 as (rest & Hsh & _); [cbn; lia | reflexivity |].
  rewrite Hsh. f_equal. f_equal.
  assert (H : output_shape Examples.host4 Examples.ten_planes
              = Ok [10; 64; 64]) by reflexivity.
  rewrite Hsh in H. injection H as ->. reflexivity.
Defined.


(** ** The origins after normalisation *)

Lemma foldl_min_lower (l : list Z) : forall x,
  foldl Z.min x l <= x /\ Forall (fun y => foldl Z.min x l <= y) l.
Proof.
  induction l as [|y l IH]; intros x; cbn [foldl].
  - split; [lia | constructor].
  - destruct (IH (Z.min x y)) as [H1 H2]. split; [lia|].
    constructor; [lia | exact H2].
Qed.

Lemma col_min_lower (l : list Z) (m : Z) :
  col_min l = Some m -> Forall (fun y => m <= y) l.
Proof.
  destruct l as [|x l]; [discriminate|]. cbn. intros [= <-].
  destruct (foldl_min_lower l x) as [H1 H2].
  constructor; assumption.
Qed.

(** X11.  After [run], for a table that is not empty, the smallest [Xs],
    the smallest [Ys] and the smallest [Zs] are zero and no origin is
    negative; the offset between any two tiles is what it was when the
    table was loaded; and normalising once more changes nothing. *)
Theorem run_normalises_origins host s :
  let df := data_frame (fm s) in
  let s' := (run host s).1.2 in
  let df' := data_frame (fm s') in
  (df <> [] ->
   col_min (Xs <$> df') = Some 0 /\
   col_min (Ys <$> df') = Some 0 /\
   col_min (Zs <$> df') = Some 0) /\
  Forall (fun r => 0 <= Xs r /\ 0 <= Ys r /\ 0 <= Zs r) df' /\
  (forall i j r1 r2 r1' r2',
     df !! i = Some r1 -> df !! j = Some r2 ->
     df' !! i = Some r1' -> df' !! j = Some r2' ->
     Xs r1' - Xs r2' = Xs r1 - Xs r2 /\
     Ys r1' - Ys r2' = Ys r1 - Ys r2 /\
     Zs r1' - Zs r2' = Zs r1 - Zs r2) /\
  data_frame (fm (normalized s')) = df'.
Proof.
  intros df s' df'.
  destruct (run_final_table host s) as (Hfm & _).
  assert (Hdf : df' = shift_rows (default 0 (col_min (Xs <$> df)))
                        (default 0 (col_min (Ys <$> df)))
                        (default 0 (col_min (Zs <$> df))) df).
  { subst df' s'. rewrite Hfm. unfold normalized.
    cbn [set_data_frame fm data_frame]. apply normalized_rows. }
  repeat apply conj.
  - intros Hne. rewrite Hdf.
    rewrite (col_min_shift_rows Xs (default 0 (col_min (Xs <$> df)))),
      (col_min_shift_rows Ys (default 0 (col_min (Ys <$> df)))),
      (col_min_shift_rows Zs (default 0 (col_min (Zs <$> df))))
      by reflexivity.
    destruct df as [|r df0]; [contradiction|].
    cbn [fmap list_fmap col_min option_fmap option_map default].
    rewrite !Z.sub_diag. repeat split.
  - rewrite Hdf. unfold shift_rows. apply Forall_fmap.
    apply Forall_forall. intros r Hr. cbn.
    assert (Hlow : forall proj : Row -> Z,
               default 0 (col_min (proj <$> df)) <= proj r).
    { intros proj.
      destruct (col_min (proj <$> df)) as [m|] eqn:Hm.
      - pose proof (col_min_lower _ _ Hm) as Hall.
        rewrite Forall_forall in Hall. apply Hall.
        apply list_elem_of_fmap. exists r. split; [reflexivity | exact Hr].
      - destruct df; [inversion Hr | discriminate]. }
    pose proof (Hlow Xs). pose proof (Hlow Ys). pose proof (Hlow Zs). lia.
  - intros i j r1 r2 r1' r2' H1 H2. rewrite Hdf. unfold shift_rows.
    rewrite !list_lookup_fmap, H1, H2. cbn. intros [= <-] [= <-]. cbn. lia.
  - subst df' s'. rewrite (normalized_fixed s _ Hfm). reflexivity.
Qed.

(** ** The byte count and the large-file decision *)

Lemma wrap64_mod (z : Z) : Numpy.wrap64 z mod 2 ^ 64 = z mod 2 ^ 64.
Proof.
  unfold Numpy.wrap64.
  rewrite Zminus_mod_idemp_l. f_equal. lia.
Qed.

Lemma wrap64_congr (a b : Z) :
  a mod 2 ^ 64 = b mod 2 ^ 64 -> Numpy.wrap64 a = Numpy.wrap64 b.
Proof.
  intros H. unfold Numpy.wrap64.
  rewrite <- (Zplus_mod_idemp_l a), <- (Zplus_mod_idemp_l b), H.
  reflexivity.
Qed.

Lemma wrap64_in_range (z : Z) :
  - 2 ^ 63 <= z < 2 ^ 63 -> Numpy.wrap64 z = z.
Proof.
  intros Hz. unfold Numpy.wrap64.
  rewrite Z.mod_small by lia. lia.
Qed.

Lemma wrap64_mul (a x : Z) :
  Numpy.wrap64 (Numpy.wrap64 a * x) = Numpy.wrap64 (a * x).
Proof.
  apply wrap64_congr.
  rewrite <- Zmult_mod_idemp_l, wrap64_mod, Zmult_mod_idemp_l. reflexivity.
Qed.

Lemma prod_acc (l : list Z) : forall acc,
  foldl (fun a x => Numpy.wrap64 (a * x)) (Numpy.wrap64 acc) l
  = Numpy.wrap64 (acc * product l).
Proof.
  induction l as [|x l IH]; intros acc; cbn [foldl product foldr].
  - rewrite Z.mul_1_r. reflexivity.
  - rewrite wrap64_mul, IH. f_equal. fold (product l). lia.
Qed.

Lemma prod_wraps_product (l : list Z) :
  Numpy.prod l = Numpy.wrap64 (product l).
Proof.
  unfold Numpy.prod.
  change 1 with (Numpy.wrap64 1) at 1.
  rewrite prod_acc. f_equal. lia.
Qed.

(** X12.  The byte count that decides the file variant is the true product
    of the output shape and the item size reduced to 64 bits; whenever the
    true byte count fits 64 bits it is computed exactly, and then the
    classic variant is only chosen for less than 4080218932 bytes, below
    the 4 GiB limit, while every count of 4 GiB or more gets the large-file
    variant. *)
Theorem byte_count_is_exact host s sh dt :
  output_shape host s = Ok sh ->
  runner_dtype host s = Ok dt ->
  let bytes := product sh * Numpy.itemsize dt in
  total_byte_size host s = Ok (Numpy.wrap64 bytes) /\
  (- 2 ^ 63 <= bytes < 2 ^ 63 ->
   total_byte_size host s = Ok bytes /\
   (bigtiff_of bytes = false -> bytes < 4080218932 /\ bytes < 2 ^ 32) /\
   (2 ^ 32 <= bytes -> bigtiff_of bytes = true)).
Proof.
  intros Hsh Hdt bytes.
  assert (Htot : total_byte_size host s = Ok (Numpy.wrap64 bytes)).
  { unfold total_byte_size. rewrite Hsh, Hdt, prod_wraps_product, wrap64_mul.
    reflexivity. }
  split; [exact Htot|]. intros Hrange.
  rewrite Htot, (wrap64_in_range bytes Hrange).
  split; [reflexivity|].
  pose proof (bigtiff_of_ge bytes) as Hge. split.
  - intros Hfalse.
    assert (~ 4080218932 <= bytes)
      by (intros H; apply Hge in H; congruence).
    lia.
  - intros Hbig. apply Hge. lia.
Qed.

Lemma byte_count_is_exact_witness :
  total_byte_size Examples.host4 Examples.ten_planes = Ok 81920.
Proof.
  destruct (byte_count_is_exact Examples.host4 Examples.ten_planes
              [10; 64; 64] Numpy.uint16 eq_refl eq_refl) as (_ & Hex).
  destruct Hex as (Htot & _); [cbn; lia|]. exact Htot.
Defined.


(** ** The clipped overlaps *)

(** X13.  Every overlap forwarded with a slice comes from an overlap of the
    tile and differs from it only in [Z_from] and [Z_to]: its [Z_to] is the
    original one moved by [-z_from] and is not negative, its [Z_from] is
    not negative and not beyond the length of the slice, and the two stay
    in order when they were.  [Z_to] is not cut at the end of the slice. *)
Theorem clipped_overlap_bounds ovs z_from z_to :
  Forall (fun o' =>
            exists o,
              o ∈ ovs /\
              other o' = other o /\ rest o' = rest o /\
              Z_to o' = Z_to o - z_from /\
              0 <= Z_to o' /\
              0 <= Z_from o' <= Z.max 0 (z_to - z_from) /\
              (Z_from o <= Z_to o -> Z_from o' <= Z_to o'))
         (clip_overlaps ovs z_from z_to) /\
  (length (clip_overlaps ovs z_from z_to) <= length ovs)%nat.
Proof.
  rewrite clip_overlaps_eq. split.
  - apply Forall_fmap, Forall_forall. intros o Ho.
    apply list_elem_of_filter in Ho. destruct Ho as [[H1 H2] Ho].
    exists o. unfold shift_clamp. cbn. repeat apply conj; try reflexivity;
      try assumption; lia.
  - rewrite length_fmap. apply length_filter.
Qed.

(** ** Chunk thicknesses at the edges *)

Lemma ceil_div (d n : Z) :
  1 <= n -> 0 <= d ->
  d / n + (if bool_decide (d mod n <> 0) then 1 else 0) = (d + n - 1) / n.
Proof.
  intros Hn Hd.
  pose proof (Z.div_mod d n ltac:(lia)) as Hdm.
  pose proof (Z.mod_pos_bound d n ltac:(lia)) as Hmod.
  case_bool_decide as Hr.
  - apply (Z.div_unique _ _ _ (d mod n - 1)); lia.
  - apply (Z.div_unique _ _ _ (n - 1)); lia.
Qed.

(** X14.  A chunk size of zero makes the partition raise
    [ZeroDivisionError].  With a chunk size [n >= 1]: a depth of zero gives
    no chunk, a depth of at most [n] gives the single chunk [D], a depth
    [D >= 0] gives [ceil(D / n)] chunks, and a negative depth (an upper
    bound below [zmin]) still gives one chunk of thickness [D % n] unless
    [n] divides [D]. *)
Theorem partial_thickness_edges depth n :
  (n = 0 -> partial_thickness depth n = Raise ZeroDivisionError) /\
  (1 <= n ->
   (depth = 0 -> partial_thickness depth n = Ok []) /\
   (0 < depth <= n -> partial_thickness depth n = Ok [depth]) /\
   (0 <= depth ->
    exists pt, partial_thickness depth n = Ok pt /\
               Z.of_nat (length pt) = (depth + n - 1) / n) /\
   (depth < 0 ->
    partial_thickness depth n
    = Ok (if bool_decide (depth mod n <> 0) then [depth mod n] else []) /\
    0 <= depth mod n < n)).
Proof.
  split.
  - intros ->. unfold partial_thickness, floordiv.
    rewrite bool_decide_true by reflexivity. reflexivity.
  - intros Hn. rewrite partial_thickness_eval by lia.
    repeat apply conj.
    + intros ->. rewrite Z.div_0_l, Z.mod_0_l by lia. reflexivity.
    + intros Hd. destruct (decide (depth = n)) as [->|Hne].
      * rewrite Z.div_same, Z.mod_same by lia. reflexivity.
      * rewrite Z.div_small, Z.mod_small by lia.
        rewrite bool_decide_true by lia. reflexivity.
    + intros Hd. eexists. split; [reflexivity|].
      rewrite length_app, length_replicate, Nat2Z.inj_add.
      rewrite Z2Nat.id by (apply Z.div_pos; lia).
      rewrite <- ceil_div by lia. f_equal. case_bool_decide; reflexivity.
    + intros Hd.
      assert (Hq : depth / n < 0) by (apply Z.div_lt_upper_bound; lia).
      replace (Z.to_nat (depth / n)) with 0%nat by lia.
      split; [reflexivity|]. apply Z.mod_pos_bound. lia.
Qed.

(** ** Rounding in [to_dtype] *)

Lemma round_half_even_error (x : Q) :
  (x - (1 # 2) <= inject_Z (Numpy.round_half_even x) <= x + (1 # 2))%Q.
Proof.
  unfold Numpy.round_half_even.
  pose proof (Qfloor_le x) as Hlo.
  pose proof (Qlt_floor x) as Hhi.
  rewrite inject_Z_plus in Hhi.
  change (inject_Z 1) with 1%Q in Hhi.
  destruct (x - inject_Z (Qfloor x) ?= 1 # 2)%Q eqn:Hc.
  - apply Qeq_alt in Hc.
    destruct (Z.even (Qfloor x)); rewrite ?inject_Z_plus;
      change (inject_Z 1) with 1%Q; split; lra.
  - apply Qlt_alt in Hc. split; lra.
  - apply Qgt_alt in Hc. rewrite inject_Z_plus.
    change (inject_Z 1) with 1%Q. split; lra.
Qed.

(** X15.  For an integer output type [to_dtype] leaves the rounded values
    in the buffer it was given and returns, cell by cell, either an
    integer of the output type that differs from the buffer value by at
    most one half, or an unspecified cell when the rounded value does not
    fit the type; it never returns a floating cell. *)
Theorem to_dtype_rounds_to_nearest float_cast d (xs : list Q) :
  Numpy.is_integer d = true ->
  (to_dtype float_cast xs d).1 = Numpy.rint <$> xs /\
  Forall2 (fun x c =>
             match c with
             | Numpy.IntCell z =>
                 z = Numpy.round_half_even x /\
                 Numpy.int_min d <= z <= Numpy.int_max d /\
                 (x - (1 # 2) <= inject_Z z <= x + (1 # 2))%Q
             | Numpy.Unspecified =>
                 ~ (Numpy.int_min d <= Numpy.round_half_even x
                    <= Numpy.int_max d)
             | Numpy.FloatCell _ => False
             end)
          xs (to_dtype float_cast xs d).2.
Proof.
  intros Hd. unfold to_dtype. rewrite Hd. cbn [fst snd].
  split; [reflexivity|].
  induction xs as [|x xs IH]; [constructor|].
  cbn [fmap list_fmap]. constructor; [|exact IH].
  unfold Numpy.astype, Numpy.rint. rewrite Hd, Qtrunc_inject_Z.
  case_bool_decide as Hr.
  - split; [reflexivity|]. split; [exact Hr|]. apply round_half_even_error.
  - exact Hr.
Qed.

Lemma to_dtype_rounds_to_nearest_witness :
  Numpy.is_integer Numpy.uint8 = true /\
  (to_dtype (fun _ x => x) [5 # 2; 7 # 2; (-1) # 4; 511 # 2] Numpy.uint8).1
  = Numpy.rint <$> [5 # 2; 7 # 2; (-1) # 4; 511 # 2].
Proof.
  split; [reflexivity|].
  exact (proj1 (to_dtype_rounds_to_nearest
                  (fun _ x => x) Numpy.uint8
                  [5 # 2; 7 # 2; (-1) # 4; 511 # 2] eq_refl)).
Defined.


(** ** The debug overlay *)

Lemma overlays_frame pre post t (dbg : bool) :
  overlays pre = [] -> placements pre = [] ->
  overlays post = [] -> placements post = [] ->
  overlays t
  = (if dbg then (fun p => (pl_index p, pl_from p)) <$> placements t
     else []) ->
  overlays (pre ++ t ++ post)
  = (if dbg
     then (fun p => (pl_index p, pl_from p)) <$> placements (pre ++ t ++ post)
     else []).
Proof.
  intros P1 P2 Q1 Q2 Ht. unfold overlays, placements in *.
  rewrite !omap_app, P1, P2, Q1, Q2, Ht, !app_nil_r. reflexivity.
Qed.

Lemma tile_step_overlays host row s :
  debug (tile_step host row s).1.2 = debug s /\
  overlays (tile_step host row s).2
  = (if debug s
     then (fun p => (pl_index p, pl_from p))
            <$> placements (tile_step host row s).2
     else []).
Proof.
  rewrite tile_step_eval. cbv zeta.
  case_bool_decide.
  { split; [reflexivity|cbn [fst snd]; destruct (debug s); reflexivity]. }
  destruct (input_files host !! _).
  - split; [reflexivity|cbn [fst snd]; destruct (debug s); reflexivity].
  - split; [reflexivity|cbn [fst snd]; destruct (debug s); reflexivity].
Qed.

Lemma for_each_overlays {A} (body : A -> M unit) :
  (forall x s,
     debug (body x s).1.2 = debug s /\
     overlays (body x s).2
     = (if debug s
        then (fun p => (pl_index p, pl_from p)) <$> placements (body x s).2
        else [])) ->
  forall l s,
    debug (for_each body l s).1.2 = debug s /\
    overlays (for_each body l s).2
    = (if debug s
       then (fun p => (pl_index p, pl_from p))
              <$> placements (for_each body l s).2
       else []).
Proof.
  intros Hbody l. induction l as [|x l IH]; intros s.
  - split; [reflexivity|cbn; destruct (debug s); reflexivity].
  - cbn [for_each]. unfold bind.
    destruct (Hbody x s) as [Hd Ho].
    destruct (body x s) as [[[[]|e] s1] t1]; cbn [fst snd] in *.
    + destruct (IH s1) as [Hd2 Ho2].
      destruct (for_each body l s1) as [[r2 s2] t2]; cbn [fst snd] in *.
      split; [congruence|].
      rewrite Hd in Ho2.
      unfold overlays, placements in *.
      rewrite !omap_app, Ho, Ho2.
      destruct (debug s); [|reflexivity].
      rewrite fmap_app. reflexivity.
    + split; assumption.
Qed.

Lemma chunk_overlays host bt th s :
  debug (chunk host bt th s).1.2 = debug s /\
  overlays (chunk host bt th s).2
  = (if debug s
     then (fun p => (pl_index p, pl_from p))
            <$> placements (chunk host bt th s).2
     else []).
Proof.
  rewrite chunk_eval. cbv zeta.
  set (s1 := set_zmax (Some (zmin s + th)) s).
  destruct (for_each_overlays (tile_step host) (tile_step_overlays host)
              (data_frame (fm s)) s1) as [_ Ho].
  change (debug s1) with (debug s) in Ho.
  destruct (output_shape host s1) as [sh|e];
    [|split; [reflexivity|cbn [fst snd]; destruct (debug s); reflexivity]].
  destruct (forallb _ sh); [|split; [reflexivity|cbn [fst snd]; destruct (debug s); reflexivity]].
  destruct (for_each (tile_step host) (data_frame (fm s)) s1)
    as [[r s2] t1]; cbn [fst snd] in Ho.
  destruct r as [[]|e].
  2: { split; [reflexivity|]. cbn [fst snd].
       rewrite <- (app_nil_r t1) in Ho |- *.
       exact (overlays_frame [Assign_zmax (zmin s + th); Zeros sh; ThreadStart]
                [] t1 (debug s) eq_refl eq_refl eq_refl eq_refl
                ltac:(rewrite app_nil_r in Ho; exact Ho)). }
  destruct (is_multichannel host s1) as [mc|e].
  2: { split; [reflexivity|].
       exact (overlays_frame [Assign_zmax (zmin s + th); Zeros sh; ThreadStart]
                [Put None; ThreadJoin] t1 (debug s)
                eq_refl eq_refl eq_refl eq_refl Ho). }
  destruct (if mc then _ else _) as [sh'|e].
  2: { split; [reflexivity|].
       exact (overlays_frame [Assign_zmax (zmin s + th); Zeros sh; ThreadStart]
                [Put None; ThreadJoin] t1 (debug s)
                eq_refl eq_refl eq_refl eq_refl Ho). }
  destruct (runner_dtype host s1) as [dt|e].
  2: { split; [reflexivity|].
       exact (overlays_frame [Assign_zmax (zmin s + th); Zeros sh; ThreadStart]
                [Put None; ThreadJoin] t1 (debug s)
                eq_refl eq_refl eq_refl eq_refl Ho). }
  split; [reflexivity|].
  exact (overlays_frame [Assign_zmax (zmin s + th); Zeros sh; ThreadStart]
           [Put None; ThreadJoin; Imsave (output_filename s) sh' dt bt;
            Assign_zmin (zmin s + th)] t1 (debug s)
           eq_refl eq_refl eq_refl eq_refl Ho).
Qed.

(** X20.  [run] never changes the debug flag, and it calls
    [overlay_debug] only when the flag is set: then exactly once for each
    slice it puts on the queue, in queue order, with the name of the tile
    and the first frame of the slice; without the flag it never calls it.
    This holds whatever the outcome of the run. *)
Theorem overlay_per_queued_slice host s :
  debug (run host s).1.2 = debug s /\
  overlays (run host s).2
  = (if debug s
     then (fun p => (pl_index p, pl_from p)) <$> placements (run host s).2
     else []).
Proof.
  rewrite run_eval. cbv zeta.
  set (s0 := normalized s).
  destruct (total_byte_size host s0) as [total|e];
    [|split; [reflexivity|cbn [fst snd]; destruct (debug s); reflexivity]].
  destruct (n_frames_in_ram host s0) as [n|e];
    [|split; [reflexivity|cbn [fst snd]; destruct (debug s); reflexivity]].
  destruct (output_shape host s0) as [sh|e];
    [|split; [reflexivity|cbn [fst snd]; destruct (debug s); reflexivity]].
  destruct (getitem sh 0) as [depth|e];
    [|split; [reflexivity|cbn [fst snd]; destruct (debug s); reflexivity]].
  destruct (partial_thickness depth n) as [pt|e];
    [|split; [reflexivity|cbn [fst snd]; destruct (debug s); reflexivity]].
  destruct (for_each_overlays (chunk host (bigtiff_of total))
              (chunk_overlays host (bigtiff_of total)) pt s0) as [Hd Ho].
  change (debug s0) with (debug s) in Hd, Ho.
  destruct (for_each (chunk host (bigtiff_of total)) pt s0)
    as [[r s'] t]; cbn [fst snd] in *.
  split; [exact Hd|].
  rewrite <- (app_nil_r t).
  exact (overlays_frame [Remove (output_filename s0)] [] t (debug s)
           eq_refl eq_refl eq_refl eq_refl Ho).
Qed.

Lemma partial_thickness_edges_witness :
  partial_thickness 0 4 = Ok [] /\
  partial_thickness 3 4 = Ok [3] /\
  partial_thickness 7 0 = Raise ZeroDivisionError /\
  partial_thickness (-5) 4 = Ok [3].
Proof.
  destruct (partial_thickness_edges 0 4) as [_ H0].
  destruct (partial_thickness_edges 3 4) as [_ H3].
  destruct (partial_thickness_edges 7 0) as [Hz _].
  destruct (partial_thickness_edges (-5) 4) as [_ Hn].
  destruct (H0 ltac:(lia)) as (H0' & _).
  destruct (H3 ltac:(lia)) as (_ & H3' & _).
  destruct (Hn ltac:(lia)) as (_ & _ & _ & Hn').
  split; [exact (H0' eq_refl)|].
  split; [apply H3'; lia|].
  split; [exact (Hz eq_refl)|].
  exact (proj1 (Hn' ltac:(lia))).
Defined.

End FuseRunnerFacts.

Module TiffWrapperFacts.


Import TiffWrapper.

Section Volume.

Context {Frame dtype : Type}.
Variable astype_frame : dtype -> Frame -> Frame.
Variable fs : FileSystem Frame.

Local Abbreviation slice := (TiffWrapper.slice Frame dtype astype_frame fs).
Local Abbreviation converted := (TiffWrapper.converted Frame dtype astype_frame).
Local Abbreviation astype := (TiffWrapper.astype Frame dtype astype_frame).
Local Abbreviation Page := (TiffWrapper.Page Frame).
Local Abbreviation Stack := (TiffWrapper.Stack Frame).
Local Abbreviation frames := (TiffWrapper.frames Frame).

(** ** Arrays *)

Lemma frames_stack_of_pages (ps : list Frame) :
  frames (Stack (Page <$> ps)) = ps.
Proof.
  cbn [TiffWrapper.frames]. induction ps as [|p ps IH]; [reflexivity|].
  cbn. f_equal. exact IH.
Qed.

Lemma astype_stack_of_pages d (ps : list Frame) :
  astype d (Stack (Page <$> ps)) = Stack (Page <$> (astype_frame d <$> ps)).
Proof.
  cbn [TiffWrapper.astype]. f_equal.
  induction ps as [|p ps IH]; [reflexivity|]. cbn. f_equal. exact IH.
Qed.

Lemma stack_pages_nonempty (ps : list Frame) :
  ps <> [] ->
  exists a,
    stack_pages Frame ps = Ok a /\
    frames a = ps /\
    (if bool_decide (length ps = 1%nat) then Stack [a] else a)
      = Stack (Page <$> ps).
Proof.
  destruct ps as [|p [|q ps]]; [contradiction| |]; intros _.
  - exists (Page p). repeat split.
  - eexists. split; [reflexivity|]. split; [apply frames_stack_of_pages|].
    reflexivity.
Qed.

(** ** Selecting pages *)

Lemma range_cons a b : a < b -> range a b = a :: range (a + 1) b.
Proof.
  intros Hab. unfold range.
  replace (Z.to_nat (b - a)) with (S (Z.to_nat (b - (a + 1)))) by lia.
  cbn [seq fmap list_fmap]. f_equal; [lia|].
  rewrite <- seq_shift, <- !list_fmap_compose.
  apply list_fmap_ext. intros _ i _. cbn. lia.
Qed.

Lemma range_empty a b : b <= a -> range a b = [].
Proof. intros Hab. unfold range. replace (Z.to_nat (b - a)) with 0%nat by lia. reflexivity. Qed.

Lemma getitem_in_range {A} (l : list A) (k : Z) :
  0 <= k < Z.of_nat (length l) ->
  exists x, l !! Z.to_nat k = Some x /\ getitem l k = Ok x.
Proof.
  intros Hk. unfold getitem, norm_index.
  rewrite bool_decide_true by exact Hk.
  destruct (lookup_lt_is_Some_2 l (Z.to_nat k) ltac:(lia)) as [x Hx].
  exists x. rewrite Hx. split; reflexivity.
Qed.

Lemma select_pages_range (pages : list Frame) (n : nat) : forall a,
  0 <= a -> a + Z.of_nat n <= Z.of_nat (length pages) ->
  select_pages Frame pages (range a (a + Z.of_nat n))
  = Ok (take n (drop (Z.to_nat a) pages)).
Proof.
  induction n as [|n IH]; intros a Ha Hb.
  - rewrite range_empty by lia. reflexivity.
  - rewrite range_cons by lia. cbn [select_pages].
    destruct (getitem_in_range pages a ltac:(lia)) as (x & Hx & ->).
    replace (a + Z.of_nat (S n)) with (a + 1 + Z.of_nat n) by lia.
    rewrite IH by lia.
    rewrite (drop_S _ _ _ Hx). cbn [take].
    replace (Z.to_nat (a + 1)) with (S (Z.to_nat a)) by lia. reflexivity.
Qed.

(** ** The single container *)

Lemma slice_single_container (w : t Frame) start_frame end_frame dt copy :
  glob_mode Frame w = false ->
  0 <= start_frame < end_frame ->
  end_frame <= nfrms Frame w ->
  slice w start_frame (Some end_frame) dt copy
  = Ok (Stack (Page <$> (converted dt
                           <$> frame_range (tfile Frame w)
                                 start_frame end_frame))).
Proof.
  intros Hmode Hse Hend. unfold TiffWrapper.slice, nfrms in *.
  rewrite Hmode in *. cbn [negb default]. unfold id.
  unfold asarray.
  assert (Hsel : select_pages Frame (tfile Frame w)
                   (range start_frame end_frame)
                 = Ok (frame_range (tfile Frame w) start_frame end_frame)).
  { pose proof (select_pages_range (tfile Frame w)
                  (Z.to_nat (end_frame - start_frame)) start_frame
                  ltac:(lia) ltac:(lia)) as Hsel.
    rewrite Z2Nat.id in Hsel by lia.
    replace (start_frame + (end_frame - start_frame)) with end_frame
      in Hsel by lia.
    exact Hsel. }
  rewrite Hsel.
  set (ps := frame_range (tfile Frame w) start_frame end_frame).
  assert (Hlen : length ps = Z.to_nat (end_frame - start_frame)).
  { subst ps. unfold frame_range. rewrite length_take, length_drop. lia. }
  destruct (stack_pages_nonempty ps) as (a & -> & _ & Hexp).
  { intros Hnil. rewrite Hnil in Hlen. cbn in Hlen. lia. }
  assert (Hcase : bool_decide (end_frame - start_frame = 1)
                  = bool_decide (length ps = 1%nat)).
  { apply bool_decide_ext. lia. }
  rewrite Hcase, Hexp.
  destruct dt as [d|]; cbn [TiffWrapper.converted].
  - rewrite astype_stack_of_pages. reflexivity.
  - rewrite list_fmap_id. reflexivity.
Qed.



(** ** The multi-file tile *)

Local Abbreviation pages_of := (fun f : string => default [] (files Frame fs !! f)).

Lemma read_sequence_ok (n0 : nat) (fnames : list string) :
  (1 <= n0)%nat ->
  Forall (fun f => exists pages,
              files Frame fs !! f = Some pages /\ length pages = n0) fnames ->
  exists items,
    read_sequence Frame fs n0 fnames = Ok items /\
    concat (map frames items) = concat (map pages_of fnames) /\
    (n0 = 1%nat -> items = Page <$> concat (map pages_of fnames)).
Proof.
  intros Hn0 Hall.
  induction Hall as [|f fnames (pages & Hf & Hlen) _ (items & IH1 & IH2 & IH3)].
  - exists []. repeat split.
  - cbn [read_sequence]. unfold TiffFile. rewrite Hf.
    rewrite bool_decide_true by exact Hlen.
    destruct (stack_pages_nonempty pages) as (a & -> & Hfa & Hexp).
    { intros Hnil. rewrite Hnil in Hlen. cbn in Hlen. lia. }
    rewrite IH1. exists (a :: items). split; [reflexivity|].
    cbn [map concat]. rewrite Hfa, IH2, Hf. cbn [default].
    split; [reflexivity|].
    intros H1. rewrite (IH3 H1), fmap_app. f_equal.
    rewrite H1 in Hlen. rewrite bool_decide_true in Hexp by exact Hlen.
    destruct pages as [|p [|q pages]]; try discriminate.
    cbn in Hexp. injection Hexp as ->. reflexivity.
Qed.

Lemma imread_ok (n0 : nat) (fnames : list string) :
  (1 <= n0)%nat ->
  fnames <> [] ->
  Forall (fun f => exists pages,
              files Frame fs !! f = Some pages /\ length pages = n0) fnames ->
  exists a,
    imread Frame fs fnames = Ok a /\
    frames a = concat (map pages_of fnames) /\
    (n0 = 1%nat ->
     (if bool_decide (length fnames = 1%nat) then Stack [a] else a)
       = Stack (Page <$> concat (map pages_of fnames))).
Proof.
  intros Hn0 Hne Hall.
  destruct fnames as [|f [|g fnames]]; [contradiction| |].
  - apply Forall_cons in Hall. destruct Hall as [(pages & Hf & Hlen) _].
    cbn [imread]. unfold read_whole, TiffFile. rewrite Hf.
    destruct (stack_pages_nonempty pages) as (a & -> & Hfa & Hexp).
    { intros Hnil. rewrite Hnil in Hlen. cbn in Hlen. lia. }
    exists a. split; [reflexivity|]. cbn [map concat]. rewrite Hf.
    cbn [default]. rewrite app_nil_r. split; [exact Hfa|].
    intros H1. rewrite H1 in Hlen.
    rewrite bool_decide_true in Hexp by exact Hlen.
    rewrite bool_decide_true by reflexivity. exact Hexp.
  - destruct (read_sequence_ok n0 (f :: g :: fnames) Hn0 Hall)
      as (items & Hseq & Hfr & Hone).
    apply Forall_cons in Hall. destruct Hall as [(pages & Hf & Hlen) _].
    cbn [imread]. unfold TiffFile at 1. rewrite Hf, Hlen, Hseq.
    eexists. split; [reflexivity|]. split; [exact Hfr|].
    intros H1. rewrite bool_decide_false by (cbn; lia).
    rewrite (Hone H1). reflexivity.
Qed.

Lemma slice_in_range {A} (l : list A) (a b : Z) :
  0 <= a <= b -> b <= Z.of_nat (length l) ->
  Py.slice l a b = frame_range l a b.
Proof.
  intros Hab Hb. unfold Py.slice, clamp_bound, frame_range.
  rewrite !bool_decide_false by lia.
  rewrite !Z.min_l by lia. f_equal. lia.
Qed.

Lemma concat_take_chunks {A} (k : nat) (ls : list (list A)) :
  Forall (fun l => length l = k) ls ->
  forall n, take (n * k) (concat ls) = concat (take n ls).
Proof.
  intros Hall. induction Hall as [|l ls Hl _ IH]; intros n.
  - cbn [concat]. rewrite !take_nil. reflexivity.
  - destruct n as [|n]; [reflexivity|].
    cbn [take concat]. rewrite <- (IH n).
    replace (S n * k)%nat with (length l + n * k)%nat by lia.
    apply take_app_add'. reflexivity.
Qed.

Lemma concat_drop_chunks {A} (k : nat) (ls : list (list A)) :
  Forall (fun l => length l = k) ls ->
  forall n, drop (n * k) (concat ls) = concat (drop n ls).
Proof.
  intros Hall. induction Hall as [|l ls Hl _ IH]; intros n.
  - cbn [concat]. rewrite !drop_nil. reflexivity.
  - destruct n as [|n]; [reflexivity|].
    cbn [drop concat]. rewrite <- (IH n).
    replace (S n * k)%nat with (length l + n * k)%nat by lia.
    apply drop_app_add'. reflexivity.
Qed.

Lemma frame_range_concat {A} (k : nat) (ls : list (list A)) (a b : Z) :
  Forall (fun l => length l = k) ls ->
  0 <= a <= b ->
  frame_range (concat ls) (a * Z.of_nat k) (b * Z.of_nat k)
  = concat (frame_range ls a b).
Proof.
  intros Hall Hab. unfold frame_range.
  replace (Z.to_nat (a * Z.of_nat k)) with (Z.to_nat a * k)%nat by nia.
  replace (Z.to_nat (b * Z.of_nat k - a * Z.of_nat k))
    with (Z.to_nat (b - a) * k)%nat by nia.
  rewrite (concat_drop_chunks k ls Hall).
  apply concat_take_chunks. apply Forall_drop, Hall.
Qed.


Lemma frames_astype d : forall a, frames (astype d a) = astype_frame d <$> frames a.
Proof.
  fix IH 1. intros [f | items].
  - reflexivity.
  - cbn [TiffWrapper.astype TiffWrapper.frames].
    induction items as [|x items IHl]; [reflexivity|].
    cbn [map concat]. rewrite fmap_app, IH, IHl. reflexivity.
Qed.

Lemma frames_converted dt a :
  frames (match dt with Some d => astype d a | None => a end)
  = converted dt <$> frames a.
Proof.
  destruct dt as [d|]; cbn [TiffWrapper.converted].
  - apply frames_astype.
  - rewrite list_fmap_id. reflexivity.
Qed.

Lemma logical_frames_range (w : t Frame) (a b : Z) :
  glob_mode Frame w = true ->
  equal_page_counts Frame fs w ->
  0 <= a <= b ->
  frame_range (logical_frames Frame fs w)
    (a * Z.of_nat (length (tfile Frame w)))
    (b * Z.of_nat (length (tfile Frame w)))
  = concat (map pages_of (frame_range (flist Frame w) a b)).
Proof.
  intros Hmode Heq Hab. unfold logical_frames. rewrite Hmode.
  rewrite (frame_range_concat (length (tfile Frame w))).
  - unfold frame_range. rewrite <- !fmap_drop, <- !fmap_take. reflexivity.
  - apply Forall_fmap. eapply Forall_impl; [exact Heq|].
    intros f (pages & Hf & Hlen). cbn. rewrite Hf. exact Hlen.
  - exact Hab.
Qed.

Lemma concat_length_chunks {A} (k : nat) (ls : list (list A)) :
  Forall (fun l => length l = k) ls ->
  length (concat ls) = (length ls * k)%nat.
Proof.
  induction 1 as [|l ls Hl _ IH]; [reflexivity|].
  cbn [concat length]. rewrite length_app, IH, Hl. lia.
Qed.

Lemma logical_frames_length (w : t Frame) :
  equal_page_counts Frame fs w ->
  Z.of_nat (length (logical_frames Frame fs w)) = nfrms Frame w.
Proof.
  intros Heq. unfold logical_frames, nfrms.
  destruct (glob_mode Frame w); [|reflexivity].
  rewrite (concat_length_chunks (length (tfile Frame w))).
  - rewrite length_map. lia.
  - apply Forall_fmap. eapply Forall_impl; [exact Heq|].
    intros f (pages & Hf & Hlen). cbn. rewrite Hf. exact Hlen.
Qed.

(** C7 (as amended).  For a wrapper whose files hold equally many pages and
    a request [0 <= start_frame < end_frame <= nfrms]: in single-container
    mode [slice] returns exactly the frames [start_frame, end_frame),
    stacked along a leading axis of length [end_frame - start_frame] (also
    when that is 1).  In multi-file mode it reads the whole files of index
    [start_frame // frames_per_file] up to, not including,
    [end_frame // frames_per_file]: it fails when the two indices are
    equal, and otherwise returns the frames from
    [start_file * frames_per_file] to [end_file * frames_per_file]; with
    one frame per file this is again exactly the frames
    [start_frame, end_frame) along a leading axis of that length.  (The
    last part spells out the exact result: its frames and its leading
    axis.) *)
Theorem slice_returns (w : t Frame) start_frame end_frame dt copy :
  equal_page_counts Frame fs w ->
  0 <= start_frame < end_frame ->
  end_frame <= nfrms Frame w ->
  let fpf := Z.of_nat (length (tfile Frame w)) in
  let start_file := start_frame / fpf in
  let end_file := end_frame / fpf in
  let res := slice w start_frame (Some end_frame) dt copy in
  let exact :=
    Ok (Stack (Page <$> (converted dt
                           <$> frame_range (logical_frames Frame fs w)
                                 start_frame end_frame))) in
  (glob_mode Frame w = false -> res = exact) /\
  (glob_mode Frame w = true ->
     (start_file = end_file -> res = Raise ValueError) /\
     (start_file < end_file ->
        exists a,
          res = Ok a /\
          frames a
          = converted dt
              <$> concat (map pages_of
                            (frame_range (flist Frame w) start_file end_file)) /\
          frames a
          = converted dt
              <$> frame_range (logical_frames Frame fs w)
                    (start_file * fpf) (end_file * fpf)) /\
     (fpf = 1 -> res = exact)) /\
  (forall a,
     exact = Ok a ->
     frames a
     = converted dt
         <$> frame_range (logical_frames Frame fs w) start_frame end_frame /\
     leading_axis Frame a = Some (Z.to_nat (end_frame - start_frame)) /\
     length (frames a) = Z.to_nat (end_frame - start_frame)).
Proof.
  intros Heq Hse Hend fpf start_file end_file res exact.
  split; [|split].
  3: { intros a [= <-].
       assert (Hlen : length (frame_range (logical_frames Frame fs w)
                                start_frame end_frame)
                      = Z.to_nat (end_frame - start_frame)).
       { pose proof (logical_frames_length w Heq) as Hl.
         unfold frame_range. rewrite length_take, length_drop. lia. }
       rewrite frames_stack_of_pages. cbn [leading_axis].
       rewrite !length_fmap, Hlen. repeat split. }
  - intros Hmode. subst res exact. unfold logical_frames. rewrite Hmode.
    apply slice_single_container; assumption.
  - intros Hmode.
    assert (Hn : nfrms Frame w = fpf * Z.of_nat (length (flist Frame w)))
      by (unfold nfrms; rewrite Hmode; reflexivity).
    rewrite Hn in Hend.
    assert (Hfpf : 0 < fpf) by nia.
    assert (Hlen : 0 < Z.of_nat (length (flist Frame w))) by nia.
    assert (Hsf : 0 <= start_file) by (apply Z.div_pos; lia).
    assert (Hsef : start_file <= end_file)
      by (apply Z.div_le_mono; lia).
    assert (Hef : end_file <= Z.of_nat (length (flist Frame w))).
    { subst end_file. apply Z.div_le_upper_bound; lia. }
    assert (Hres : res =
      match imread Frame fs (frame_range (flist Frame w) start_file end_file)
      with
      | Raise e => Raise e
      | Ok a =>
          Ok (match dt with
              | Some d =>
                  astype d (if bool_decide (end_frame - start_frame = 1)
                            then Stack [a] else a)
              | None => if bool_decide (end_frame - start_frame = 1)
                        then Stack [a] else a
              end)
      end).
    { subst res. unfold TiffWrapper.slice. rewrite Hmode, Hn.
      cbn [negb default]. unfold id, floordiv.
      rewrite bool_decide_false by lia.
      rewrite Z.div_mul by lia.
      rewrite bool_decide_false by lia.
      fold start_file end_file.
      rewrite slice_in_range by lia.
      destruct (imread _ _ _); [destruct dt|]; reflexivity. }
    assert (Hsub : Forall (fun f => exists pages,
                             files Frame fs !! f = Some pages /\
                             length pages = length (tfile Frame w))
                     (frame_range (flist Frame w) start_file end_file)).
    { unfold frame_range. apply Forall_take, Forall_drop, Heq. }
    assert (Hcount : length (frame_range (flist Frame w) start_file end_file)
                     = Z.to_nat (end_file - start_file)).
    { unfold frame_range. rewrite length_take, length_drop. lia. }
    repeat apply conj.
    + intros Hsame. rewrite Hres. unfold frame_range.
      replace (Z.to_nat (end_file - start_file)) with 0%nat by lia.
      reflexivity.
    + intros Hlt.
      destruct (imread_ok (length (tfile Frame w)) _ ltac:(lia)
                  ltac:(intros Hnil; rewrite Hnil in Hcount;
                        cbn in Hcount; lia) Hsub)
        as (a & Hread & Hfr & _).
      rewrite Hres, Hread. eexists. split; [reflexivity|].
      assert (Hfa : frames (match dt with
                            | Some d =>
                                astype d
                                  (if bool_decide (end_frame - start_frame = 1)
                                   then Stack [a] else a)
                            | None =>
                                if bool_decide (end_frame - start_frame = 1)
                                then Stack [a] else a
                            end)
                    = converted dt
                        <$> concat (map pages_of
                                      (frame_range (flist Frame w)
                                         start_file end_file))).
      { rewrite frames_converted. f_equal. rewrite <- Hfr.
        case_bool_decide; [|reflexivity].
        cbn [TiffWrapper.frames map concat]. apply app_nil_r. }
      split; [exact Hfa|]. rewrite Hfa. f_equal.
      symmetry. apply logical_frames_range; [assumption..|lia].
    + intros H1.
      assert (Hs : start_file = start_frame)
        by (subst start_file; rewrite H1; apply Z.div_1_r).
      assert (He : end_file = end_frame)
        by (subst end_file; rewrite H1; apply Z.div_1_r).
      destruct (imread_ok (length (tfile Frame w)) _ ltac:(lia)
                  ltac:(intros Hnil; rewrite Hnil in Hcount;
                        cbn in Hcount; lia) Hsub)
        as (a & Hread & _ & Hone).
      specialize (Hone ltac:(lia)).
      rewrite Hres, Hread. subst exact.
      assert (Hcase : bool_decide (end_frame - start_frame = 1)
                      = bool_decide (length (frame_range (flist Frame w)
                                               start_file end_file) = 1%nat)).
      { apply bool_decide_ext. lia. }
      rewrite Hcase, Hone.
      pose proof (logical_frames_range w start_file end_file Hmode Heq
                    ltac:(lia)) as Hlog.
      fold fpf in Hlog. rewrite H1, !Z.mul_1_r, Hs, He in Hlog.
      rewrite Hs, He, <- Hlog.
      destruct dt as [d|]; cbn [TiffWrapper.converted].
      * rewrite astype_stack_of_pages. reflexivity.
      * rewrite list_fmap_id. reflexivity.
Qed.

(** What [open] establishes. *)
Lemma open_spec name (w : t Frame) :
  open Frame fs name = Ok w ->
  glob_mode Frame w = isdir Frame fs name /\
  (glob_mode Frame w = false ->
   files Frame fs !! name = Some (tfile Frame w)) /\
  (glob_mode Frame w = true ->
   exists first rest,
     flist Frame w = first :: rest /\
     files Frame fs !! first = Some (tfile Frame w)).
Proof.
  unfold open. destruct (isdir Frame fs name).
  - destruct (getitem _ 0) as [fname|] eqn:Hfirst; [|discriminate].
    unfold TiffFile. destruct (files Frame fs !! fname) as [pages|] eqn:Hf;
      [|discriminate].
    intros [= <-]. cbn [glob_mode tfile flist].
    split; [reflexivity|]. split; [discriminate|].
    intros _. destruct (sorted _) as [|f0 rest]; [discriminate|].
    unfold getitem, norm_index in Hfirst. cbn [length] in Hfirst.
    rewrite bool_decide_true in Hfirst by lia. cbn in Hfirst.
    injection Hfirst as ->. eauto.
  - unfold TiffFile. destruct (files Frame fs !! name) as [pages|] eqn:Hf;
      [|discriminate].
    intros [= <-]. cbn [glob_mode tfile flist].
    split; [reflexivity|]. split; [intros _; reflexivity | discriminate].
Qed.


(** ** Further properties of the wrapper *)

Lemma take_add_split {A} (n m : nat) : forall l : list A,
  take (n + m) l = take n l ++ take m (drop n l).
Proof.
  induction n as [|n IH]; intros [|x l]; cbn; try reflexivity.
  - rewrite take_nil. reflexivity.
  - f_equal. apply IH.
Qed.

Lemma frame_range_app {A} (l : list A) (a b c : Z) :
  0 <= a <= b -> b <= c ->
  frame_range l a c = frame_range l a b ++ frame_range l b c.
Proof.
  intros Hab Hbc. unfold frame_range.
  replace (Z.to_nat (c - a))
    with (Z.to_nat (b - a) + Z.to_nat (c - b))%nat by lia.
  rewrite take_add_split, drop_drop.
  replace (Z.to_nat a + Z.to_nat (b - a))%nat with (Z.to_nat b) by lia.
  reflexivity.
Qed.

(** What [slice] does in multi-file mode, for any request that starts at a
    frame [>= 0]. *)
Lemma slice_multi_file (w : t Frame) start_frame end_frame dt copy :
  glob_mode Frame w = true ->
  equal_page_counts Frame fs w ->
  flist Frame w <> [] ->
  (1 <= length (tfile Frame w))%nat ->
  let fpf := Z.of_nat (length (tfile Frame w)) in
  let sel := Py.slice (flist Frame w) (start_frame / fpf) (end_frame / fpf) in
  (sel = [] ->
   slice w start_frame (Some end_frame) dt copy = Raise ValueError) /\
  (sel <> [] ->
   exists a,
     slice w start_frame (Some end_frame) dt copy = Ok a /\
     frames a = converted dt <$> concat (map pages_of sel)).
Proof.
  intros Hmode Heq Hne Hfpf fpf sel.
  assert (Hlen : 0 < Z.of_nat (length (flist Frame w))).
  { destruct (flist Frame w); [contradiction|cbn; lia]. }
  assert (Hres : slice w start_frame (Some end_frame) dt copy =
      match imread Frame fs sel with
      | Raise e => Raise e
      | Ok a =>
          Ok (match dt with
              | Some d =>
                  astype d (if bool_decide (end_frame - start_frame = 1)
                            then Stack [a] else a)
              | None => if bool_decide (end_frame - start_frame = 1)
                        then Stack [a] else a
              end)
      end).
  { unfold TiffWrapper.slice, nfrms. rewrite Hmode.
    cbn [negb default]. unfold id, floordiv.
    rewrite bool_decide_false by lia.
    rewrite Z.div_mul by lia.
    rewrite bool_decide_false by lia.
    fold fpf sel.
    destruct (imread _ _ _); [destruct dt|]; reflexivity. }
  split.
  - intros Hnil. rewrite Hres, Hnil. reflexivity.
  - intros Hsel.
    assert (Hsub : Forall (fun f => exists pages,
                             files Frame fs !! f = Some pages /\
                             length pages = length (tfile Frame w)) sel).
    { subst sel. unfold Py.slice. apply Forall_take, Forall_drop, Heq. }
    destruct (imread_ok (length (tfile Frame w)) sel Hfpf Hsel Hsub)
      as (a & Hread & Hfr & _).
    rewrite Hres, Hread. eexists. split; [reflexivity|].
    rewrite frames_converted. f_equal. rewrite <- Hfr.
    case_bool_decide; [|reflexivity].
    cbn [TiffWrapper.frames map concat]. apply app_nil_r.
Qed.


(** X16.  For a single container, and for a multi-file tile whose files
    all hold as many pages as the first: reading the tile in two adjacent
    pieces gives what one read gives.  When the reads of the frames
    [a, b) and [b, c), with [0 <= a < b < c <= nfrms], both return, the
    read of [a, c) returns too and its frames are those of the first read
    followed by those of the second (in multi-file mode the parts are
    whole files). *)
Theorem adjacent_slices_compose (w : t Frame) a b c dt copy x y :
  equal_page_counts Frame fs w ->
  0 <= a < b -> b < c -> c <= nfrms Frame w ->
  slice w a (Some b) dt copy = Ok x ->
  slice w b (Some c) dt copy = Ok y ->
  exists z,
    slice w a (Some c) dt copy = Ok z /\
    frames z = frames x ++ frames y.
Proof.
  intros Heq Hab Hbc Hc Hx Hy.
  destruct (glob_mode Frame w) eqn:Hmode.
  - assert (Hn : nfrms Frame w
                 = Z.of_nat (length (tfile Frame w))
                   * Z.of_nat (length (flist Frame w)))
      by (unfold nfrms; rewrite Hmode; reflexivity).
    rewrite Hn in Hc.
    set (fpf := Z.of_nat (length (tfile Frame w))) in *.
    assert (Hfpf : 0 < fpf) by nia.
    assert (Hlen : 0 < Z.of_nat (length (flist Frame w))) by nia.
    assert (Hne : flist Frame w <> []).
    { intros Hnil. rewrite Hnil in Hlen. cbn in Hlen. lia. }
    assert (H1 : (1 <= length (tfile Frame w))%nat) by lia.
    assert (Ha0 : 0 <= a / fpf) by (apply Z.div_pos; lia).
    assert (Hab' : a / fpf <= b / fpf) by (apply Z.div_le_mono; lia).
    assert (Hbc' : b / fpf <= c / fpf) by (apply Z.div_le_mono; lia).
    assert (Hcl : c / fpf <= Z.of_nat (length (flist Frame w)))
      by (apply Z.div_le_upper_bound; lia).
    destruct (slice_multi_file w a b dt copy Hmode Heq Hne H1) as [Hxn Hxs].
    destruct (slice_multi_file w b c dt copy Hmode Heq Hne H1) as [Hyn Hys].
    destruct (slice_multi_file w a c dt copy Hmode Heq Hne H1) as [_ Hzs].
    fold fpf in Hxn, Hxs, Hyn, Hys, Hzs.
    rewrite slice_in_range in Hxn, Hxs by lia.
    rewrite slice_in_range in Hyn, Hys by lia.
    rewrite slice_in_range in Hzs by lia.
    rewrite (frame_range_app _ (a / fpf) (b / fpf) (c / fpf)) in Hzs by lia.
    destruct (frame_range (flist Frame w) (a / fpf) (b / fpf)) as [|f1 l1] eqn:E1.
    { rewrite (Hxn eq_refl) in Hx. discriminate. }
    destruct (Hxs ltac:(discriminate)) as (x' & Hx' & Hfx).
    destruct (frame_range (flist Frame w) (b / fpf) (c / fpf)) as [|f2 l2] eqn:E2.
    { rewrite (Hyn eq_refl) in Hy. discriminate. }
    destruct (Hys ltac:(discriminate)) as (y' & Hy' & Hfy).
    destruct (Hzs ltac:(discriminate)) as (z & Hz & Hfz).
    rewrite Hx in Hx'. injection Hx' as <-.
    rewrite Hy in Hy'. injection Hy' as <-.
    exists z. split; [exact Hz|].
    rewrite Hfz, Hfx, Hfy, map_app, concat_app, fmap_app. reflexivity.
  - assert (Hn : nfrms Frame w = Z.of_nat (length (tfile Frame w)))
      by (unfold nfrms; rewrite Hmode; reflexivity).
    rewrite slice_single_container in Hx by (try assumption; lia).
    rewrite slice_single_container in Hy by (try assumption; lia).
    rewrite slice_single_container by (try assumption; lia).
    injection Hx as <-. injection Hy as <-.
    eexists. split; [reflexivity|].
    rewrite !frames_stack_of_pages.
    rewrite (frame_range_app _ a b c) by lia.
    apply fmap_app.
Qed.

Lemma select_pages_beyond (pages : list Frame) (n : nat) : forall a,
  (1 <= n)%nat ->
  0 <= a -> Z.of_nat (length pages) < a + Z.of_nat n ->
  select_pages Frame pages (range a (a + Z.of_nat n)) = Raise IndexError.
Proof.
  induction n as [|n IH]; intros a Hn Ha Hb.
  - lia.
  - rewrite range_cons by lia. cbn [select_pages].
    destruct (decide (a < Z.of_nat (length pages))) as [Hin|Hout].
    + destruct (getitem_in_range pages a ltac:(lia)) as (p & _ & ->).
      replace (a + Z.of_nat (S n)) with (a + 1 + Z.of_nat n) by lia.
      rewrite IH by lia. reflexivity.
    + unfold getitem, norm_index.
      rewrite bool_decide_false by lia.
      rewrite bool_decide_false by lia. reflexivity.
Qed.

(** X17.  A request that starts inside the tile and ends beyond its last
    frame: on a single container [slice] raises [IndexError] and returns
    nothing.  On a multi-file tile whose files all hold as many pages as
    the first, the list of files is cut at its end without an error: the
    call returns the frames from the first selected file to the end of
    the tile, which are fewer than [end_frame - start_frame] when the
    request starts at a file boundary. *)
Theorem slice_beyond_the_end (w : t Frame) start_frame end_frame dt copy :
  equal_page_counts Frame fs w ->
  0 <= start_frame < nfrms Frame w ->
  nfrms Frame w < end_frame ->
  let fpf := Z.of_nat (length (tfile Frame w)) in
  (glob_mode Frame w = false ->
   slice w start_frame (Some end_frame) dt copy = Raise IndexError) /\
  (glob_mode Frame w = true ->
   exists a,
     slice w start_frame (Some end_frame) dt copy = Ok a /\
     frames a
     = converted dt
         <$> drop (Z.to_nat (start_frame / fpf * fpf))
               (logical_frames Frame fs w) /\
     Z.of_nat (length (frames a))
     = nfrms Frame w - start_frame / fpf * fpf /\
     (start_frame mod fpf = 0 ->
      Z.of_nat (length (frames a)) < end_frame - start_frame)).
Proof.
  intros Heq Hs He fpf. split; intros Hmode.
  - assert (Hn : nfrms Frame w = Z.of_nat (length (tfile Frame w)))
      by (unfold nfrms; rewrite Hmode; reflexivity).
    unfold TiffWrapper.slice. rewrite Hmode. cbn [negb default]. unfold id.
    unfold asarray.
    pose proof (select_pages_beyond (tfile Frame w)
                  (Z.to_nat (end_frame - start_frame)) start_frame
                  ltac:(lia) ltac:(lia) ltac:(lia)) as Hsel.
    rewrite Z2Nat.id in Hsel by lia.
    replace (start_frame + (end_frame - start_frame)) with end_frame
      in Hsel by lia.
    rewrite Hsel. reflexivity.
  - assert (Hn : nfrms Frame w
                 = fpf * Z.of_nat (length (flist Frame w)))
      by (unfold nfrms; rewrite Hmode; reflexivity).
    assert (Hfpf : 0 < fpf) by nia.
    assert (Hlen : 0 < Z.of_nat (length (flist Frame w))) by nia.
    assert (Hne : flist Frame w <> []).
    { intros Hnil. rewrite Hnil in Hlen. cbn in Hlen. lia. }
    assert (H1 : (1 <= length (tfile Frame w))%nat) by lia.
    assert (Hs0 : 0 <= start_frame / fpf) by (apply Z.div_pos; lia).
    assert (Hsl : start_frame / fpf < Z.of_nat (length (flist Frame w)))
      by (apply Z.div_lt_upper_bound; lia).
    assert (Hel : Z.of_nat (length (flist Frame w)) <= end_frame / fpf)
      by (apply Z.div_le_lower_bound; lia).
    destruct (slice_multi_file w start_frame end_frame dt copy
                Hmode Heq Hne H1) as [_ Hsome].
    fold fpf in Hsome.
    assert (Hsel : Py.slice (flist Frame w) (start_frame / fpf)
                     (end_frame / fpf)
                   = drop (Z.to_nat (start_frame / fpf)) (flist Frame w)).
    { unfold Py.slice, clamp_bound.
      rewrite !bool_decide_false by lia.
      rewrite (Z.min_l (start_frame / fpf)), (Z.min_r (end_frame / fpf))
        by lia.
      apply take_ge. rewrite length_drop. lia. }
    rewrite Hsel in Hsome.
    destruct Hsome as (a & Ha & Hfa).
    { intros Hnil. apply (f_equal length) in Hnil.
      rewrite length_drop in Hnil. cbn in Hnil. lia. }
    assert (Hall : Forall (fun l : list Frame =>
                             length l = length (tfile Frame w))
                     (map pages_of (flist Frame w))).
    { apply Forall_fmap. eapply Forall_impl; [exact Heq|].
      intros f (pages & Hf & Hl). cbn. rewrite Hf. exact Hl. }
    assert (Hdrop : concat (map pages_of
                              (drop (Z.to_nat (start_frame / fpf))
                                 (flist Frame w)))
                    = drop (Z.to_nat (start_frame / fpf * fpf))
                        (logical_frames Frame fs w)).
    { unfold logical_frames. rewrite Hmode.
      replace (Z.to_nat (start_frame / fpf * fpf))
        with (Z.to_nat (start_frame / fpf) * length (tfile Frame w))%nat
        by (subst fpf; nia).
      rewrite (concat_drop_chunks _ _ Hall).
      rewrite <- fmap_drop. reflexivity. }
    pose proof (logical_frames_length w Heq) as Hll.
    assert (Hcount : Z.of_nat (length (frames a))
                     = nfrms Frame w - start_frame / fpf * fpf).
    { rewrite Hfa, Hdrop, length_fmap, length_drop. nia. }
    exists a. repeat apply conj.
    + exact Ha.
    + rewrite Hfa, Hdrop. reflexivity.
    + exact Hcount.
    + intros Hal. rewrite Hcount.
      pose proof (Z.div_mod start_frame fpf ltac:(lia)). lia.
Qed.


(** ** Opening a tile *)

Lemma string_compare_trans s1 : forall s2 s3,
  String.compare s1 s2 <> Gt -> String.compare s2 s3 <> Gt ->
  String.compare s1 s3 <> Gt.
Proof.
  induction s1 as [|c1 s1 IH]; intros [|c2 s2] [|c3 s3]; cbn;
    try congruence.
  unfold Ascii.compare.
  destruct (N.compare_spec (N_of_ascii c1) (N_of_ascii c2)) as [E12|L12|G12];
    destruct (N.compare_spec (N_of_ascii c2) (N_of_ascii c3)) as [E23|L23|G23];
    destruct (N.compare_spec (N_of_ascii c1) (N_of_ascii c3)) as [E13|L13|G13];
    try congruence; try lia.
  apply IH.
Qed.

Lemma leb_transitive :
  Transitive (fun a b : string => Is_true (String.leb a b)).
Proof.
  intros a b c. unfold String.leb.
  pose proof (string_compare_trans a b c) as H.
  destruct (String.compare a b), (String.compare b c),
    (String.compare a c); cbn; try tauto; intros _ _; apply H; congruence.
Qed.

Lemma leb_is_total :
  Total (fun a b : string => Is_true (String.leb a b)).
Proof.
  intros a b. destruct (String.leb_total a b) as [H|H]; rewrite H;
    [left | right]; exact I.
Qed.

Lemma open_directory_eval name (w : t Frame) :
  isdir Frame fs name = true ->
  open Frame fs name = Ok w ->
  file_name Frame w = name /\
  glob_mode Frame w = true /\
  flist Frame w
  = sorted (glob Frame fs (os_path_join name "*.tif*")
            ++ glob Frame fs (os_path_join name "*.TIF*")).
Proof.
  intros Hdir. unfold open. rewrite Hdir.
  destruct (getitem _ 0) as [fname|]; [|discriminate].
  destruct (TiffFile _ _ _) as [pages|]; [|discriminate].
  intros [= <-]. repeat split.
Qed.

(** X18.  Opening a directory: the file list of the wrapper is the
    concatenation of the matches of the two patterns put in ascending
    order, so a name matched by both patterns is listed twice; the opened
    file is the first of the list, the least name, and [nfrms] is the page
    count of that one file times the number of matches, whatever the
    other files hold. *)
Theorem open_directory name (w : t Frame) :
  isdir Frame fs name = true ->
  open Frame fs name = Ok w ->
  let found := glob Frame fs (os_path_join name "*.tif*")
               ++ glob Frame fs (os_path_join name "*.TIF*") in
  file_name Frame w = name /\
  glob_mode Frame w = true /\
  flist Frame w ≡ₚ found /\
  StronglySorted (fun a b => Is_true (String.leb a b)) (flist Frame w) /\
  (exists first,
     head (flist Frame w) = Some first /\
     files Frame fs !! first = Some (tfile Frame w) /\
     forall f, f ∈ found -> Is_true (String.leb first f)) /\
  nfrms Frame w
  = Z.of_nat (length (tfile Frame w)) * Z.of_nat (length found).
Proof.
  intros Hdir Hopen found.
  destruct (open_directory_eval name w Hdir Hopen) as (Hname & Hmode & Hfl).
  fold found in Hfl.
  assert (Hperm : flist Frame w ≡ₚ found).
  { rewrite Hfl. apply merge_sort_Permutation. }
  assert (Hsorted : StronglySorted (fun a b => Is_true (String.leb a b))
                      (flist Frame w)).
  { rewrite Hfl. apply StronglySorted_merge_sort;
      [apply leb_transitive | apply leb_is_total]. }
  repeat apply conj; try assumption.
  - destruct (open_spec name w Hopen) as (_ & _ & Hfirst).
    destruct (Hfirst Hmode) as (first & rest & Hcons & Hfile).
    exists first. rewrite Hcons. repeat apply conj; [reflexivity|exact Hfile|].
    intros f Hf. rewrite <- Hperm, Hcons in Hf.
    rewrite Hcons in Hsorted. apply StronglySorted_inv in Hsorted.
    destruct Hsorted as [_ Hall].
    apply elem_of_cons in Hf. destruct Hf as [-> | Hf].
    + destruct (leb_is_total first first) as [H|H]; exact H.
    + rewrite Forall_forall in Hall. apply Hall, Hf.
  - unfold nfrms. rewrite Hmode, (Permutation_length Hperm). reflexivity.
Qed.


End Volume.


Lemma slice_returns_witness :
  open nat Examples.four_by_one "tile" = Ok Examples.four_by_one_volume /\
  slice nat unit Examples.keep Examples.four_by_one
    Examples.four_by_one_volume 1 (Some 2) None true
  = Ok (Stack nat [Page nat 1%nat]) /\
  open nat Examples.one_stack "tile.tif" = Ok Examples.one_stack_volume /\
  slice nat unit Examples.keep Examples.one_stack
    Examples.one_stack_volume 1 (Some 3) None true
  = Ok (Stack nat [Page nat 1%nat; Page nat 2%nat]).
Proof.
  split; [reflexivity|]. split.
  - destruct (slice_returns Examples.keep Examples.four_by_one
                Examples.four_by_one_volume 1 2 None true)
      as (_ & Hglob & _).
    + repeat constructor; eexists; split; reflexivity.
    + lia.
    + cbn. lia.
    + destruct (Hglob eq_refl) as (_ & _ & Hone). exact (Hone eq_refl).
  - split; [reflexivity|].
    destruct (slice_returns Examples.keep Examples.one_stack
                Examples.one_stack_volume 1 3 None true)
      as (Hsingle & _).
    + constructor.
    + lia.
    + cbn. lia.
    + exact (Hsingle eq_refl).
Defined.

(** C7, as stated, fails for a multi-file tile with more than one frame per
    file: with two files of two frames, the request for the frames [1, 3)
    returns the frames 0 and 1 (the whole first file), and the one-frame
    request [0, 1) selects no file at all and fails. *)
Lemma slice_reads_whole_files :
  open nat Examples.two_by_two "tile" = Ok Examples.two_by_two_volume /\
  nfrms nat Examples.two_by_two_volume = 4 /\
  frame_range (logical_frames nat Examples.two_by_two
                 Examples.two_by_two_volume) 1 3 = [1%nat; 2%nat] /\
  slice nat unit Examples.keep Examples.two_by_two
    Examples.two_by_two_volume 1 (Some 3) None true
  = Ok (Stack nat [Page nat 0%nat; Page nat 1%nat]) /\
  slice nat unit Examples.keep Examples.two_by_two
    Examples.two_by_two_volume 0 (Some 1) None true
  = Raise ValueError.
Proof. repeat split. Qed.


Lemma adjacent_slices_compose_witness :
  exists z,
    slice nat unit Examples.keep Examples.two_by_two
      Examples.two_by_two_volume 1 (Some 4) None true = Ok z /\
    frames nat z = [0; 1]%nat ++ [2; 3]%nat.
Proof.
  apply (adjacent_slices_compose Examples.keep Examples.two_by_two
           Examples.two_by_two_volume 1 2 4 None true
           (Stack nat [Stack nat [Page nat 0%nat; Page nat 1%nat]])
           (Stack nat [Page nat 2%nat; Page nat 3%nat])).
  - repeat constructor; eexists; split; reflexivity.
  - lia.
  - lia.
  - cbn. lia.
  - reflexivity.
  - reflexivity.
Defined.

Lemma slice_beyond_the_end_witness :
  slice nat unit Examples.keep Examples.one_stack
    Examples.one_stack_volume 2 (Some 6) None true = Raise IndexError /\
  exists a,
    slice nat unit Examples.keep Examples.two_by_two
      Examples.two_by_two_volume 2 (Some 6) None true = Ok a /\
    frames nat a = [2; 3]%nat.
Proof.
  split.
  - refine (proj1 (slice_beyond_the_end Examples.keep Examples.one_stack
                     Examples.one_stack_volume 2 6 None true _ _ _) eq_refl).
    + constructor.
    + cbn. lia.
    + cbn. lia.
  - destruct (slice_beyond_the_end Examples.keep Examples.two_by_two
                Examples.two_by_two_volume 2 6 None true) as [_ Hglob].
    + repeat constructor; eexists; split; reflexivity.
    + cbn. lia.
    + cbn. lia.
    + destruct (Hglob eq_refl) as (a & Ha & Hfa & _).
      exists a. split; [exact Ha|exact Hfa].
Defined.

Lemma open_directory_witness :
  open nat Examples.two_by_two "tile" = Ok Examples.two_by_two_volume /\
  flist nat Examples.two_by_two_volume
  ≡ₚ ["tile/b.tif"%string; "tile/a.tif"%string] /\
  nfrms nat Examples.two_by_two_volume = 2 * 2.
Proof.
  split; [reflexivity|].
  destruct (open_directory Examples.two_by_two "tile"
              Examples.two_by_two_volume eq_refl eq_refl)
    as (_ & _ & Hperm & _ & _ & Hn).
  split; [exact Hperm|exact Hn].
Defined.


(** The two properties above need files of equally many pages.  With two
    pages in the first file and one in the second, [nfrms] is 4: the reads
    of [0, 2) and of [2, 4) return the three pages there are, and the read
    of [0, 4) returns four frames, the page of the second file twice. *)
Lemma unequal_files_do_not_compose :
  open nat Examples.two_and_one "tile" = Ok Examples.two_and_one_volume /\
  nfrms nat Examples.two_and_one_volume = 4 /\
  (exists x y z,
     slice nat unit Examples.keep Examples.two_and_one
       Examples.two_and_one_volume 0 (Some 2) None true = Ok x /\
     slice nat unit Examples.keep Examples.two_and_one
       Examples.two_and_one_volume 2 (Some 4) None true = Ok y /\
     slice nat unit Examples.keep Examples.two_and_one
       Examples.two_and_one_volume 0 (Some 4) None true = Ok z /\
     frames nat x = [0; 1]%nat /\
     frames nat y = [2]%nat /\
     frames nat z = [0; 1; 2; 2]%nat).
Proof.
  split; [reflexivity|]. split; [reflexivity|].
  eexists. eexists. eexists. repeat apply conj; reflexivity.
Qed.

End TiffWrapperFacts.
